(** * A shallow embedding of the budget tracker (budget1.cpp)

    The tracker is one aggregate, [BudgetTracker], that every operation
    receives by pointer and mutates in place, talking to the user through
    stdin/stdout.  The embedding keeps that shape:

    - amounts are C [float]s, modelled as IEEE-754 binary32 values with the
      round-to-nearest-even addition of [SpecFloat];
    - the three fixed-capacity arrays are lists indexed with stdpp's lookup
      and insert, an access outside the array being undefined behaviour
      ([None]);
    - the character buffers that are read before the program has written
      them (a notification's [message], a transaction's [description]) are
      raw bytes, a read that finds no terminator in them being undefined;
    - the console is explicit state: the lines still waiting on stdin, the
      [printf] calls made so far, and the clock read by [time(NULL)];
    - every operation is a computation in a small state-and-failure monad
      over the console, [None] standing for a run that does not return
      (waiting forever at end of input) or that leaves defined behaviour. *)

From Stdlib Require Import ZArith String Ascii List Bool Lia.
From Stdlib Require Import Floats.SpecFloat.
From stdpp Require Import base tactics option list strings.

Local Open Scope Z_scope.

(** ** binary32 arithmetic *)

Module F32.

Definition prec : Z := 24.
Definition emax : Z := 128.

Definition float32 : Type := spec_float.

(** The constant [0] converted to [float]. *)
Definition zero : float32 := S754_zero false.

(** [x + y] on floats. *)
Definition add (x y : float32) : float32 := SFadd prec emax x y.

(** [x < y] and [x <= y]; both are false as soon as a NaN is involved. *)
Definition ltb (x y : float32) : bool := SFltb x y.
Definition leb (x y : float32) : bool := SFleb x y.

(** [x != 0] in C: true for NaN, false for both zeros. *)
Definition nonzero (x : float32) : bool := negb (SFeqb x zero).

(** The float nearest to an integer (ties to even). *)
Definition of_Z (z : Z) : float32 := binary_normalize prec emax z 0 false.

(** The real number denoted by a finite binary32 value, as the integer
    multiple of 2^-149 it is; [None] for infinities, NaN and for
    exponents no binary32 value has. *)
Definition value (x : float32) : option Z :=
  match x with
  | S754_zero _ => Some 0
  | S754_finite s m e =>
      if -149 <=? e then Some (cond_Zopp s (Z.shiftl (Zpos m) (e + 149)))
      else None
  | _ => None
  end.

(** [add x y] did not round: its result denotes the sum of the two
    numbers exactly. *)
Definition add_is_exact (x y : float32) : bool :=
  match value x, value y, value (add x y) with
  | Some a, Some b, Some c => c =? a + b
  | _, _, _ => false
  end.


End F32.

Abbreviation float32 := F32.float32.

(** ** The console *)

(** An argument handed to [printf] after the format string. *)
Inductive printf_arg :=
| AInt (n : Z)
| AStr (s : string)
| AFloat (x : float32).

(** One call of [printf]: the format string and its arguments, kept
    unrendered. *)
Record printf_call := Printf { format : string; arguments : list printf_arg }.

(** [stdin] holds the lines not yet read (without their newline), [stdout]
    the [printf] calls in the order they were made; [clock n] is what the
    [n]-th call of [time(NULL)] returns. *)
Record Console := {
  stdin : list string;
  stdout : list printf_call;
  clock : nat -> Z;
  clock_reads : nat
}.

(** White space in the sense of [isspace]: what a [scanf] conversion skips
    before the number it converts, newlines included. *)
Definition is_space (c : ascii) : bool :=
  let n := nat_of_ascii c in
  (n =? 32)%nat || ((9 <=? n)%nat && (n <=? 13)%nat).

(** A line of white space only. *)
Fixpoint blank (s : string) : bool :=
  match s with
  | EmptyString => true
  | String c rest => is_space c && blank rest
  end.

(** What the two [scanf] conversions of the program make of a line that is
    not blank: [scan_float l] is the value [scanf("%f")] stores when the
    next such line is [l] ([None] when the conversion fails), [scan_int l]
    the same for [scanf("%d")].  A blank line holds nothing to convert. *)
Class Scanf := {
  scan_float : string -> option float32;
  scan_int : string -> option Z;
  scan_blank : forall l,
    blank l = true -> scan_float l = None /\ scan_int l = None
}.

Definition IO (A : Type) : Type := Console -> option (A * Console).

Definition ret {A} (a : A) : IO A := fun k => Some (a, k).

Definition bind {A B} (m : IO A) (f : A -> IO B) : IO B :=
  fun k => match m k with
           | Some (a, k') => f a k'
           | None => None
           end.

(** A run that never returns, or whose behaviour C leaves undefined. *)
Definition stuck {A} : IO A := fun _ => None.

(** Lifting a partial memory access: [None] is an access outside the array. *)
Definition defined {A} (o : option A) : IO A :=
  match o with
  | Some a => ret a
  | None => stuck
  end.

Declare Scope io_scope.
Delimit Scope io_scope with io.
Notation "x <- m ;; k" := (bind m (fun x => k))
  (at level 100, m at next level, right associativity) : io_scope.
Notation "m ;; k" := (bind m (fun _ => k))
  (at level 100, right associativity) : io_scope.
Local Open Scope io_scope.

Definition LF : string := String (ascii_of_nat 10) EmptyString.

Definition printf (fmt : string) (args : list printf_arg) : IO unit :=
  fun k => Some (tt, {| stdin := stdin k;
                        stdout := stdout k ++ [Printf fmt args];
                        clock := clock k;
                        clock_reads := clock_reads k |}).

(** [time(NULL)]. *)
Definition time : IO Z :=
  fun k => Some (clock k (clock_reads k),
                 {| stdin := stdin k;
                    stdout := stdout k;
                    clock := clock k;
                    clock_reads := S (clock_reads k) |}).

Definition with_stdin (lines : list string) (k : Console) : Console :=
  {| stdin := lines; stdout := stdout k;
     clock := clock k; clock_reads := clock_reads k |}.

(** The input from its first line that is not blank. *)
Fixpoint skip_blank (lines : list string) : list string :=
  match lines with
  | [] => []
  | l :: rest => if blank l then skip_blank rest else lines
  end.

(** ** The data model (the four structs) *)

Definition MAX_TRANSACTIONS : Z := 1000.
Definition MAX_CATEGORIES : Z := 50.
Definition MAX_NAME_LENGTH : Z := 50.
Definition MAX_DESC_LENGTH : Z := 100.
Definition MAX_NOTIFICATIONS : Z := 50.

(** [message] is the raw [char message[100]] buffer, byte by byte: it is
    written by [strncpy], which does not always terminate what it writes.
    [description] is the raw [char description[100]] buffer as well: at end
    of input [get_string_input] reads it as it was found.  [name] and
    [category] are only read after [strcpy] has written them, and are
    modelled by the string they then hold. *)
Record Notification := {
  message : list ascii;
  notification_timestamp : Z;
  is_read : Z
}.

Record Category := {
  name : string;
  budget_limit : float32;
  current_spent : float32
}.

Record Transaction := {
  amount : float32;
  description : list ascii;
  category : string;
  timestamp : Z;
  is_income : Z
}.

Record BudgetTracker := {
  transactions : list Transaction;
  categories : list Category;
  notifications : list Notification;
  transaction_count : Z;
  category_count : Z;
  notification_count : Z;
  total_income : float32;
  total_expenses : float32
}.

(** Assignments to one field. *)

Definition set_message v (n : Notification) : Notification :=
  {| message := v; notification_timestamp := notification_timestamp n;
     is_read := is_read n |}.
Definition set_notification_timestamp v (n : Notification) : Notification :=
  {| message := message n; notification_timestamp := v; is_read := is_read n |}.
Definition set_is_read v (n : Notification) : Notification :=
  {| message := message n; notification_timestamp := notification_timestamp n;
     is_read := v |}.

Definition set_current_spent v (c : Category) : Category :=
  {| name := name c; budget_limit := budget_limit c; current_spent := v |}.
Definition set_budget_limit v (c : Category) : Category :=
  {| name := name c; budget_limit := v; current_spent := current_spent c |}.

Definition set_amount v (t : Transaction) : Transaction :=
  {| amount := v; description := description t; category := category t;
     timestamp := timestamp t; is_income := is_income t |}.
Definition set_description v (t : Transaction) : Transaction :=
  {| amount := amount t; description := v; category := category t;
     timestamp := timestamp t; is_income := is_income t |}.
Definition set_category v (t : Transaction) : Transaction :=
  {| amount := amount t; description := description t; category := v;
     timestamp := timestamp t; is_income := is_income t |}.
Definition set_timestamp v (t : Transaction) : Transaction :=
  {| amount := amount t; description := description t; category := category t;
     timestamp := v; is_income := is_income t |}.
Definition set_is_income v (t : Transaction) : Transaction :=
  {| amount := amount t; description := description t; category := category t;
     timestamp := timestamp t; is_income := v |}.

Definition set_transactions v (b : BudgetTracker) : BudgetTracker :=
  {| transactions := v; categories := categories b;
     notifications := notifications b;
     transaction_count := transaction_count b;
     category_count := category_count b;
     notification_count := notification_count b;
     total_income := total_income b; total_expenses := total_expenses b |}.
Definition set_categories v (b : BudgetTracker) : BudgetTracker :=
  {| transactions := transactions b; categories := v;
     notifications := notifications b;
     transaction_count := transaction_count b;
     category_count := category_count b;
     notification_count := notification_count b;
     total_income := total_income b; total_expenses := total_expenses b |}.
Definition set_notifications v (b : BudgetTracker) : BudgetTracker :=
  {| transactions := transactions b; categories := categories b;
     notifications := v;
     transaction_count := transaction_count b;
     category_count := category_count b;
     notification_count := notification_count b;
     total_income := total_income b; total_expenses := total_expenses b |}.
Definition set_transaction_count v (b : BudgetTracker) : BudgetTracker :=
  {| transactions := transactions b; categories := categories b;
     notifications := notifications b;
     transaction_count := v;
     category_count := category_count b;
     notification_count := notification_count b;
     total_income := total_income b; total_expenses := total_expenses b |}.
Definition set_category_count v (b : BudgetTracker) : BudgetTracker :=
  {| transactions := transactions b; categories := categories b;
     notifications := notifications b;
     transaction_count := transaction_count b;
     category_count := v;
     notification_count := notification_count b;
     total_income := total_income b; total_expenses := total_expenses b |}.
Definition set_notification_count v (b : BudgetTracker) : BudgetTracker :=
  {| transactions := transactions b; categories := categories b;
     notifications := notifications b;
     transaction_count := transaction_count b;
     category_count := category_count b;
     notification_count := v;
     total_income := total_income b; total_expenses := total_expenses b |}.
Definition set_total_income v (b : BudgetTracker) : BudgetTracker :=
  {| transactions := transactions b; categories := categories b;
     notifications := notifications b;
     transaction_count := transaction_count b;
     category_count := category_count b;
     notification_count := notification_count b;
     total_income := v; total_expenses := total_expenses b |}.
Definition set_total_expenses v (b : BudgetTracker) : BudgetTracker :=
  {| transactions := transactions b; categories := categories b;
     notifications := notifications b;
     transaction_count := transaction_count b;
     category_count := category_count b;
     notification_count := notification_count b;
     total_income := total_income b; total_expenses := v |}.

(** ** Arrays and character buffers *)

(** [a[i]] read and written; outside the array both are undefined. *)
Definition at_index {A} (a : list A) (i : Z) : option A :=
  if 0 <=? i then a !! Z.to_nat i else None.

Definition store {A} (a : list A) (i : Z) (x : A) : option (list A) :=
  if (0 <=? i) && (i <? Z.of_nat (length a))
  then Some (<[Z.to_nat i := x]> a)
  else None.

Definition NUL : ascii := ascii_of_nat 0.
Definition newline : ascii := ascii_of_nat 10.

(** The C string held in a buffer: the bytes before its first NUL.  A
    buffer without a NUL holds no string: whatever reads it as one
    ([printf] with [%s]) runs past the end of the array. *)
Fixpoint c_string (buffer : list ascii) : option string :=
  match buffer with
  | [] => None
  | c :: rest =>
      if Ascii.eqb c NUL then Some EmptyString
      else String c <$> c_string rest
  end.

(** The C string a string literal or a [const char *] argument denotes:
    its characters up to the first NUL, the end of the literal being one. *)
Fixpoint c_str (s : string) : string :=
  match s with
  | EmptyString => EmptyString
  | String c rest =>
      if Ascii.eqb c NUL then EmptyString else String c (c_str rest)
  end.

Definition chars (s : string) : list ascii := list_ascii_of_string (c_str s).

(** Bytes written from the start of a buffer, the bytes behind them
    untouched; undefined when they do not fit. *)
Definition write (dst bytes : list ascii) : option (list ascii) :=
  if (length bytes <=? length dst)%nat
  then Some (bytes ++ drop (length bytes) dst)
  else None.

(** [strcpy(dst, src)]: the characters of [src] and a terminating NUL, the
    bytes behind them untouched; undefined when they do not fit. *)
Definition strcpy (dst : list ascii) (src : string) : option (list ascii) :=
  let bytes := chars src ++ [NUL] in
  if (length bytes <=? length dst)%nat
  then Some (bytes ++ drop (length bytes) dst)
  else None.

(** [strncpy(dst, src, n)]: exactly [n] bytes are written, the characters
    of [src] padded with NULs, or only its first [n] characters and then no
    NUL at all; the bytes from [n] on are untouched. *)
Definition strncpy (dst : list ascii) (src : string) (n : nat)
  : option (list ascii) :=
  if (n <=? length dst)%nat
  then Some (take n (chars src ++ replicate n NUL) ++ drop n dst)
  else None.

(** [buffer[strcspn(buffer, "\n")] = 0]: the first byte of the buffer that
    is a newline or a NUL becomes a NUL.  Undefined when the buffer holds
    neither: [strcspn] then runs past the end of the array. *)
Fixpoint cut_at_newline (buffer : list ascii) : option (list ascii) :=
  match buffer with
  | [] => None
  | c :: rest =>
      if Ascii.eqb c NUL || Ascii.eqb c newline then Some (NUL :: rest)
      else cons c <$> cut_at_newline rest
  end.

(** ** The input helpers *)

Section Program.

Context {scanner : Scanf}.

(** [scanf("%f", &value)] and [scanf("%d", &value)] first skip white
    space, newlines included, and so every blank line waiting; they then
    convert from the first line that is not blank.  Every call in the
    program is followed by [clear_input_buffer], which is what removes that
    line, converted or not.  [None] is a return value other than 1, at end
    of input included. *)
Definition scanf_f : IO (option float32) :=
  fun k => let lines := skip_blank (stdin k) in
           Some (match lines with
                 | [] => None
                 | l :: _ => scan_float l
                 end, with_stdin lines k).

Definition scanf_d : IO (option Z) :=
  fun k => let lines := skip_blank (stdin k) in
           Some (match lines with
                 | [] => None
                 | l :: _ => scan_int l
                 end, with_stdin lines k).

Definition clear_input_buffer : IO unit :=
  fun k => Some (tt, with_stdin (tail (stdin k)) k).

(** The loop of [get_float_input].  A failed conversion discards at least
    one line, so with [fuel] the number of lines left the loop either finds
    a number or reaches end of input, where [scanf] fails forever. *)
Fixpoint while_scanf_fails (fuel : nat) : IO float32 :=
  match fuel with
  | O => stuck
  | S fuel' =>
      r <- scanf_f ;;
      match r with
      | Some value => clear_input_buffer ;; ret value
      | None =>
          printf "Invalid input. Please enter a number: " [] ;;
          clear_input_buffer ;;
          while_scanf_fails fuel'
      end
  end.

Definition get_float_input (prompt : string) : IO float32 :=
  printf "%s" [AStr prompt] ;;
  fun k => while_scanf_fails (length (stdin k)) k.

(** [fgets(buffer, max_length, stdin)] stores at most [max_length - 1]
    characters and a NUL behind them: a shorter line whole, with its
    newline; of a longer one only the first [max_length - 1] characters,
    the rest staying on stdin.  At end of input it stores nothing: the
    buffer is left as it was found; only with room for nothing but the
    NUL does glibc store that NUL before it looks at the input at all.  A
    [max_length] below 1 is no use of [fgets]. *)
Definition fgets (buffer : list ascii) (max_length : Z) : IO (list ascii) :=
  fun k =>
    if max_length <? 1 then None
    else
      match stdin k with
      | [] =>
          if max_length =? 1
          then buffer ← write buffer [NUL]; Some (buffer, k)
          else Some (buffer, k)
      | l :: rest =>
          let room := Z.to_nat (max_length - 1) in
          if (String.length l <? room)%nat
          then
            buffer ← write buffer (list_ascii_of_string l ++ [newline; NUL]);
            Some (buffer, with_stdin rest k)
          else
            buffer ← write buffer
                       (list_ascii_of_string (substring 0 room l) ++ [NUL]);
            Some (buffer,
                  with_stdin
                    (substring room (String.length l - room) l :: rest) k)
      end.

(** The buffer is returned as the function leaves it; what it holds as a
    string is then [c_string] of it. *)
Definition get_string_input (buffer : list ascii) (max_length : Z)
    (prompt : string) : IO (list ascii) :=
  printf "%s" [AStr prompt] ;;
  buffer <- fgets buffer max_length ;;
  defined (cut_at_newline buffer).

(** ** The operations *)

(** The loop of [init_tracker] over [default_categories], from index [i]. *)
Fixpoint init_categories (names : list string) (i : Z)
    (tracker : BudgetTracker) : option BudgetTracker :=
  match names with
  | [] => Some tracker
  | default :: rest =>
      let c := {| name := default; budget_limit := F32.zero;
                  current_spent := F32.zero |} in
      cats ← store (categories tracker) i c;
      let tracker := set_categories cats tracker in
      let tracker := set_category_count (category_count tracker + 1) tracker in
      init_categories rest (i + 1) tracker
  end.

Definition default_categories : list string :=
  ["Salary"; "Freelance"; "Investments";
   "Food"; "Transport"; "Utilities"; "Rent"; "Entertainment"]%string.

Definition init_tracker (tracker : BudgetTracker) : option BudgetTracker :=
  let tracker := set_transaction_count 0 tracker in
  let tracker := set_category_count 0 tracker in
  let tracker := set_notification_count 0 tracker in
  let tracker := set_total_income F32.zero tracker in
  let tracker := set_total_expenses F32.zero tracker in
  tracker ← init_categories default_categories 0 tracker;
  let i := notification_count tracker in
  let tracker := set_notification_count (notification_count tracker + 1) tracker in
  n ← at_index (notifications tracker) i;
  m ← strcpy (message n) "Tracker initialized with default categories.";
  ns ← store (notifications tracker) i (set_message m n);
  Some (set_notifications ns tracker).

Definition add_income (tracker : BudgetTracker) : IO BudgetTracker :=
  if MAX_TRANSACTIONS <=? transaction_count tracker then
    printf ("Transaction limit reached!" ++ LF) [] ;;
    ret tracker
  else
    let slot := transaction_count tracker in
    t <- defined (at_index (transactions tracker) slot) ;;
    v <- get_float_input "Enter income amount: " ;;
    let t := set_amount v t in
    d <- get_string_input (description t) MAX_DESC_LENGTH
           "Enter income description: " ;;
    let t := set_description d t in
    let t := set_category "Income" t in
    now <- time ;;
    let t := set_timestamp now t in
    let t := set_is_income 1 t in
    txs <- defined (store (transactions tracker) slot t) ;;
    let tracker := set_transactions txs tracker in
    let tracker :=
      set_total_income (F32.add (total_income tracker) (amount t)) tracker in
    let tracker :=
      set_transaction_count (transaction_count tracker + 1) tracker in
    printf ("Income added successfully!" ++ LF) [] ;;
    ret tracker.

(** The loop of [add_expense] that prints the numbered category names. *)
Fixpoint print_categories (n : nat) (i : Z) (tracker : BudgetTracker)
  : IO unit :=
  match n with
  | O => ret tt
  | S n' =>
      c <- defined (at_index (categories tracker) i) ;;
      printf ("%d. %s" ++ LF) [AInt (i + 1); AStr (name c)] ;;
      print_categories n' (i + 1) tracker
  end.

Definition add_expense (tracker : BudgetTracker) : IO BudgetTracker :=
  if MAX_TRANSACTIONS <=? transaction_count tracker then
    printf ("Transaction limit reached!" ++ LF) [] ;;
    ret tracker
  else
    let slot := transaction_count tracker in
    t <- defined (at_index (transactions tracker) slot) ;;
    v <- get_float_input "Enter expense amount: " ;;
    let t := set_amount v t in
    txs <- defined (store (transactions tracker) slot t) ;;
    let tracker := set_transactions txs tracker in
    printf ("Select category:" ++ LF) [] ;;
    print_categories (Z.to_nat (category_count tracker)) 0 tracker ;;
    r <- scanf_d ;;
    category_choice <- defined r ;;
    clear_input_buffer ;;
    if (category_choice <? 1) || (category_count tracker <? category_choice)
    then
      printf ("Invalid category. Expense not recorded." ++ LF) [] ;;
      ret tracker
    else
      c <- defined (at_index (categories tracker) (category_choice - 1)) ;;
      let t := set_category (name c) t in
      let c := set_current_spent (F32.add (current_spent c) (amount t)) c in
      cats <- defined (store (categories tracker) (category_choice - 1) c) ;;
      let tracker := set_categories cats tracker in
      (if F32.ltb F32.zero (budget_limit c)
          && F32.ltb (budget_limit c) (current_spent c)
       then printf ("Warning: You exceeded the budget for %s!" ++ LF)
                   [AStr (name c)]
       else ret tt) ;;
      d <- get_string_input (description t) MAX_DESC_LENGTH
             "Enter expense description: " ;;
      let t := set_description d t in
      now <- time ;;
      let t := set_timestamp now t in
      let t := set_is_income 0 t in
      txs <- defined (store (transactions tracker) slot t) ;;
      let tracker := set_transactions txs tracker in
      let tracker :=
        set_total_expenses (F32.add (total_expenses tracker) (amount t))
                           tracker in
      let tracker :=
        set_transaction_count (transaction_count tracker + 1) tracker in
      printf ("Expense added successfully!" ++ LF) [] ;;
      ret tracker.

(** The loop of [set_budget], from index [i]. *)
Fixpoint set_budget_from (n : nat) (i : Z) (tracker : BudgetTracker)
  : IO BudgetTracker :=
  match n with
  | O => ret tracker
  | S n' =>
      c <- defined (at_index (categories tracker) i) ;;
      printf ("%s: Current limit $%.2f" ++ LF)
             [AStr (name c); AFloat (budget_limit c)] ;;
      v <- get_float_input "Enter new budget limit (0 for no limit): " ;;
      cats <- defined (store (categories tracker) i (set_budget_limit v c)) ;;
      set_budget_from n' (i + 1) (set_categories cats tracker)
  end.

Definition set_budget (tracker : BudgetTracker) : IO BudgetTracker :=
  printf ("Set budget limits for categories:" ++ LF) [] ;;
  tracker <- set_budget_from (Z.to_nat (category_count tracker)) 0 tracker ;;
  printf ("Budget limits updated." ++ LF) [] ;;
  ret tracker.

(** The loop of [add_notification] that moves every entry one place down:
    [n] more iterations, the next one at index [i]. *)
Fixpoint shift_notifications (n : nat) (i : Z) (ns : list Notification)
  : option (list Notification) :=
  match n with
  | O => Some ns
  | S n' =>
      next ← at_index ns (i + 1);
      ns ← store ns i next;
      shift_notifications n' (i + 1) ns
  end.

Definition add_notification (tracker : BudgetTracker) (msg : string)
  : IO BudgetTracker :=
  tracker <-
    (if MAX_NOTIFICATIONS <=? notification_count tracker then
       ns <- defined (shift_notifications
                        (Z.to_nat (MAX_NOTIFICATIONS - 1)) 0
                        (notifications tracker)) ;;
       let tracker := set_notifications ns tracker in
       ret (set_notification_count (notification_count tracker - 1) tracker)
     else ret tracker) ;;
  let i := notification_count tracker in
  let tracker :=
    set_notification_count (notification_count tracker + 1) tracker in
  n <- defined (at_index (notifications tracker) i) ;;
  m <- defined (strncpy (message n) msg 99) ;;
  let n := set_message m n in
  now <- time ;;
  let n := set_notification_timestamp now n in
  let n := set_is_read 0 n in
  ns <- defined (store (notifications tracker) i n) ;;
  ret (set_notifications ns tracker).

(** The loops of [view_transactions] and [view_notifications].  [%s] reads
    a buffer as the string it holds, and past its end when it holds none. *)
Fixpoint print_transactions (n : nat) (i : Z) (tracker : BudgetTracker)
  : IO unit :=
  match n with
  | O => ret tt
  | S n' =>
      t <- defined (at_index (transactions tracker) i) ;;
      d <- defined (c_string (description t)) ;;
      printf ("%-20s $%-9.2f %-12s %-30s" ++ LF)
             [AStr (category t); AFloat (amount t);
              AStr (if is_income t =? 0 then "Expense" else "Income");
              AStr d] ;;
      print_transactions n' (i + 1) tracker
  end.

Definition view_transactions (tracker : BudgetTracker) : IO unit :=
  if transaction_count tracker =? 0 then
    printf ("No transactions recorded." ++ LF) []
  else
    printf ("Transactions:" ++ LF) [] ;;
    printf ("%-20s %-10s %-12s %-30s" ++ LF)
           [AStr "Category"; AStr "Amount"; AStr "Type"; AStr "Description"] ;;
    printf ("-------------------------------------------------------------"
            ++ LF) [] ;;
    print_transactions (Z.to_nat (transaction_count tracker)) 0 tracker.

Fixpoint print_notifications (n : nat) (i : Z) (tracker : BudgetTracker)
  : IO unit :=
  match n with
  | O => ret tt
  | S n' =>
      e <- defined (at_index (notifications tracker) i) ;;
      m <- defined (c_string (message e)) ;;
      printf ("%s" ++ LF) [AStr m] ;;
      print_notifications n' (i + 1) tracker
  end.

Definition view_notifications (tracker : BudgetTracker) : IO unit :=
  if notification_count tracker =? 0 then
    printf ("No notifications available." ++ LF) []
  else
    printf ("Notifications:" ++ LF) [] ;;
    print_notifications (Z.to_nat (notification_count tracker)) 0 tracker.

(** The seven lines [main_menu] prints before it reads a choice. *)
Definition print_menu : IO unit :=
  printf ("1. Add Income" ++ LF) [] ;;
  printf ("2. Add Expense" ++ LF) [] ;;
  printf ("3. View Transactions" ++ LF) [] ;;
  printf ("4. Set Budget Limits" ++ LF) [] ;;
  printf ("5. View Notifications" ++ LF) [] ;;
  printf ("6. Exit" ++ LF) [] ;;
  printf "Choose an option: " [].

(** The [switch] of [main_menu]. *)
Definition dispatch (choice : Z) (tracker : BudgetTracker)
  : IO BudgetTracker :=
  match choice with
  | 1 => add_income tracker
  | 2 => add_expense tracker
  | 3 => view_transactions tracker ;; ret tracker
  | 4 => set_budget tracker
  | 5 => view_notifications tracker ;; ret tracker
  | 6 => printf ("Exiting. Goodbye!" ++ LF) [] ;; ret tracker
  | _ => printf ("Invalid choice. Try again." ++ LF) [] ;; ret tracker
  end.

(** The [do ... while (choice != 6)] loop.  [choice] is the local variable:
    [None] until [scanf] has assigned it once, and left as it is by a
    [scanf] that fails.  Every round discards a line of input when there is
    one, so with more [fuel] than lines waiting the loop either ends on a 6
    or reaches end of input, after which it cannot end any more. *)
Fixpoint main_menu_loop (fuel : nat) (choice : option Z)
    (tracker : BudgetTracker) : IO BudgetTracker :=
  match fuel with
  | O => stuck
  | S fuel' =>
      print_menu ;;
      r <- scanf_d ;;
      let choice := match r with Some c => Some c | None => choice end in
      clear_input_buffer ;;
      c <- defined choice ;;
      tracker <- dispatch c tracker ;;
      if c =? 6 then ret tracker
      else main_menu_loop fuel' (Some c) tracker
  end.

Definition main_menu (tracker : BudgetTracker) : IO BudgetTracker :=
  fun k => main_menu_loop (S (length (stdin k))) None tracker k.

(** [main], given the memory its local [tracker] occupies; the tracker it
    leaves behind is returned beside the exit status. *)
Definition main (memory : BudgetTracker) : IO (Z * BudgetTracker) :=
  tracker <- defined (init_tracker memory) ;;
  tracker <- main_menu tracker ;;
  ret (0, tracker).

End Program.

(** ** Sequences of operations *)

(** The operations a session is made of; [add_notification] takes its
    message from the caller, the others take their inputs from stdin. *)
Inductive operation :=
| Income
| Expense
| Budget
| Notify (msg : string).

Definition perform {scanner : Scanf} (op : operation) (tracker : BudgetTracker)
  : IO BudgetTracker :=
  match op with
  | Income => add_income tracker
  | Expense => add_expense tracker
  | Budget => set_budget tracker
  | Notify msg => add_notification tracker msg
  end.

Fixpoint perform_all {scanner : Scanf} (ops : list operation)
    (tracker : BudgetTracker) : IO BudgetTracker :=
  match ops with
  | [] => ret tracker
  | op :: rest =>
      tracker <- perform op tracker ;;
      perform_all rest tracker
  end.

(** ** What the tracker holds *)

(** The entries in use are the first [*_count] ones: the loops of
    [view_transactions], [view_notifications], [set_budget] and
    [add_expense] stop there. *)
Definition stored_transactions (b : BudgetTracker) : list Transaction :=
  take (Z.to_nat (transaction_count b)) (transactions b).

Definition stored_categories (b : BudgetTracker) : list Category :=
  take (Z.to_nat (category_count b)) (categories b).

Definition stored_notifications (b : BudgetTracker) : list Notification :=
  take (Z.to_nat (notification_count b)) (notifications b).

(** The struct really is a struct: the arrays and the two kinds of byte
    buffer have their declared sizes.  Nothing is said of what they hold. *)
Record storage_ok (b : BudgetTracker) : Prop := {
  transactions_size : Z.of_nat (length (transactions b)) = MAX_TRANSACTIONS;
  categories_size : Z.of_nat (length (categories b)) = MAX_CATEGORIES;
  notifications_size : Z.of_nat (length (notifications b)) = MAX_NOTIFICATIONS;
  message_size : Forall (fun n => length (message n) = 100%nat) (notifications b);
  description_size :
    Forall (fun t => length (description t) = 100%nat) (transactions b)
}.

(** The counters stay within the arrays. *)
Record counts_ok (b : BudgetTracker) : Prop := {
  transaction_count_ok : 0 <= transaction_count b <= MAX_TRANSACTIONS;
  category_count_ok : 0 <= category_count b <= MAX_CATEGORIES;
  notification_count_ok : 0 <= notification_count b <= MAX_NOTIFICATIONS
}.

(** A transaction is an income when [is_income] is true in the C sense. *)
Definition income (t : Transaction) : bool := negb (is_income t =? 0).

(** The amounts of the transactions that satisfy [p], oldest first. *)
Definition amounts_where (p : Transaction -> bool)
    (txs : list Transaction) : list float32 :=
  map amount (List.filter p txs).

Definition expense_of (nm : string) (t : Transaction) : bool :=
  negb (income t) && String.eqb (category t) nm.

Definition income_amounts (b : BudgetTracker) : list float32 :=
  amounts_where income (stored_transactions b).

Definition expense_amounts (b : BudgetTracker) : list float32 :=
  amounts_where (fun t => negb (income t)) (stored_transactions b).

(** The amounts of the expenses recorded against the category called [nm]. *)
Definition expense_amounts_of (nm : string) (b : BudgetTracker)
  : list float32 :=
  amounts_where (expense_of nm) (stored_transactions b).

(** A sum the way the program accumulates it: from 0, one [+=] per term,
    each rounded to binary32. *)
Definition float_sum (xs : list float32) : float32 :=
  fold_left F32.add xs F32.zero.

(** The number a float denotes, 0 standing in where it denotes none. *)
Definition number (x : float32) : Z := default 0 (F32.value x).

(** Accumulating [xs] onto [acc] never rounds. *)
Fixpoint no_rounding (acc : float32) (xs : list float32) : bool :=
  match xs with
  | [] => match F32.value acc with Some _ => true | None => false end
  | x :: rest => F32.add_is_exact acc x && no_rounding (F32.add acc x) rest
  end.

Fixpoint Zsum (zs : list Z) : Z :=
  match zs with
  | [] => 0
  | z :: rest => z + Zsum rest
  end.

(** What the calls printed: the [printf] calls made between two consoles. *)
Definition printed (k k' : Console) : list printf_call :=
  drop (length (stdout k)) (stdout k').

Definition budget_warning (nm : string) : printf_call :=
  Printf ("Warning: You exceeded the budget for %s!" ++ LF) [AStr nm].

Definition is_budget_warning (c : printf_call) : bool :=
  String.eqb (format c) ("Warning: You exceeded the budget for %s!" ++ LF).

(** The operation reported an exceeded budget: the warning is among what it
    printed. *)
Definition budgetExceeded (k k' : Console) : bool :=
  existsb is_budget_warning (printed k k').

Definition invalid_input : printf_call :=
  Printf "Invalid input. Please enter a number: " [].

Definition capacity_exceeded : printf_call :=
  Printf ("Transaction limit reached!" ++ LF) [].

Definition invalid_category : printf_call :=
  Printf ("Invalid category. Expense not recorded." ++ LF) [].

(** The first 99 bytes [strncpy] leaves in a message buffer. *)
Definition message_image (msg : string) : list ascii :=
  take 99 (chars msg ++ replicate 99 NUL).

(** The last [n] elements of a list. *)
Definition keep_last {A} (n : nat) (l : list A) : list A :=
  drop (length l - n) l.

(** ** A concrete setting for examples *)

(** A [scanf] for the sample runs: the two conversions as glibc performs
    them in the C locale.  Both skip white space and take an optional sign.
    [%d] then reads decimal digits and stores the number, held to the range
    of [long] and cut to the 32 bits of an [int].  [%f] reads [nan], [inf]
    or [infinity] in any case, a hexadecimal number behind [0x], or a
    decimal one: digits with at most one point among them, then an
    exponent; it stores the binary32 number nearest to what it read, ties
    to even.  Either stops at the first character that does not fit, so
    [" 12"] and ["12 apples"] are 12, ["1.5e1x"] is 15 for [%f] and 1 for
    [%d], and ["x1"] is no number. *)
Definition lower (c : ascii) : ascii :=
  let n := nat_of_ascii c in
  if (65 <=? n)%nat && (n <=? 90)%nat then ascii_of_nat (n + 32) else c.

Definition digit (c : ascii) : option Z :=
  let n := Z.of_nat (nat_of_ascii c) in
  if (48 <=? n) && (n <=? 57) then Some (n - 48) else None.

Definition hex_digit (c : ascii) : option Z :=
  let n := Z.of_nat (nat_of_ascii (lower c)) in
  if (97 <=? n) && (n <=? 102) then Some (n - 87) else digit c.

(** The digits [s] starts with: the number they spell in base [base] behind
    the digits of [acc], how many they are on top of [n], and what follows
    them. *)
Fixpoint digits (digit_of : ascii -> option Z) (base : Z) (s : string)
    (acc : Z) (n : nat) : Z * nat * string :=
  match s with
  | EmptyString => (acc, n, s)
  | String c rest =>
      match digit_of c with
      | Some d => digits digit_of base rest (base * acc + d) (S n)
      | None => (acc, n, s)
      end
  end.

Fixpoint skip_spaces (s : string) : string :=
  match s with
  | String c rest => if is_space c then skip_spaces rest else s
  | EmptyString => EmptyString
  end.

(** An optional sign: whether it is a minus, and what follows it. *)
Definition sign (s : string) : bool * string :=
  match s with
  | String c rest =>
      if Ascii.eqb c "-"%char then (true, rest)
      else if Ascii.eqb c "+"%char then (false, rest)
      else (false, s)
  | EmptyString => (false, s)
  end.

(** [s] behind the word [word], when it starts with it, letters compared
    without their case. *)
Fixpoint behind (word s : string) : option string :=
  match word, s with
  | EmptyString, _ => Some s
  | String w word', String c s' =>
      if Ascii.eqb (lower c) w then behind word' s' else None
  | String _ _, EmptyString => None
  end.

(** Digits, a point and digits, at least one digit in all: the number the
    digits spell, how many of them are behind the point, and what follows. *)
Definition mantissa (digit_of : ascii -> option Z) (base : Z) (s : string)
  : option (Z * nat * string) :=
  let '(m, whole, s1) := digits digit_of base s 0 0 in
  let '(m, fraction, s2) :=
    match behind "." s1 with
    | Some s' => digits digit_of base s' m 0
    | None => (m, 0%nat, s1)
    end in
  if (whole + fraction =? 0)%nat then None else Some (m, fraction, s2).

(** The exponent behind a mantissa: [letter], an optional sign, decimal
    digits; 0 when it is not all there. *)
Definition exponent (letter : string) (s : string) : Z :=
  match behind letter s with
  | Some s' =>
      let '(minus, s'') := sign s' in
      let '(e, _, _) := digits digit 10 s'' 0 0 in
      if minus then - e else e
  | None => 0
  end.

(** The float nearest to [m * 10 ^ e].  A negative [e] is a division: its
    quotient is taken in units of 2^-160, far below the last place of any
    binary32 number, and what the division leaves over is recorded in one
    more bit, so that the one rounding decides as on the exact value. *)
Definition decimal (m e : Z) : float32 :=
  if 0 <=? e then F32.of_Z (m * 10 ^ e)
  else
    let q := m * 2 ^ 160 / 10 ^ (- e) in
    let left_over := if m * 2 ^ 160 mod 10 ^ (- e) =? 0 then 0 else 1 in
    binary_normalize F32.prec F32.emax (2 * q + left_over) (-161) false.

(** What [%f] makes of the characters behind the sign.  [inf] followed by
    an [i] has to go on to [infinity]; [0x] needs a digit or a point behind
    it, a point alone leaving the 0 in front of the [x]. *)
Definition magnitude (s : string) : option float32 :=
  match behind "nan" s, behind "inf" s, behind "0x" s with
  | Some _, _, _ => Some S754_nan
  | None, Some s', _ =>
      match behind "i" s', behind "inity" s' with
      | Some _, None => None
      | _, _ => Some (S754_infinity false)
      end
  | None, None, Some s' =>
      match mantissa hex_digit 16 s', behind "." s' with
      | Some (m, fraction, s''), _ =>
          Some (binary_normalize F32.prec F32.emax m
                  (exponent "p" s'' - 4 * Z.of_nat fraction) false)
      | None, Some _ => Some F32.zero
      | None, None => None
      end
  | None, None, None =>
      match mantissa digit 10 s with
      | Some (m, fraction, s') =>
          Some (decimal m (exponent "e" s' - Z.of_nat fraction))
      | None => None
      end
  end.

Definition read_float (s : string) : option float32 :=
  let '(minus, s') := sign (skip_spaces s) in
  x ← magnitude s';
  Some (if minus then SFopp x else x).

Definition to_int (minus : bool) (z : Z) : Z :=
  let z := if minus then - z else z in
  let long := Z.max (- 2 ^ 63) (Z.min z (2 ^ 63 - 1)) in
  (long + 2 ^ 31) mod 2 ^ 32 - 2 ^ 31.

Definition read_int (s : string) : option Z :=
  let '(minus, s') := sign (skip_spaces s) in
  match digits digit 10 s' 0 0 with
  | (_, O, _) => None
  | (z, _, _) => Some (to_int minus z)
  end.

Definition glibc_scanner : Scanf :=
  {| scan_float l := if blank l then None else read_float l;
     scan_int l := if blank l then None else read_int l;
     scan_blank l H :=
       conj (@eq_ind_r bool true
               (fun b : bool => (if b then None else read_float l) = None)
               eq_refl (blank l) H)
            (@eq_ind_r bool true
               (fun b : bool => (if b then None else read_int l) = None)
               eq_refl (blank l) H) |}.

(** Memory as [main] finds it before [init_tracker]: nothing in it is
    meaningful yet, and neither a message nor a description buffer holds a
    string. *)
Definition stale_memory : BudgetTracker :=
  {| transactions :=
       replicate 1000 {| amount := S754_nan;
                         description := replicate 100 "?"%char;
                         category := "?"; timestamp := -1; is_income := 7 |};
     categories :=
       replicate 50 {| name := "?"; budget_limit := S754_nan;
                       current_spent := S754_nan |};
     notifications :=
       replicate 50 {| message := replicate 100 "?"%char;
                       notification_timestamp := -1; is_read := 7 |};
     transaction_count := 4242;
     category_count := -3;
     notification_count := 99;
     total_income := S754_nan;
     total_expenses := S754_infinity true |}.

(** A console with the given lines waiting and a clock that counts its
    readings. *)
Definition console (lines : list string) : Console :=
  {| stdin := lines; stdout := []; clock := Z.of_nat; clock_reads := 0 |}.


(** What [add_expense] and [add_income] are asked to record: the amount
    that [get_float_input] returns, and the category number that the
    [scanf("%d")] after it reads. *)
Definition choice_read {scanner : Scanf} (k : Console) : option Z :=
  l ← head (skip_blank (stdin k)); scan_int l.

Definition asks_expense {scanner : Scanf} (k : Console) (v : float32)
    (n : Z) : Prop :=
  exists k1, get_float_input "Enter expense amount: " k = Some (v, k1)
             /\ choice_read k1 = Some n.

Definition asks_income {scanner : Scanf} (k : Console) (v : float32) : Prop :=
  exists k1, get_float_input "Enter income amount: " k = Some (v, k1).

(** Where [get_string_input] finds the end of the description it leaves in
    the first free transaction, [lines] being the input when it is called:
    in the line it reads or, at end of input, in the buffer as the memory
    holds it, written by nobody yet. *)
Definition description_ends (t : BudgetTracker) (lines : list string) : Prop :=
  lines = [] ->
  forall old,
    transactions t !! Z.to_nat (transaction_count t) = Some old ->
    is_Some (cut_at_newline (description old)).

(** The same for each of the two operations, on the input that is left
    when they come to the description: behind the amount for an income,
    behind the amount and the line of the category number for an expense. *)
Definition income_described {scanner : Scanf} (t : BudgetTracker)
    (k : Console) : Prop :=
  forall v k1,
    get_float_input "Enter income amount: " k = Some (v, k1) ->
    description_ends t (stdin k1).

Definition expense_described {scanner : Scanf} (t : BudgetTracker)
    (k : Console) : Prop :=
  forall v k1,
    get_float_input "Enter expense amount: " k = Some (v, k1) ->
    description_ends t (tail (skip_blank (stdin k1))).

(** The console after some more [printf] calls and nothing else. *)
Definition says (out : list printf_call) (k : Console) : Console :=
  {| stdin := stdin k; stdout := stdout k ++ out;
     clock := clock k; clock_reads := clock_reads k |}.

(** The transactions the two recording operations store. *)
Definition recorded_income (v : float32) (d : list ascii) (now : Z)
  : Transaction :=
  {| amount := v; description := d; category := "Income";
     timestamp := now; is_income := 1 |}.

Definition recorded_expense (v : float32) (c : Category) (d : list ascii)
    (now : Z) : Transaction :=
  {| amount := v; description := d; category := name c;
     timestamp := now; is_income := 0 |}.

(** What [get_string_input] leaves in the description buffer of the first
    free transaction: a string, in a buffer of the size it had. *)
Definition described (t : BudgetTracker) (d : list ascii) : Prop :=
  is_Some (c_string d) /\
  forall old,
    transactions t !! Z.to_nat (transaction_count t) = Some old ->
    length d = length (description old).

(** The three ways [add_expense] returns: at the transaction limit, on a
    category number out of range, and after recording. *)
Inductive expense_outcome {scanner : Scanf} (t : BudgetTracker)
    (k : Console) (t' : BudgetTracker) (k' : Console) : Prop :=
| expense_refused :
    MAX_TRANSACTIONS <= transaction_count t ->
    t' = t ->
    k' = says [capacity_exceeded] k ->
    expense_outcome t k t' k'
| expense_rejected v n old :
    0 <= transaction_count t < MAX_TRANSACTIONS ->
    transaction_count t < Z.of_nat (length (transactions t)) ->
    asks_expense k v n ->
    n < 1 \/ category_count t < n ->
    transactions t !! Z.to_nat (transaction_count t) = Some old ->
    t' = set_transactions
           (<[Z.to_nat (transaction_count t) := set_amount v old]>
              (transactions t)) t ->
    last (stdout k') = Some invalid_category ->
    budgetExceeded k k' = false ->
    expense_outcome t k t' k'
| expense_recorded v n c d now :
    0 <= transaction_count t < MAX_TRANSACTIONS ->
    transaction_count t < Z.of_nat (length (transactions t)) ->
    asks_expense k v n ->
    1 <= n <= category_count t ->
    n - 1 < Z.of_nat (length (categories t)) ->
    categories t !! Z.to_nat (n - 1) = Some c ->
    t' = {| transactions :=
              <[Z.to_nat (transaction_count t) := recorded_expense v c d now]>
                (transactions t);
            categories :=
              <[Z.to_nat (n - 1) :=
                  set_current_spent (F32.add (current_spent c) v) c]>
                (categories t);
            notifications := notifications t;
            transaction_count := transaction_count t + 1;
            category_count := category_count t;
            notification_count := notification_count t;
            total_income := total_income t;
            total_expenses := F32.add (total_expenses t) v |} ->
    budgetExceeded k k'
    = F32.ltb F32.zero (budget_limit c)
      && F32.ltb (budget_limit c) (F32.add (current_spent c) v) ->
    described t d ->
    expense_outcome t k t' k'.

(** The two ways [add_income] returns. *)
Inductive income_outcome {scanner : Scanf} (t : BudgetTracker)
    (k : Console) (t' : BudgetTracker) (k' : Console) : Prop :=
| income_refused :
    MAX_TRANSACTIONS <= transaction_count t ->
    t' = t ->
    k' = says [capacity_exceeded] k ->
    income_outcome t k t' k'
| income_recorded v d now :
    0 <= transaction_count t < MAX_TRANSACTIONS ->
    transaction_count t < Z.of_nat (length (transactions t)) ->
    asks_income k v ->
    t' = {| transactions :=
              <[Z.to_nat (transaction_count t) := recorded_income v d now]>
                (transactions t);
            categories := categories t;
            notifications := notifications t;
            transaction_count := transaction_count t + 1;
            category_count := category_count t;
            notification_count := notification_count t;
            total_income := F32.add (total_income t) v;
            total_expenses := total_expenses t |} ->
    described t d ->
    income_outcome t k t' k'.

(** How [set_budget] may change a category: only its limit, and only to
    a number that [scanf] read. *)
Definition relimited {scanner : Scanf} (c c' : Category) : Prop :=
  name c' = name c /\ current_spent c' = current_spent c /\
  (budget_limit c' = budget_limit c \/
   exists l, scan_float l = Some (budget_limit c')).

(** The entry [add_notification] writes into a slot of the array. *)
Definition pushed (slot : Notification) (msg : string) (now : Z)
  : Notification :=
  {| message := message_image msg ++ drop 99 (message slot);
     notification_timestamp := now;
     is_read := 0 |}.

(** The console after one call of [time]. *)
Definition tick (k : Console) : Console :=
  {| stdin := stdin k; stdout := stdout k; clock := clock k;
     clock_reads := S (clock_reads k) |}.

(** Everything outside the category array is the same in both trackers. *)
Definition same_but_categories (b b' : BudgetTracker) : Prop :=
  transactions b' = transactions b /\
  notifications b' = notifications b /\
  transaction_count b' = transaction_count b /\
  category_count b' = category_count b /\
  notification_count b' = notification_count b /\
  total_income b' = total_income b /\
  total_expenses b' = total_expenses b.

(** Everything outside the notification log is the same in both trackers. *)
Definition same_but_notifications (b b' : BudgetTracker) : Prop :=
  transactions b' = transactions b /\
  categories b' = categories b /\
  transaction_count b' = transaction_count b /\
  category_count b' = category_count b /\
  total_income b' = total_income b /\
  total_expenses b' = total_expenses b.

(** A category as [init_tracker] creates it. *)
Definition fresh_category (nm : string) : Category :=
  {| name := nm; budget_limit := F32.zero; current_spent := F32.zero |}.

(** The text of a stored notification, when its buffer holds a string. *)
Definition message_text (n : Notification) : option string :=
  c_string (message n).

(** What the recording operations maintain. *)
Record ledger (b : BudgetTracker) : Prop := {
  ledger_categories :
    0 <= category_count b <= Z.of_nat (length (categories b));
  ledger_names : NoDup (map name (stored_categories b));
  ledger_income : total_income b = float_sum (income_amounts b);
  ledger_expenses : total_expenses b = float_sum (expense_amounts b);
  ledger_spent :
    Forall (fun c =>
              current_spent c = float_sum (expense_amounts_of (name c) b))
           (stored_categories b);
  ledger_known :
    Forall (fun t =>
              income t = false ->
              category t ∈ map name (stored_categories b))
           (stored_transactions b)
}.


(** The number [get_float_input] returns on the input [lines], and the
    lines it leaves: the first line that converts, the lines before it
    discarded. *)
Fixpoint next_number {scanner : Scanf} (lines : list string)
  : option (float32 * list string) :=
  match lines with
  | [] => None
  | l :: rest =>
      match scan_float l with
      | Some v => Some (v, rest)
      | None => next_number rest
      end
  end.

(** The lines it answers with "Invalid input" on the way: those before
    that number that are not blank. *)
Fixpoint rejected {scanner : Scanf} (lines : list string) : nat :=
  match lines with
  | [] => 0
  | l :: rest =>
      match scan_float l with
      | Some _ => 0
      | None => (if blank l then 0 else 1) + rejected rest
      end
  end.





(** A line without a newline or a NUL in it. *)
Fixpoint plain (s : string) : bool :=
  match s with
  | EmptyString => true
  | String c rest =>
      negb (Ascii.eqb c NUL) && negb (Ascii.eqb c newline) && plain rest
  end.

(** The messages pushed in a session are shorter than the 99 bytes that
    [add_notification] copies. *)
Definition short_messages (ops : list operation) : Prop :=
  Forall (fun op => match op with
                    | Notify msg => (length (chars msg) < 99)%nat
                    | _ => True
                    end) ops.

(** Every stored notification holds a string, and so does the description
    of every stored transaction. *)
Definition log_held (b : BudgetTracker) : Prop :=
  Forall (fun n => is_Some (message_text n)) (stored_notifications b).

Definition rows_held (b : BudgetTracker) : Prop :=
  Forall (fun t => is_Some (c_string (description t))) (stored_transactions b).


(** The tracker [main] starts its menu loop with. *)
Definition fresh_tracker : BudgetTracker :=
  default stale_memory (init_tracker stale_memory).

(** A session of a thousand incomes, which fills the transaction array. *)
Definition full_tracker : BudgetTracker :=
  match perform_all (scanner := glibc_scanner)
          (replicate 1000 Income) fresh_tracker
          (console (concat (replicate 1000 ["5"; "pay"]%string))) with
  | Some (t, _) => t
  | None => fresh_tracker
  end.

(** The tracker after a session's operations, [fresh_tracker] if the
    session does not return. *)
Definition after {scanner : Scanf} (ops : list operation)
    (lines : list string) : BudgetTracker :=
  match perform_all ops fresh_tracker (console lines) with
  | Some (t, _) => t
  | None => fresh_tracker
  end.

(** Every limit set to 100, then 90 spent on Food (category 4). *)
Definition food_at_ninety : BudgetTracker :=
  after (scanner := glibc_scanner) [Budget; Expense]
        ["100"; "100"; "100"; "100"; "100"; "100"; "100"; "100";
         "90"; "4"; "groceries"]%string.

(** Every limit set to -1. *)
Definition negative_limits : BudgetTracker :=
  after (scanner := glibc_scanner) [Budget]
        ["-1"; "-1"; "-1"; "-1"; "-1"; "-1"; "-1"; "-1"]%string.

(** The first 99 bytes of a stored notification's buffer, the part
    [strncpy] writes. *)
Definition message_prefix (n : Notification) : list ascii :=
  take 99 (message n).

(** Fifty-one one-character messages, "0", "1", ... in ASCII order. *)
Definition notes : list string :=
  map (fun i => String (ascii_of_nat (48 + i)) EmptyString) (seq 0 51).

(** The tracker whose log is full: the initial notification and 49 notes. *)
Definition full_log : BudgetTracker :=
  after (scanner := glibc_scanner) (map Notify (take 49 notes)) [].

(** What the three listing loops print for one entry; nothing that is
    defined when the entry's buffer holds no string. *)
Definition category_line (i : nat) (c : Category) : printf_call :=
  Printf ("%d. %s" ++ LF) [AInt (Z.of_nat i + 1); AStr (name c)].

Definition transaction_row (t : Transaction) : option printf_call :=
  d ← c_string (description t);
  Some (Printf ("%-20s $%-9.2f %-12s %-30s" ++ LF)
               [AStr (category t); AFloat (amount t);
                AStr (if is_income t =? 0 then "Expense" else "Income");
                AStr d]).

Definition notification_line (n : Notification) : option printf_call :=
  m ← message_text n;
  Some (Printf ("%s" ++ LF) [AStr m]).

Definition transactions_header : list printf_call :=
  [Printf ("Transactions:" ++ LF) [];
   Printf ("%-20s %-10s %-12s %-30s" ++ LF)
          [AStr "Category"; AStr "Amount"; AStr "Type"; AStr "Description"];
   Printf ("-------------------------------------------------------------"
           ++ LF) []].

(** What holds of the tracker throughout a session: the arrays and
    counters are sound, the categories are the eight defaults and the log
    is not empty. *)
Record settled (b : BudgetTracker) : Prop := {
  settled_storage : storage_ok b;
  settled_counts : counts_ok b;
  settled_categories : category_count b = 8;
  settled_names : map name (stored_categories b) = default_categories;
  settled_log : 1 <= notification_count b
}.

(** What [print_menu] prints. *)
Definition menu_lines : list printf_call :=
  [Printf ("1. Add Income" ++ LF) [];
   Printf ("2. Add Expense" ++ LF) [];
   Printf ("3. View Transactions" ++ LF) [];
   Printf ("4. Set Budget Limits" ++ LF) [];
   Printf ("5. View Notifications" ++ LF) [];
   Printf ("6. Exit" ++ LF) [];
   Printf "Choose an option: " []].

Definition goodbye : printf_call := Printf ("Exiting. Goodbye!" ++ LF) [].

Definition invalid_choice : printf_call :=
  Printf ("Invalid choice. Try again." ++ LF) [].

(** [sfx] is what is left of the line [l] after some of its characters
    have been read. *)
Definition is_tail (sfx l : string) : Prop :=
  exists pre, l = (pre ++ sfx)%string.

(** The input [new] is what can be left of the input [old]: no more lines,
    and each of them the whole or the end of a line of [old]. *)
Definition leftover (old new : list string) : Prop :=
  (length new <= length old)%nat /\
  Forall (fun l' => exists l, l ∈ old /\ is_tail l' l) new.

(** A computation that only ever consumes input. *)
Definition consuming {A} (m : IO A) : Prop :=
  forall k a k', m k = Some (a, k') -> leftover (stdin k) (stdin k').

(** * Properties *)

(** ** Tactics *)

Ltac fields :=
  cbn [transactions categories notifications transaction_count category_count
       notification_count total_income total_expenses
       set_transactions set_categories set_notifications
       set_transaction_count set_category_count set_notification_count
       set_total_income set_total_expenses
       amount description category timestamp is_income
       set_amount set_description set_category set_timestamp set_is_income
       name budget_limit current_spent set_current_spent set_budget_limit
       message notification_timestamp is_read
       set_message set_notification_timestamp set_is_read
       stdin stdout clock clock_reads says with_stdin] in *.

Lemma existsb_cons {A} (f : A -> bool) x l :
  existsb f (x :: l) = f x || existsb f l.
Proof. reflexivity. Qed.

Ltac warnings := repeat (rewrite existsb_app || rewrite existsb_cons).

(** On a concrete input: a line is left for the description. *)
Ltac line_left :=
  let H := fresh in
  let E := fresh in
  intros ? ? H E; vm_compute in H; injection H as <- <-; discriminate E.

(** ** The monad *)

Lemma bind_Some {A B} (m : IO A) (f : A -> IO B) k r :
  bind m f k = Some r <-> exists a k1, m k = Some (a, k1) /\ f a k1 = Some r.
Proof.
  unfold bind. split.
  - destruct (m k) as [[a k1]|] eqn:E; [|discriminate]. eauto.
  - intros (a & k1 & -> & Hf). exact Hf.
Qed.

Lemma bind_eq {A B} (m : IO A) (f : A -> IO B) k a k1 :
  m k = Some (a, k1) -> bind m f k = f a k1.
Proof. unfold bind. now intros ->. Qed.

Lemma bind_assoc {A B C} (m : IO A) (f : A -> IO B) (g : B -> IO C) k :
  bind (bind m f) g k = bind m (fun a => bind (f a) g) k.
Proof. unfold bind. now destruct (m k) as [[a k1]|]. Qed.

Lemma defined_Some {A} (o : option A) k a k' :
  defined o k = Some (a, k') <-> o = Some a /\ k' = k.
Proof.
  destruct o; unfold defined, ret, stuck; split.
  - intros [= -> ->]. auto.
  - intros [[= ->] ->]. reflexivity.
  - discriminate.
  - intros [[=] _].
Qed.

Lemma says_nil k : says [] k = k.
Proof. destruct k. unfold says. cbn. now rewrite app_nil_r. Qed.

Lemma says_says o1 o2 k : says o2 (says o1 k) = says (o1 ++ o2) k.
Proof. unfold says. cbn. now rewrite app_assoc. Qed.

Lemma printf_says fmt args k : printf fmt args k = Some (tt, says [Printf fmt args] k).
Proof. reflexivity. Qed.

Lemma printed_says out k : printed k (says out k) = out.
Proof.
  unfold printed, says. cbn. rewrite drop_app_length. reflexivity.
Qed.

(** ** Arrays *)

Lemma at_index_Some {A} (a : list A) i x :
  at_index a i = Some x <-> 0 <= i /\ a !! Z.to_nat i = Some x.
Proof.
  unfold at_index. destruct (Z.leb_spec 0 i); split.
  - auto.
  - now intros [_ H'].
  - discriminate.
  - intros [? _]. lia.
Qed.

Lemma at_index_in_range {A} (a : list A) i :
  0 <= i < Z.of_nat (length a) -> is_Some (at_index a i).
Proof.
  intros Hi. unfold at_index.
  destruct (Z.leb_spec 0 i); [|lia].
  apply lookup_lt_is_Some. lia.
Qed.

Lemma store_Some {A} (a : list A) i x a' :
  store a i x = Some a' <->
  0 <= i < Z.of_nat (length a) /\ a' = <[Z.to_nat i := x]> a.
Proof.
  unfold store.
  destruct (Z.leb_spec 0 i), (Z.ltb_spec i (Z.of_nat (length a))); cbn; split;
    try discriminate; try (intros [? _]; lia).
  - intros [= <-]. auto.
  - intros [_ ->]. reflexivity.
Qed.

Lemma store_in_range {A} (a : list A) i x :
  0 <= i < Z.of_nat (length a) -> store a i x = Some (<[Z.to_nat i := x]> a).
Proof. intros. apply store_Some. auto. Qed.

Lemma take_succ_insert {A} (a : list A) (n : nat) x :
  (n < length a)%nat -> take (S n) (<[n := x]> a) = take n a ++ [x].
Proof.
  intros Hn.
  rewrite (take_S_r _ _ x) by (now apply list_lookup_insert_eq).
  now rewrite take_insert_ge by lia.
Qed.

(** ** The input helpers *)

Section Helpers.

Context {scanner : Scanf}.

Lemma bind_printf {A} fmt args (f : unit -> IO A) k :
  bind (printf fmt args) f k = f tt (says [Printf fmt args] k).
Proof. reflexivity. Qed.

Lemma bind_clear_input_buffer {A} (f : unit -> IO A) k :
  bind clear_input_buffer f k = f tt (with_stdin (tail (stdin k)) k).
Proof. reflexivity. Qed.

Lemma bind_scanf_f {A} (f : option float32 -> IO A) k :
  bind scanf_f f k
  = f (l ← head (skip_blank (stdin k)); scan_float l)
      (with_stdin (skip_blank (stdin k)) k).
Proof. unfold bind, scanf_f. now destruct (skip_blank (stdin k)). Qed.

Lemma bind_scanf_d {A} (f : option Z -> IO A) k :
  bind scanf_d f k = f (choice_read k) (with_stdin (skip_blank (stdin k)) k).
Proof.
  unfold bind, scanf_d, choice_read. now destruct (skip_blank (stdin k)).
Qed.

Lemma bind_time {A} (f : Z -> IO A) k :
  bind time f k
  = f (clock k (clock_reads k))
      {| stdin := stdin k; stdout := stdout k; clock := clock k;
         clock_reads := S (clock_reads k) |}.
Proof. reflexivity. Qed.

Lemma bind_ret {A B} (a : A) (f : A -> IO B) k : bind (ret a) f k = f a k.
Proof. reflexivity. Qed.

(** *** Blank lines *)

Lemma scan_float_blank l : blank l = true -> scan_float l = None.
Proof. intros H. now apply scan_blank. Qed.

Lemma scan_float_Some_blank l v : scan_float l = Some v -> blank l = false.
Proof.
  intros H. destruct (blank l) eqn:Hb; [|reflexivity].
  rewrite (scan_float_blank l Hb) in H. discriminate.
Qed.

Lemma skip_blank_head lines l rest :
  skip_blank lines = l :: rest -> blank l = false.
Proof.
  induction lines as [|x lines IH]; cbn [skip_blank]; [discriminate|].
  destruct (blank x) eqn:Hx; [exact IH|]. now intros [= <- _].
Qed.

Lemma skip_blank_drop lines :
  exists j, skip_blank lines = drop j lines /\
            Forall (fun b => blank b = true) (take j lines).
Proof.
  induction lines as [|x lines (j & Hj & Hall)]; cbn [skip_blank].
  - exists 0%nat. split; [reflexivity|constructor].
  - destruct (blank x) eqn:Hx.
    + exists (S j). split; [exact Hj|]. cbn [take]. now constructor.
    + exists 0%nat. split; [reflexivity|constructor].
Qed.

Lemma length_skip_blank lines : (length (skip_blank lines) <= length lines)%nat.
Proof.
  destruct (skip_blank_drop lines) as (j & -> & _). rewrite length_drop. lia.
Qed.

Lemma skip_blank_next lines : next_number (skip_blank lines) = next_number lines.
Proof.
  induction lines as [|x lines IH]; cbn [skip_blank]; [reflexivity|].
  destruct (blank x) eqn:Hx; [|reflexivity].
  cbn [next_number]. now rewrite (scan_float_blank x Hx).
Qed.

Lemma skip_blank_rejected lines : rejected (skip_blank lines) = rejected lines.
Proof.
  induction lines as [|x lines IH]; cbn [skip_blank]; [reflexivity|].
  destruct (blank x) eqn:Hx; [|reflexivity].
  cbn [rejected]. now rewrite (scan_float_blank x Hx), Hx.
Qed.

Lemma next_number_Some lines v rest :
  next_number lines = Some (v, rest) ->
  exists j l, lines !! j = Some l /\ scan_float l = Some v /\
              rest = drop (S j) lines /\
              Forall (fun b => scan_float b = None) (take j lines).
Proof.
  induction lines as [|x lines IH]; cbn [next_number]; [discriminate|].
  destruct (scan_float x) as [w|] eqn:Hx.
  - intros [= <- <-]. exists 0%nat, x. repeat split; [exact Hx|constructor].
  - intros H. destruct (IH H) as (j & l & Hl & Hv & -> & Hall).
    exists (S j), l. repeat split; [exact Hl|exact Hv|]. cbn [take].
    now constructor.
Qed.

Lemma next_number_None lines :
  next_number lines = None <-> Forall (fun l => scan_float l = None) lines.
Proof.
  induction lines as [|x lines IH]; cbn [next_number].
  - split; [constructor|reflexivity].
  - destruct (scan_float x) as [w|] eqn:Hx.
    + split; [discriminate|]. intros H. inversion H; congruence.
    + rewrite IH. split; [now constructor|]. intros H. now inversion H.
Qed.

Lemma length_next_number lines v rest :
  next_number lines = Some (v, rest) -> (length rest < length lines)%nat.
Proof.
  intros H. destruct (next_number_Some _ _ _ H) as (j & l & Hl & _ & -> & _).
  apply lookup_lt_Some in Hl. rewrite length_drop. lia.
Qed.

(** *** [get_float_input] *)

Lemma while_scanf_fails_eq fuel : forall k,
  (length (stdin k) <= fuel)%nat ->
  while_scanf_fails fuel k
  = match next_number (stdin k) with
    | Some (v, rest) =>
        Some (v, with_stdin rest
                   (says (replicate (rejected (stdin k)) invalid_input) k))
    | None => None
    end.
Proof.
  induction fuel as [|fuel IH]; intros k Hfuel.
  - destruct (stdin k); [reflexivity|cbn in Hfuel; lia].
  - cbn [while_scanf_fails]. rewrite bind_scanf_f.
    rewrite <- (skip_blank_next (stdin k)), <- (skip_blank_rejected (stdin k)).
    pose proof (length_skip_blank (stdin k)) as Hlen.
    destruct (skip_blank (stdin k)) as [|l rest] eqn:Hin;
      cbn [head mbind option_bind next_number rejected].
    + rewrite bind_printf, bind_clear_input_buffer.
      rewrite IH by (cbn; lia). reflexivity.
    + pose proof (skip_blank_head _ _ _ Hin) as Hl.
      destruct (scan_float l) as [v|] eqn:Hscan.
      * rewrite bind_clear_input_buffer. cbn [replicate].
        unfold ret, with_stdin, says. cbn. now rewrite app_nil_r.
      * rewrite bind_printf, bind_clear_input_buffer.
        rewrite IH by (cbn in *; lia). cbn [stdin with_stdin says tail].
        rewrite Hl. destruct (next_number rest) as [[v rest']|]; [|reflexivity].
        cbn [Nat.add replicate]. unfold with_stdin, says. cbn.
        now rewrite <- app_assoc.
Qed.

(** [get_float_input] in closed form. *)
Lemma get_float_input_eq prompt k :
  get_float_input prompt k
  = match next_number (stdin k) with
    | Some (v, rest) =>
        Some (v, with_stdin rest
                   (says (Printf "%s" [AStr prompt]
                          :: replicate (rejected (stdin k)) invalid_input) k))
    | None => None
    end.
Proof.
  unfold get_float_input. rewrite bind_printf.
  rewrite while_scanf_fails_eq by reflexivity. cbn [stdin says].
  destruct (next_number (stdin k)) as [[v rest]|]; [|reflexivity].
  unfold with_stdin, says. cbn. now rewrite <- app_assoc.
Qed.

Lemma get_float_input_Some prompt k v k' :
  get_float_input prompt k = Some (v, k') ->
  exists rest,
    next_number (stdin k) = Some (v, rest) /\
    k' = with_stdin rest
           (says (Printf "%s" [AStr prompt]
                  :: replicate (rejected (stdin k)) invalid_input) k).
Proof.
  rewrite get_float_input_eq.
  destruct (next_number (stdin k)) as [[w rest]|]; [|discriminate].
  intros [= <- <-]. exists rest. split; reflexivity.
Qed.

Lemma get_float_input_scanned prompt k v k' :
  get_float_input prompt k = Some (v, k') ->
  exists l, l ∈ stdin k /\ scan_float l = Some v.
Proof.
  intros H. apply get_float_input_Some in H as (rest & H & _).
  destruct (next_number_Some _ _ _ H) as (j & l & Hl & Hv & _).
  exists l. split; [|exact Hv]. eapply list_elem_of_lookup_2, Hl.
Qed.

(** A number is read as soon as one of the waiting lines is one. *)
Lemma get_float_input_total prompt k :
  Exists (fun l => is_Some (scan_float l)) (stdin k) ->
  is_Some (get_float_input prompt k).
Proof.
  intros Hex. rewrite get_float_input_eq.
  destruct (next_number (stdin k)) as [[v rest]|] eqn:Hnext; [now eexists|].
  apply next_number_None in Hnext. apply Exists_exists in Hex as (l & Hl & Hv).
  rewrite Forall_forall in Hnext. rewrite (Hnext l Hl) in Hv.
  now destruct Hv.
Qed.

(** *** [get_string_input] *)

Lemma c_string_NUL b : NUL ∈ b <-> is_Some (c_string b).
Proof.
  induction b as [|c b IH]; cbn [c_string].
  - split; [intros H; inversion H|intros [? [=]]].
  - destruct (Ascii.eqb_spec c NUL) as [->|Hc].
    + split; [now eexists|left].
    + rewrite elem_of_cons, IH. split.
      * intros [?|[x ->]]; [congruence|]. now eexists.
      * intros [x Hx]. right.
        destruct (c_string b); [now eexists|discriminate].
Qed.

Lemma cut_at_newline_Some b d :
  cut_at_newline b = Some d -> is_Some (c_string d) /\ length d = length b.
Proof.
  revert d. induction b as [|c b IH]; intros d; cbn [cut_at_newline];
    [discriminate|].
  destruct (Ascii.eqb c NUL || Ascii.eqb c newline) eqn:Hc.
  - intros [= <-]. split; [now eexists|reflexivity].
  - destruct (cut_at_newline b) as [d'|]; [|discriminate].
    intros [= <-]. destruct (IH d' eq_refl) as [[x Hx] Hlen].
    apply orb_false_iff in Hc as [Hc _].
    cbn [c_string length]. rewrite Hc, Hx. split; [now eexists|now rewrite Hlen].
Qed.

Lemma cut_at_newline_total b : is_Some (c_string b) -> is_Some (cut_at_newline b).
Proof.
  induction b as [|c b IH]; cbn [c_string cut_at_newline];
    [intros [? [=]]|].
  destruct (Ascii.eqb c NUL); cbn [orb]; [now eexists|].
  destruct (Ascii.eqb c newline); [now eexists|].
  intros [x Hx]. destruct (c_string b) as [y|]; [|discriminate].
  destruct IH as [d ->]; now eexists.
Qed.

Lemma length_bytes s : length (list_ascii_of_string s) = String.length s.
Proof. induction s as [|c s IH]; cbn; [reflexivity|now rewrite IH]. Qed.

Lemma length_substring_0 s : forall n,
  (n <= String.length s)%nat -> String.length (substring 0 n s) = n.
Proof.
  induction s as [|c s IH]; intros [|n] Hn; cbn in *;
    try reflexivity; try lia.
  now rewrite IH by lia.
Qed.

Lemma write_fits b bytes :
  (length bytes <= length b)%nat ->
  write b bytes = Some (bytes ++ drop (length bytes) b).
Proof.
  intros H. unfold write.
  now destruct (Nat.leb_spec (length bytes) (length b)); [|lia].
Qed.

Lemma write_Some b bytes d :
  write b bytes = Some d ->
  d = bytes ++ drop (length bytes) b /\ length d = length b.
Proof.
  unfold write. destruct (Nat.leb_spec (length bytes) (length b)); [|discriminate].
  intros [= <-]. split; [reflexivity|].
  rewrite length_app, length_drop. lia.
Qed.

Lemma fgets_Some b m k d k' :
  fgets b m k = Some (d, k') ->
  exists lines,
    k' = with_stdin lines k /\ length d = length b /\
    if decide (stdin k = [] /\ m <> 1) then d = b else is_Some (c_string d).
Proof.
  unfold fgets. destruct (m <? 1); [discriminate|].
  destruct (stdin k) as [|l rest] eqn:Hin.
  - assert (Hk : k = with_stdin [] k)
      by (unfold with_stdin; destruct k; cbn in *; now rewrite Hin).
    destruct (Z.eqb_spec m 1) as [->|Hm].
    + destruct (write b [NUL]) as [d'|] eqn:Hw; [|discriminate].
      cbn [mbind option_bind]. intros [= <- <-].
      apply write_Some in Hw as [-> Hlen].
      exists []. split; [exact Hk|]. split; [exact Hlen|].
      destruct (decide _) as [[_ ?]|_]; [congruence|]. now eexists.
    + intros [= <- <-]. exists []. split; [exact Hk|].
      split; [reflexivity|]. destruct (decide _) as [_|Hno]; [reflexivity|].
      destruct Hno. now split.
  - destruct (decide _) as [[[=] _]|_].
    destruct (_ <? _)%nat;
      match goal with
      | |- context [write b ?bytes] =>
          destruct (write b bytes) as [d'|] eqn:Hw; [|discriminate]
      end;
      cbn [mbind option_bind]; intros [= <- <-];
      apply write_Some in Hw as [-> Hlen];
      (eexists; split; [reflexivity|]; split; [exact Hlen|]);
      apply c_string_NUL; rewrite !elem_of_app;
      left; right; repeat constructor.
Qed.

Lemma get_string_input_Some b m p k d k' :
  get_string_input b m p k = Some (d, k') ->
  (exists lines, k' = with_stdin lines (says [Printf "%s" [AStr p]] k)) /\
  is_Some (c_string d) /\ length d = length b.
Proof.
  unfold get_string_input. rewrite bind_printf. intros H.
  apply bind_Some in H as (d0 & k1 & H0 & H).
  apply defined_Some in H as [H ->].
  apply fgets_Some in H0 as (lines & -> & Hlen & _).
  apply cut_at_newline_Some in H as [Hd Hlen'].
  split; [now exists lines|]. split; [exact Hd|congruence].
Qed.

Lemma get_string_input_returns b m p k :
  1 <= m <= Z.of_nat (length b) ->
  (stdin k = [] -> is_Some (cut_at_newline b)) ->
  is_Some (get_string_input b m p k).
Proof.
  intros Hm Hb. unfold get_string_input. rewrite bind_printf.
  assert (Hfgets : is_Some (fgets b m (says [Printf "%s" [AStr p]] k))).
  { unfold fgets. destruct (Z.ltb_spec m 1); [lia|]. cbn [stdin says].
    destruct (stdin k) as [|l rest].
    { destruct (m =? 1); [|now eexists].
      rewrite write_fits by (cbn [length]; lia). now eexists. }
    destruct (Nat.ltb_spec (String.length l) (Z.to_nat (m - 1))) as [Hs|Hs];
      rewrite write_fits; try (now eexists);
      rewrite length_app, length_bytes; cbn [length]; [lia|].
    rewrite length_substring_0 by lia. lia. }
  destruct Hfgets as [[d0 k1] H0]. rewrite (bind_eq _ _ _ _ _ H0).
  apply fgets_Some in H0 as (lines & _ & _ & Hd0).
  cbn [stdin says] in Hd0.
  destruct (decide (stdin k = [] /\ m <> 1)) as [[Hin _]|_].
  - subst d0. destruct (Hb Hin) as [d ->]. now eexists.
  - destruct (cut_at_newline_total d0 Hd0) as [d ->]. now eexists.
Qed.

(** At end of input the buffer is searched as it was found. *)
Lemma get_string_input_ends b m p k d k' :
  get_string_input b m p k = Some (d, k') ->
  m <> 1 -> stdin k = [] -> is_Some (cut_at_newline b).
Proof.
  unfold get_string_input. rewrite bind_printf. intros H Hm Hin.
  apply bind_Some in H as (d0 & k1 & H0 & H).
  apply defined_Some in H as [H _].
  apply fgets_Some in H0 as (_ & _ & _ & Hd0). cbn [stdin says] in Hd0.
  destruct (decide (stdin k = [] /\ m <> 1)) as [_|Hno];
    [exists d; congruence|destruct Hno; now split].
Qed.

End Helpers.

(** ** The recording operations *)

Section Recording.

Context {scanner : Scanf}.

Lemma print_categories_Some n : forall i t k u k',
  print_categories n i t k = Some (u, k') ->
  exists out, k' = says out k /\ existsb is_budget_warning out = false.
Proof.
  induction n as [|n IH]; intros i t k u k' H.
  - injection H as <- <-. exists []. now rewrite says_nil.
  - cbn [print_categories] in H.
    apply bind_Some in H as (c & k1 & Hc & H).
    apply defined_Some in Hc as [_ ->].
    rewrite bind_printf in H.
    apply IH in H as (out & -> & Hout).
    eexists. rewrite says_says. split; [reflexivity|]. exact Hout.
Qed.

Lemma print_categories_total n : forall i t k,
  0 <= i -> i + Z.of_nat n <= Z.of_nat (length (categories t)) ->
  is_Some (print_categories n i t k).
Proof.
  induction n as [|n IH]; intros i t k Hi Hn.
  - now eexists.
  - cbn [print_categories].
    destruct (at_index_in_range (categories t) i) as [c Hc]; [lia|].
    rewrite Hc. cbn [defined]. rewrite bind_ret, bind_printf.
    apply IH; lia.
Qed.

Lemma existsb_replicate_invalid j :
  existsb is_budget_warning (replicate j invalid_input) = false.
Proof. induction j; [reflexivity|exact IHj]. Qed.

Lemma budgetExceeded_app k k' out :
  stdout k' = stdout k ++ out ->
  budgetExceeded k k' = existsb is_budget_warning out.
Proof.
  intros H. unfold budgetExceeded, printed. rewrite H.
  now rewrite drop_app_length.
Qed.

Lemma add_income_outcome t k t' k' :
  add_income t k = Some (t', k') -> income_outcome t k t' k'.
Proof.
  unfold add_income. intros H.
  destruct (Z.leb_spec MAX_TRANSACTIONS (transaction_count t)) as [Hcap|Hcap].
  - rewrite bind_printf in H. injection H as <- <-.
    now apply income_refused.
  - apply bind_Some in H as (old & k0 & Hold & H).
    apply defined_Some in Hold as [Hold ->].
    apply at_index_Some in Hold as [Hlo Hold].
    apply bind_Some in H as (v & k1 & Hv & H).
    apply bind_Some in H as (d & k2 & Hd & H).
    apply get_string_input_Some in Hd as ((lines & ->) & Hheld & Hsize).
    rewrite bind_time in H.
    apply bind_Some in H as (txs & k3 & Htxs & H).
    apply defined_Some in Htxs as [Htxs ->].
    apply store_Some in Htxs as [Hrange ->].
    rewrite bind_printf in H. injection H as <- <-.
    apply (income_recorded _ _ _ _ v d (clock k1 (clock_reads k1)));
      [lia|lia|exists k1; exact Hv|reflexivity|].
    split; [exact Hheld|]. intros old' Hold'.
    rewrite Hold in Hold'. injection Hold' as <-. exact Hsize.
Qed.

Lemma add_expense_outcome t k t' k' :
  add_expense t k = Some (t', k') -> expense_outcome t k t' k'.
Proof.
  unfold add_expense. intros H.
  destruct (Z.leb_spec MAX_TRANSACTIONS (transaction_count t)) as [Hcap|Hcap].
  { rewrite bind_printf in H. injection H as <- <-.
    now apply expense_refused. }
  apply bind_Some in H as (old & k0 & Hold & H).
  apply defined_Some in Hold as [Hold ->].
  apply at_index_Some in Hold as [Hlo Hold].
  apply bind_Some in H as (v & k1 & Hv & H).
  apply bind_Some in H as (txs & k2 & Htxs & H).
  apply defined_Some in Htxs as [Htxs ->].
  apply store_Some in Htxs as [Hrange ->].
  rewrite bind_printf in H.
  apply bind_Some in H as (u & k3 & Hlist & H).
  apply print_categories_Some in Hlist as (listing & -> & Hquiet).
  rewrite bind_scanf_d in H.
  apply bind_Some in H as (n & k4 & Hn & H).
  apply defined_Some in Hn as [Hn ->].
  assert (Hask : asks_expense k v n) by (exists k1; split; [exact Hv|exact Hn]).
  rewrite bind_clear_input_buffer in H.
  pose proof Hv as Hk1.
  apply get_float_input_Some in Hk1 as (rest & _ & Hk1).
  fields.
  destruct (Z.ltb_spec n 1) as [Hn1|Hn1];
    [|destruct (Z.ltb_spec (category_count t) n) as [Hn2|Hn2]];
    cbn [orb] in H.
  1,2: rewrite bind_printf in H; injection H as <- <-;
    apply (expense_rejected _ _ _ _ v n old);
    [lia|lia|exact Hask|lia|exact Hold|reflexivity|apply last_snoc|];
    (erewrite budgetExceeded_app;
     [|subst k1; fields; rewrite <- !app_assoc; reflexivity]);
    warnings; rewrite existsb_replicate_invalid, Hquiet; reflexivity.
  apply bind_Some in H as (c & k5 & Hc & H).
  apply defined_Some in Hc as [Hc ->].
  apply at_index_Some in Hc as [_ Hc].
  apply bind_Some in H as (cats & k5 & Hcats & H).
  apply defined_Some in Hcats as [Hcats ->].
  apply store_Some in Hcats as [Hcrange ->].
  fields.
  set (warn := F32.ltb F32.zero (budget_limit c)
               && F32.ltb (budget_limit c) (F32.add (current_spent c) v)) in *.
  apply bind_Some in H as (u' & k6 & Hwarn & H).
  assert (Hout : exists out,
             existsb is_budget_warning out = warn /\
             k6 = says out
                    (with_stdin (tail (skip_blank (stdin k1)))
                       (says listing
                          (says [Printf ("Select category:" ++ LF) []] k1)))).
  { destruct warn.
    - injection Hwarn as _ <-. eexists. split; [|reflexivity]. reflexivity.
    - injection Hwarn as _ <-. exists []. split; [reflexivity|].
      now rewrite says_nil. }
  clear Hwarn. destruct Hout as (out & Hout & ->).
  apply bind_Some in H as (d & k7 & Hd & H).
  apply get_string_input_Some in Hd as ((lines & ->) & Hheld & Hsize).
  rewrite bind_time in H.
  apply bind_Some in H as (txs & k8 & Htxs & H).
  apply defined_Some in Htxs as [Htxs ->].
  apply store_Some in Htxs as [_ ->].
  rewrite bind_printf in H. injection H as <- <-.
  rewrite list_insert_insert_eq.
  eapply (expense_recorded _ _ _ _ v n c d);
    [lia|lia|exact Hask|lia|lia|exact Hc|reflexivity| |].
  - erewrite budgetExceeded_app;
      [|subst k1; fields; rewrite <- !app_assoc; reflexivity].
    warnings. rewrite existsb_replicate_invalid, Hquiet, Hout.
    cbn. now rewrite !orb_false_r.
  - split; [exact Hheld|]. intros old' Hold'.
    rewrite Hold in Hold'. injection Hold' as <-. exact Hsize.
Qed.

(** Both operations return when the struct is sound and, below the
    transaction limit, the input holds what they ask for. *)
Lemma add_income_returns t k :
  storage_ok t -> counts_ok t ->
  (transaction_count t < MAX_TRANSACTIONS -> exists v, asks_income k v) ->
  income_described t k ->
  is_Some (add_income t k).
Proof.
  intros [Htx _ _ _ Hsize] [Hcount _ _] Hask Hends. unfold add_income.
  destruct (Z.leb_spec MAX_TRANSACTIONS (transaction_count t)) as [Hcap|Hcap].
  { now eexists. }
  destruct (Hask Hcap) as (v & k1 & Hv).
  destruct (at_index_in_range (transactions t) (transaction_count t))
    as [old Hold]; [lia|].
  rewrite Hold. cbn [defined]. rewrite bind_ret.
  rewrite (bind_eq _ _ _ _ _ Hv).
  apply at_index_Some in Hold as [_ Hold].
  pose proof (Forall_lookup_1 _ _ _ _ Hsize Hold) as Hsz.
  cbn beta in Hsz.
  destruct (get_string_input_returns (description (set_amount v old))
              MAX_DESC_LENGTH "Enter income description: " k1)
    as [[d k2] Hd]; [fields; rewrite Hsz; unfold MAX_DESC_LENGTH; lia
                    |intros Hin; exact (Hends v k1 Hv Hin old Hold)|].
  rewrite (bind_eq _ _ _ _ _ Hd), bind_time.
  rewrite store_in_range by lia. cbn [defined]. rewrite bind_ret.
  now eexists.
Qed.

Lemma add_expense_returns t k :
  storage_ok t -> counts_ok t ->
  (transaction_count t < MAX_TRANSACTIONS -> exists v n, asks_expense k v n) ->
  (forall v n, asks_expense k v n -> 1 <= n <= category_count t ->
               expense_described t k) ->
  is_Some (add_expense t k).
Proof.
  intros [Htx Hcat _ _ Hsize] [Hcount Hccount _] Hask Hends.
  unfold add_expense.
  destruct (Z.leb_spec MAX_TRANSACTIONS (transaction_count t)) as [Hcap|Hcap].
  { now eexists. }
  destruct (Hask Hcap) as (v & n & k1 & Hv & Hn).
  destruct (at_index_in_range (transactions t) (transaction_count t))
    as [old Hold]; [lia|].
  rewrite Hold. cbn [defined]. rewrite bind_ret.
  rewrite (bind_eq _ _ _ _ _ Hv).
  rewrite store_in_range by lia. cbn [defined]. rewrite bind_ret, bind_printf.
  fields.
  match goal with
  | |- is_Some (bind (print_categories ?m ?i ?b) _ ?k) =>
      destruct (print_categories_total m i b k) as [[u k3] Hlist];
      [lia|fields; lia|]
  end.
  rewrite (bind_eq _ _ _ _ _ Hlist).
  apply print_categories_Some in Hlist as (listing & -> & _).
  rewrite bind_scanf_d.
  replace (choice_read _) with (Some n) by (symmetry; exact Hn).
  cbn [defined]. rewrite bind_ret, bind_clear_input_buffer.
  fields.
  destruct (Z.ltb_spec n 1) as [Hn1|Hn1];
    [|destruct (Z.ltb_spec (category_count t) n) as [Hn2|Hn2]];
    cbn [orb]; try (rewrite bind_printf; now eexists).
  destruct (at_index_in_range (categories t) (n - 1)) as [c Hc]; [lia|].
  rewrite Hc. cbn [defined]. rewrite bind_ret.
  rewrite store_in_range by lia. cbn [defined]. rewrite bind_ret.
  fields.
  apply at_index_Some in Hold as [_ Hold].
  pose proof (Forall_lookup_1 _ _ _ _ Hsize Hold) as Hsz.
  cbn beta in Hsz.
  assert (Hready : description_ends t (tail (skip_blank (stdin k1)))).
  { apply (Hends v n) with (v := v);
      [exists k1; split; [exact Hv|exact Hn]|lia|exact Hv]. }
  assert (Hrest : forall k2,
    stdin k2 = tail (skip_blank (stdin k1)) ->
    is_Some
      ((d <- get_string_input (description old) MAX_DESC_LENGTH
               "Enter expense description: " ;;
        now <- time ;;
        txs <- defined
                 (store (<[Z.to_nat (transaction_count t) :=
                             set_amount v old]> (transactions t))
                        (transaction_count t)
                        (set_is_income 0
                           (set_timestamp now
                              (set_description d
                                 (set_category (name c)
                                    (set_amount v old)))))) ;;
        printf ("Expense added successfully!" ++ LF) [] ;;
        ret (set_transaction_count (transaction_count t + 1)
               (set_total_expenses (F32.add (total_expenses t) v)
                  (set_transactions txs
                     (set_categories
                        (<[Z.to_nat (n - 1) :=
                             set_current_spent
                               (F32.add (current_spent c) v) c]>
                           (categories t))
                        (set_transactions
                           (<[Z.to_nat (transaction_count t) :=
                                set_amount v old]> (transactions t))
                           t)))))) k2)).
  { intros k2 Hk2.
    destruct (get_string_input_returns (description old)
                MAX_DESC_LENGTH "Enter expense description: " k2)
      as [[d k3] Hd]; [rewrite Hsz; unfold MAX_DESC_LENGTH; lia
                      |rewrite Hk2; intros Hin; exact (Hready Hin old Hold)|].
    rewrite (bind_eq _ _ _ _ _ Hd), bind_time.
    rewrite store_in_range by (rewrite length_insert; lia).
    cbn [defined]. rewrite bind_ret. now eexists. }
  destruct (_ && _).
  - rewrite bind_printf. apply Hrest. reflexivity.
  - rewrite bind_ret. apply Hrest. reflexivity.
Qed.

(** Nothing weaker will do: a call that records found the end of the
    description. *)
Lemma add_income_described t k t' k' :
  add_income t k = Some (t', k') ->
  transaction_count t < MAX_TRANSACTIONS ->
  income_described t k.
Proof.
  unfold add_income. intros H Hroom v k1 Hv Hin old Hold.
  destruct (Z.leb_spec MAX_TRANSACTIONS (transaction_count t)); [lia|].
  apply bind_Some in H as (old' & k0 & Hold' & H).
  apply defined_Some in Hold' as [Hold' ->].
  apply at_index_Some in Hold' as [_ Hold'].
  rewrite Hold in Hold'. injection Hold' as <-.
  rewrite (bind_eq _ _ _ _ _ Hv) in H.
  apply bind_Some in H as (d & k2 & Hd & _).
  exact (get_string_input_ends _ _ _ _ _ _ Hd ltac:(discriminate) Hin).
Qed.

Lemma add_expense_described t k t' k' v n :
  add_expense t k = Some (t', k') ->
  transaction_count t < MAX_TRANSACTIONS ->
  asks_expense k v n -> 1 <= n <= category_count t ->
  expense_described t k.
Proof.
  unfold add_expense. intros H Hroom (k1 & Hv & Hn) Hrange v' k1' Hv' Hin old Hold.
  rewrite Hv in Hv'. injection Hv' as <- <-.
  destruct (Z.leb_spec MAX_TRANSACTIONS (transaction_count t)); [lia|].
  apply bind_Some in H as (old' & k0 & Hold' & H).
  apply defined_Some in Hold' as [Hold' ->].
  apply at_index_Some in Hold' as [_ Hold'].
  rewrite Hold in Hold'. injection Hold' as <-.
  rewrite (bind_eq _ _ _ _ _ Hv) in H.
  apply bind_Some in H as (txs & k2 & Htxs & H).
  apply defined_Some in Htxs as [_ ->].
  rewrite bind_printf in H.
  apply bind_Some in H as (u & k3 & Hlist & H).
  apply print_categories_Some in Hlist as (listing & -> & _).
  rewrite bind_scanf_d in H.
  replace (choice_read _) with (Some n) in H by (symmetry; exact Hn).
  cbn [defined] in H. rewrite bind_ret, bind_clear_input_buffer in H.
  fields.
  destruct (Z.ltb_spec n 1); [lia|].
  destruct (Z.ltb_spec (category_count t) n); [lia|]. cbn [orb] in H.
  apply bind_Some in H as (c & k5 & Hc & H).
  apply defined_Some in Hc as [_ ->].
  apply bind_Some in H as (cats & k6 & Hcats & H).
  apply defined_Some in Hcats as [_ ->].
  apply bind_Some in H as (u' & k7 & Hwarn & H).
  apply bind_Some in H as (d & k8 & Hd & _).
  apply (get_string_input_ends _ _ _ _ _ _ Hd); [discriminate|].
  destruct (_ && _); injection Hwarn as _ <-; exact Hin.
Qed.

End Recording.

(** ** Budget limits *)

Section Budget.

Context {scanner : Scanf}.

Lemma relimited_refl c : relimited c c.
Proof. unfold relimited. auto. Qed.

Lemma relimited_trans c1 c2 c3 :
  relimited c1 c2 -> relimited c2 c3 -> relimited c1 c3.
Proof.
  intros (Hn & Hs & Hl) (Hn' & Hs' & Hl'). repeat split; [congruence..|].
  destruct Hl' as [Hl'|Hl']; [|now right].
  destruct Hl as [Hl|(l & Hl)]; [left; congruence|].
  right. exists l. now rewrite Hl'.
Qed.

Lemma Forall2_relimited_refl cs : Forall2 relimited cs cs.
Proof. induction cs; constructor; auto using relimited_refl. Qed.

Lemma set_budget_from_Some n : forall i t k t' k',
  set_budget_from n i t k = Some (t', k') ->
  same_but_categories t t' /\
  Forall2 relimited (categories t) (categories t').
Proof.
  induction n as [|n IH]; intros i t k t' k' H.
  - injection H as <- <-. split; [now repeat split|].
    apply Forall2_relimited_refl.
  - cbn [set_budget_from] in H.
    apply bind_Some in H as (c & k0 & Hc & H).
    apply defined_Some in Hc as [Hc ->].
    apply at_index_Some in Hc as [_ Hc].
    rewrite bind_printf in H.
    apply bind_Some in H as (v & k1 & Hv & H).
    apply bind_Some in H as (cats & k2 & Hcats & H).
    apply defined_Some in Hcats as [Hcats ->].
    apply store_Some in Hcats as [_ ->].
    apply IH in H as [Hframe Hcats]. fields. split.
    + exact Hframe.
    + eapply Forall2_trans; [|
        |exact Hcats]; [intros ? ? ?; apply relimited_trans|].
      rewrite <- (list_insert_id _ _ _ Hc) at 1.
      apply Forall2_insert; [apply Forall2_relimited_refl|].
      apply get_float_input_scanned in Hv as (l & _ & Hscan).
      unfold relimited. fields. repeat split. right. now exists l.
Qed.

Lemma set_budget_Some t k t' k' :
  set_budget t k = Some (t', k') ->
  same_but_categories t t' /\
  Forall2 relimited (categories t) (categories t').
Proof.
  unfold set_budget. rewrite bind_printf. intros H.
  apply bind_Some in H as (t1 & k1 & H1 & H).
  rewrite bind_printf in H. injection H as <- <-.
  now apply set_budget_from_Some in H1.
Qed.






End Budget.

(** ** The notification log *)

Section Notifications.

Lemma shift_notifications_eq (n : nat) : forall (i : nat) ns,
  (i + n < length ns)%nat ->
  shift_notifications n (Z.of_nat i) ns
  = Some (take i ns ++ take n (drop (S i) ns) ++ drop (i + n) ns).
Proof.
  induction n as [|n IH]; intros i ns Hlen.
  - cbn [shift_notifications]. rewrite Nat.add_0_r, take_0.
    cbn [app]. now rewrite take_drop.
  - cbn [shift_notifications].
    destruct (lookup_lt_is_Some_2 ns (S i)) as [next Hnext]; [lia|].
    assert (Hread : at_index ns (Z.of_nat i + 1) = Some next).
    { apply at_index_Some. split; [lia|].
      now replace (Z.to_nat (Z.of_nat i + 1)) with (S i) by lia. }
    rewrite Hread. cbn [mbind option_bind].
    rewrite store_in_range by lia. cbn [mbind option_bind].
    replace (Z.of_nat i + 1) with (Z.of_nat (S i)) by lia.
    rewrite IH by (rewrite length_insert; lia).
    rewrite Nat2Z.id. f_equal.
    rewrite take_succ_insert by lia.
    rewrite !drop_insert_lt by lia.
    rewrite (drop_S ns next (S i) Hnext). cbn [take].
    rewrite <- app_assoc. cbn [app].
    now replace (S i + n)%nat with (i + S n)%nat by lia.
Qed.

Lemma length_message_image msg : length (message_image msg) = 99%nat.
Proof.
  unfold message_image. rewrite length_take, length_app, length_replicate. lia.
Qed.

Lemma length_pushed slot msg now :
  length (message slot) = 100%nat ->
  length (message (pushed slot msg now)) = 100%nat.
Proof.
  intros H. cbn. rewrite length_app, length_message_image, length_drop. lia.
Qed.

Lemma add_notification_frame t msg k t' k' :
  add_notification t msg k = Some (t', k') -> same_but_notifications t t'.
Proof.
  unfold add_notification. intros H.
  apply bind_Some in H as (t1 & k1 & H1 & H).
  assert (Hsame : same_but_notifications t t1).
  { destruct (MAX_NOTIFICATIONS <=? notification_count t).
    - apply bind_Some in H1 as (ns & k2 & _ & H1).
      injection H1 as <- <-. now repeat split.
    - injection H1 as <- <-. now repeat split. }
  apply bind_Some in H as (slot & k2 & _ & H).
  apply bind_Some in H as (m & k3 & _ & H).
  rewrite bind_time in H.
  apply bind_Some in H as (ns & k4 & _ & H).
  injection H as <- <-. exact Hsame.
Qed.

Lemma add_notification_pushes t msg k :
  storage_ok t ->
  0 <= notification_count t <= MAX_NOTIFICATIONS ->
  exists slot t',
    add_notification t msg k = Some (t', tick k) /\
    storage_ok t' /\
    notification_count t'
    = Z.min (notification_count t + 1) MAX_NOTIFICATIONS /\
    stored_notifications t'
    = (if MAX_NOTIFICATIONS <=? notification_count t
       then drop 1 (stored_notifications t)
       else stored_notifications t)
      ++ [pushed slot msg (clock k (clock_reads k))].
Proof.
  intros [Htx Hcat Hns Hmsg] Hcount. unfold add_notification.
  unfold MAX_NOTIFICATIONS in *.
  destruct (Z.leb_spec 50 (notification_count t)) as [Hfull|Hroom].
  - assert (Hfifty : notification_count t = 50) by lia.
    assert (Hlen : length (notifications t) = 50%nat) by lia.
    change (Z.to_nat (50 - 1)) with 49%nat.
    pose proof (shift_notifications_eq 49 0 (notifications t)) as Hshift.
    change (Z.of_nat 0) with 0 in Hshift. rewrite Hshift by lia.
    cbn [defined]. rewrite bind_assoc, bind_ret, bind_ret. fields.
    destruct (lookup_lt_is_Some_2 (notifications t) 49) as [slot Hslot];
      [lia|].
    assert (Hlast : drop 49 (notifications t) = [slot]).
    { rewrite (drop_S _ _ _ Hslot). now rewrite drop_ge by lia. }
    rewrite take_0. cbn [app Nat.add]. rewrite Hlast.
    rewrite (take_ge (drop 1 (notifications t))) by (rewrite length_drop; lia).
    assert (Hfront : length (drop 1 (notifications t)) = 49%nat)
      by (rewrite length_drop; lia).
    rewrite Hfifty. change (50 - 1) with 49.
    assert (Hread : at_index (drop 1 (notifications t) ++ [slot]) 49
                    = Some slot).
    { apply at_index_Some. split; [lia|]. change (Z.to_nat 49) with 49%nat.
      rewrite lookup_app_r by lia. now rewrite Hfront. }
    rewrite Hread. cbn [defined]. rewrite bind_ret.
    assert (Hbuf : length (message slot) = 100%nat).
    { eapply Forall_lookup_1 in Hmsg; [exact Hmsg|exact Hslot]. }
    unfold strncpy. rewrite Hbuf. cbn [Nat.leb defined]. rewrite bind_ret.
    rewrite bind_time.
    rewrite store_in_range by (rewrite length_app, Hfront; cbn; lia).
    cbn [defined]. rewrite bind_ret. fields.
    change (Z.to_nat 49) with 49%nat.
    replace (<[49%nat := _]> (drop 1 (notifications t) ++ [slot]))
      with (drop 1 (notifications t)
            ++ [pushed slot msg (clock k (clock_reads k))]).
    2:{ rewrite insert_app_r_alt by lia. now rewrite Hfront. }
    eexists slot, _. split; [reflexivity|]. fields.
    split; [|split].
    + split; fields; try assumption;
        [rewrite length_app, Hfront; reflexivity|].
      apply Forall_app. split; [now apply Forall_drop|].
      constructor; [|constructor]. now apply length_pushed.
    + reflexivity.
    + unfold stored_notifications. fields. rewrite Hfifty.
      change (Z.to_nat (49 + 1)) with 50%nat.
      change (Z.to_nat 50) with 50%nat.
      rewrite !take_ge by (rewrite ?length_app, ?Hfront; cbn; lia).
      reflexivity.
  - rewrite bind_ret. fields.
    destruct (at_index_in_range (notifications t) (notification_count t))
      as [slot Hslot]; [lia|].
    rewrite Hslot. cbn [defined]. rewrite bind_ret.
    apply at_index_Some in Hslot as [_ Hslot].
    assert (Hbuf : length (message slot) = 100%nat).
    { eapply Forall_lookup_1 in Hmsg; [exact Hmsg|exact Hslot]. }
    unfold strncpy. rewrite Hbuf. cbn [Nat.leb defined]. rewrite bind_ret.
    rewrite bind_time.
    rewrite store_in_range by lia.
    cbn [defined]. rewrite bind_ret. fields.
    eexists slot, _. split; [reflexivity|]. fields.
    split; [|split].
    + split; fields; try assumption;
        [rewrite length_insert; unfold MAX_NOTIFICATIONS; lia|].
      apply Forall_insert; [assumption|]. now apply length_pushed.
    + lia.
    + unfold stored_notifications. fields.
      replace (Z.to_nat (notification_count t + 1))
        with (S (Z.to_nat (notification_count t))) by lia.
      now rewrite take_succ_insert by lia.
Qed.

End Notifications.

(** ** Initialization *)

Section Initialization.

Lemma init_categories_eq names : forall (i : nat) t,
  (i + length names <= length (categories t))%nat ->
  init_categories names (Z.of_nat i) t
  = Some (set_category_count
            (category_count t + Z.of_nat (length names))
            (set_categories
               (take i (categories t) ++ map fresh_category names
                ++ drop (i + length names) (categories t)) t)).
Proof.
  induction names as [|nm names IH]; intros i t Hlen.
  - cbn [init_categories length map app]. f_equal.
    rewrite Nat.add_0_r, take_drop. destruct t. unfold set_categories,
      set_category_count. cbn. f_equal. lia.
  - cbn [init_categories length map].
    rewrite store_in_range by (cbn [length] in Hlen; lia).
    cbn [mbind option_bind].
    replace (Z.of_nat i + 1) with (Z.of_nat (S i)) by lia.
    rewrite IH by (fields; rewrite length_insert; cbn [length] in Hlen; lia).
    f_equal. fields. rewrite Nat2Z.id.
    unfold set_category_count, set_categories. fields. f_equal.
    + rewrite take_succ_insert by (cbn [length] in Hlen; lia).
      rewrite drop_insert_lt by lia. rewrite <- app_assoc. cbn [app].
      now replace (S i + length names)%nat with (i + S (length names))%nat
        by lia.
    + lia.
Qed.

Lemma init_tracker_eq memory :
  storage_ok memory ->
  exists slot rest,
    notifications memory = slot :: rest /\
    init_tracker memory
    = Some {| transactions := transactions memory;
              categories := map fresh_category default_categories
                            ++ drop 8 (categories memory);
              notifications :=
                set_message
                  (chars "Tracker initialized with default categories."
                   ++ NUL :: drop 45 (message slot)) slot :: rest;
              transaction_count := 0;
              category_count := 8;
              notification_count := 1;
              total_income := F32.zero;
              total_expenses := F32.zero |}.
Proof.
  intros [Htx Hcat Hns Hmsg]. unfold init_tracker.
  unfold MAX_CATEGORIES, MAX_NOTIFICATIONS in *.
  match goal with
  | |- context [init_categories ?names 0 ?b] =>
      pose proof (init_categories_eq names 0 b) as Hinit
  end.
  change (Z.of_nat 0) with 0 in Hinit.
  rewrite Hinit by (fields; cbn [length default_categories]; lia).
  clear Hinit.
  cbn [mbind option_bind]. fields. rewrite take_0. cbn [app Nat.add].
  destruct (notifications memory) as [|slot rest] eqn:Hslots;
    [cbn in Hns; lia|].
  exists slot, rest. split; [reflexivity|].
  assert (Hbuf : length (message slot) = 100%nat) by now inversion Hmsg.
  cbn [at_index Z.leb Z.compare].
  change ((slot :: rest) !! Z.to_nat 0) with (Some slot).
  cbn [mbind option_bind].
  unfold strcpy. rewrite Hbuf.
  change (length (chars "Tracker initialized with default categories."
                  ++ [NUL])) with 45%nat.
  cbn [Nat.leb mbind option_bind].
  rewrite store_in_range by (cbn [length]; lia).
  cbn [mbind option_bind].
  change (<[Z.to_nat 0 := ?x]> (slot :: rest)) with (x :: rest).
  unfold set_notifications. fields. rewrite <- app_assoc. reflexivity.
Qed.

Lemma init_tracker_fields memory :
  storage_ok memory ->
  exists t slot rest,
    init_tracker memory = Some t /\
    notifications memory = slot :: rest /\
    transactions t = transactions memory /\
    categories t = map fresh_category default_categories
                   ++ drop 8 (categories memory) /\
    notifications t
    = set_message (chars "Tracker initialized with default categories."
                   ++ NUL :: drop 45 (message slot)) slot :: rest /\
    transaction_count t = 0 /\
    category_count t = 8 /\
    notification_count t = 1 /\
    total_income t = F32.zero /\
    total_expenses t = F32.zero.
Proof.
  intros Hok. destruct (init_tracker_eq memory Hok) as (slot & rest & Hs & H).
  eexists _, slot, rest. split; [exact H|]. now repeat split.
Qed.

End Initialization.

(** ** binary32 addition keeps the sign of same-signed operands *)

Section Rounding.










End Rounding.

(** ** What a session maintains *)

Section Invariants.

Context {scanner : Scanf}.

Lemma float_sum_snoc xs v : float_sum (xs ++ [v]) = F32.add (float_sum xs) v.
Proof. unfold float_sum. now rewrite fold_left_app. Qed.

Lemma amounts_where_snoc p txs tx :
  amounts_where p (txs ++ [tx])
  = amounts_where p txs ++ (if p tx then [amount tx] else []).
Proof.
  unfold amounts_where. rewrite List.filter_app, map_app. cbn [List.filter].
  now destruct (p tx).
Qed.

Lemma take_push {A} (l : list A) (n : Z) x :
  0 <= n < Z.of_nat (length l) ->
  take (Z.to_nat (n + 1)) (<[Z.to_nat n := x]> l) = take (Z.to_nat n) l ++ [x].
Proof.
  intros Hn. replace (Z.to_nat (n + 1)) with (S (Z.to_nat n)) by lia.
  apply take_succ_insert. lia.
Qed.

Lemma lookup_map {A B} (f : A -> B) (l : list A) i :
  map f l !! i = f <$> l !! i.
Proof. exact (list_lookup_fmap f l i). Qed.

Lemma map_insert {A B} (f : A -> B) (l : list A) i x :
  map f (<[i := x]> l) = <[i := f x]> (map f l).
Proof. exact (list_fmap_insert f l i x). Qed.

(** Updating a stored category in place, its name kept. *)
Lemma stored_categories_insert t i c :
  (i < Z.to_nat (category_count t))%nat ->
  take (Z.to_nat (category_count t)) (<[i := c]> (categories t))
  = <[i := c]> (stored_categories t).
Proof. intros Hi. unfold stored_categories. now rewrite take_insert_lt. Qed.

Lemma stored_categories_lookup t i c :
  (i < Z.to_nat (category_count t))%nat ->
  categories t !! i = Some c -> stored_categories t !! i = Some c.
Proof.
  intros Hi Hc. unfold stored_categories. now rewrite lookup_take_lt.
Qed.

Lemma names_insert cs i c c' :
  cs !! i = Some c -> name c' = name c ->
  map name (<[i := c']> cs) = map name cs.
Proof.
  intros Hc Hname. rewrite map_insert, Hname.
  apply list_insert_id. now rewrite lookup_map, Hc.
Qed.

Lemma income_outcome_ledger t k t' k' :
  income_outcome t k t' k' -> ledger t -> ledger t'.
Proof.
  intros [Hcap -> _|v d now Hcount Hlen _ ->] L; [exact L|].
  destruct L as [Lc Ln Li Le Ls Lk].
  assert (Htxs : stored_transactions
                   {| transactions :=
                        <[Z.to_nat (transaction_count t) :=
                            recorded_income v d now]> (transactions t);
                      categories := categories t;
                      notifications := notifications t;
                      transaction_count := transaction_count t + 1;
                      category_count := category_count t;
                      notification_count := notification_count t;
                      total_income := F32.add (total_income t) v;
                      total_expenses := total_expenses t |}
                 = stored_transactions t ++ [recorded_income v d now]).
  { unfold stored_transactions. fields. apply take_push. lia. }
  split; unfold income_amounts, expense_amounts, expense_amounts_of,
    stored_categories in *; rewrite ?Htxs; fields.
  - exact Lc.
  - exact Ln.
  - rewrite amounts_where_snoc. cbn. now rewrite float_sum_snoc, Li.
  - rewrite amounts_where_snoc. cbn. now rewrite app_nil_r.
  - eapply Forall_impl; [exact Ls|]. intros c Hc. cbn beta in *.
    rewrite amounts_where_snoc. cbn. now rewrite app_nil_r.
  - apply Forall_app. split; [exact Lk|].
    constructor; [|constructor]. discriminate.
Qed.

Lemma expense_of_other c c2 v d now :
  name c2 <> name c ->
  expense_of (name c2) (recorded_expense v c d now) = false.
Proof.
  intros Hne. unfold expense_of. cbn.
  destruct (String.eqb_spec (name c) (name c2)); congruence.
Qed.

Lemma expense_of_same c v d now :
  expense_of (name c) (recorded_expense v c d now) = true.
Proof. unfold expense_of. cbn. apply String.eqb_refl. Qed.

Lemma expense_outcome_ledger t k t' k' :
  expense_outcome t k t' k' -> ledger t -> ledger t'.
Proof.
  intros [Hcap -> _
         |v n old Hcount Hlen _ _ _ -> _ _
         |v n c d now Hcount Hlen _ Hn Hclen Hc -> _] L;
    [exact L| |].
  - (* the amount is written past the stored transactions *)
    destruct L as [Lc Ln Li Le Ls Lk].
    assert (Htxs : stored_transactions
                     (set_transactions
                        (<[Z.to_nat (transaction_count t) :=
                             set_amount v old]> (transactions t)) t)
                   = stored_transactions t).
    { unfold stored_transactions. fields. now rewrite take_insert_ge. }
    split; unfold income_amounts, expense_amounts, expense_amounts_of,
      stored_categories in *; rewrite ?Htxs; fields; assumption.
  - destruct L as [Lc Ln Li Le Ls Lk].
    set (i := Z.to_nat (n - 1)) in *.
    set (c' := set_current_spent (F32.add (current_spent c) v) c) in *.
    set (tx := recorded_expense v c d now) in *.
    assert (Hi : (i < Z.to_nat (category_count t))%nat) by lia.
    assert (Hstored : stored_categories t !! i = Some c)
      by now apply stored_categories_lookup.
    set (t' := {| transactions := _ |}).
    assert (Htxs : stored_transactions t' = stored_transactions t ++ [tx]).
    { unfold stored_transactions, t'. fields. apply take_push. lia. }
    assert (Hcats : stored_categories t' = <[i := c']> (stored_categories t)).
    { unfold stored_categories at 1, t'. fields.
      now apply stored_categories_insert. }
    assert (Hnames : map name (stored_categories t')
                     = map name (stored_categories t)).
    { rewrite Hcats. now apply (names_insert _ _ c). }
    split; unfold income_amounts, expense_amounts, expense_amounts_of;
      rewrite ?Htxs, ?Hnames.
    + unfold t'. fields. rewrite length_insert. exact Lc.
    + exact Ln.
    + rewrite amounts_where_snoc. cbn. rewrite app_nil_r. exact Li.
    + rewrite amounts_where_snoc. cbn. now rewrite float_sum_snoc, Le.
    + rewrite Hcats. apply Forall_lookup_2. intros j c2 Hj.
      rewrite amounts_where_snoc.
      destruct (decide (j = i)) as [->|Hne].
      * rewrite list_lookup_insert_eq in Hj
          by (apply lookup_lt_is_Some; eauto).
        injection Hj as <-. subst c' tx. fields.
        rewrite expense_of_same, float_sum_snoc. f_equal.
        exact (Forall_lookup_1 _ _ _ _ Ls Hstored).
      * rewrite list_lookup_insert_ne in Hj by congruence.
        subst tx. rewrite expense_of_other, app_nil_r.
        { exact (Forall_lookup_1 _ _ _ _ Ls Hj). }
        intros Heq. apply Hne.
        apply (NoDup_lookup _ _ _ (name c) Ln);
          rewrite lookup_map; [rewrite Hj|rewrite Hstored]; cbn; congruence.
    + apply Forall_app. split; [exact Lk|].
      constructor; [|constructor]. intros _. subst tx. cbn.
      apply list_elem_of_lookup. exists i. now rewrite lookup_map, Hstored.
Qed.

Lemma Forall2_relimited_names cs cs' :
  Forall2 relimited cs cs' -> map name cs' = map name cs.
Proof.
  induction 1 as [|c c' cs cs' (Hn & _) _ IH]; [reflexivity|].
  cbn. now rewrite Hn, IH.
Qed.

Lemma Forall2_transfer {A B} (R : A -> B -> Prop) (P : A -> Prop)
    (Q : B -> Prop) l l' :
  Forall2 R l l' -> (forall x y, R x y -> P x -> Q y) ->
  Forall P l -> Forall Q l'.
Proof.
  intros HR Himp. induction HR as [|x y l l' Hxy _ IH]; intros HP;
    [constructor|].
  inversion HP; subst. constructor; eauto.
Qed.

Lemma budget_ledger t t' :
  same_but_categories t t' ->
  Forall2 relimited (categories t) (categories t') ->
  ledger t -> ledger t'.
Proof.
  intros (Htx & _ & Htc & Hcc & _ & Hti & Hte) Hcats [Lc Ln Li Le Ls Lk].
  assert (Hstored : Forall2 relimited (stored_categories t)
                            (stored_categories t')).
  { unfold stored_categories. rewrite Hcc. now apply Forall2_take. }
  assert (Htxs : stored_transactions t' = stored_transactions t).
  { unfold stored_transactions. now rewrite Htx, Htc. }
  pose proof (Forall2_relimited_names _ _ Hstored) as Hnames.
  split; unfold income_amounts, expense_amounts, expense_amounts_of;
    rewrite ?Htxs, ?Hnames, ?Hti, ?Hte; try assumption.
  - rewrite Hcc, <- (Forall2_length _ _ _ Hcats). exact Lc.
  - eapply Forall2_transfer; [exact Hstored| |exact Ls].
    intros c c' (Hn & Hs & _) Hc. cbn beta in *. now rewrite Hn, Hs.
Qed.

Lemma notify_ledger t t' :
  same_but_notifications t t' -> ledger t -> ledger t'.
Proof.
  intros (Htx & Hcats & Htc & Hcc & Hti & Hte) [Lc Ln Li Le Ls Lk].
  split; unfold income_amounts, expense_amounts, expense_amounts_of,
    stored_transactions, stored_categories in *;
    rewrite ?Htx, ?Hcats, ?Htc, ?Hcc, ?Hti, ?Hte; assumption.
Qed.

Lemma perform_ledger op t k t' k' :
  perform op t k = Some (t', k') -> ledger t -> ledger t'.
Proof.
  destruct op as [| | |msg]; cbn [perform]; intros H.
  - eapply income_outcome_ledger, add_income_outcome, H.
  - eapply expense_outcome_ledger, add_expense_outcome, H.
  - apply set_budget_Some in H as [Hsame Hcats]. now apply budget_ledger.
  - apply add_notification_frame in H. now apply notify_ledger.
Qed.

Lemma perform_all_ledger ops : forall t k t' k',
  perform_all ops t k = Some (t', k') -> ledger t -> ledger t'.
Proof.
  induction ops as [|op ops IH]; intros t k t' k' H L.
  - now injection H as <- <-.
  - cbn [perform_all] in H. apply bind_Some in H as (t1 & k1 & H1 & H).
    eapply IH; [exact H|]. eapply perform_ledger; eassumption.
Qed.

Lemma NoDup_default_categories : NoDup default_categories.
Proof. apply (bool_decide_unpack _). vm_compute. exact I. Qed.

Lemma init_tracker_ledger memory t :
  storage_ok memory -> init_tracker memory = Some t ->
  ledger t /\ storage_ok t /\ counts_ok t /\
  stored_categories t = map fresh_category default_categories /\
  stored_transactions t = [].
Proof.
  intros Hok Hinit.
  destruct (init_tracker_fields memory Hok)
    as (t0 & slot & rest & Heq & Hslots & Htxs & Hcats & Hnots
        & Htc & Hcc & Hnc & Hti & Hte).
  rewrite Heq in Hinit. injection Hinit as <-.
  destruct Hok as [Htx Hcat Hns Hmsg Hsize].
  unfold MAX_CATEGORIES, MAX_NOTIFICATIONS in *.
  assert (Hstored : stored_categories t0
                    = map fresh_category default_categories).
  { unfold stored_categories. rewrite Hcats, Hcc. reflexivity. }
  assert (Hnone : stored_transactions t0 = []).
  { unfold stored_transactions. now rewrite Htc. }
  assert (Hlen : Z.of_nat (length (categories t0)) = 50).
  { rewrite Hcats, length_app, length_drop.
    cbn [length map default_categories]. lia. }
  split; [|split; [|split; [|split]]].
  - split; unfold income_amounts, expense_amounts, expense_amounts_of;
      rewrite ?Hstored, ?Hnone, ?Hti, ?Hte.
    + lia.
    + exact NoDup_default_categories.
    + reflexivity.
    + reflexivity.
    + repeat constructor.
    + constructor.
  - split.
    + now rewrite Htxs.
    + exact Hlen.
    + rewrite Hnots. rewrite Hslots in Hns. exact Hns.
    + rewrite Hnots. rewrite Hslots in Hmsg.
      inversion Hmsg as [|? ? Hslot Hrest]; subst.
      constructor; [|exact Hrest]. fields.
      rewrite length_app. cbn [length]. rewrite length_drop, Hslot.
      reflexivity.
    + now rewrite Htxs.
  - split; rewrite ?Htc, ?Hcc, ?Hnc; unfold MAX_TRANSACTIONS, MAX_CATEGORIES,
      MAX_NOTIFICATIONS; lia.
  - exact Hstored.
  - exact Hnone.
Qed.



End Invariants.

(** ** Sums without rounding *)

Section Exact.

Lemma no_rounding_value xs : forall acc,
  no_rounding acc xs = true ->
  F32.value (fold_left F32.add xs acc)
  = Some (number acc + Zsum (map number xs)).
Proof.
  induction xs as [|x xs IH]; intros acc H; cbn [no_rounding] in H.
  - cbn. unfold number. destruct (F32.value acc) as [z|]; [|discriminate].
    cbn. f_equal. lia.
  - apply andb_true_iff in H as [Hexact H]. cbn [fold_left map Zsum].
    rewrite (IH _ H). f_equal.
    unfold F32.add_is_exact in Hexact. unfold number.
    destruct (F32.value acc), (F32.value x), (F32.value (F32.add acc x));
      try discriminate.
    apply Z.eqb_eq in Hexact. cbn. lia.
Qed.

Lemma number_value x z : F32.value x = Some z -> number x = z.
Proof. unfold number. now intros ->. Qed.

Lemma Zsum_map_ext {A} (f g : A -> Z) l :
  Forall (fun x => f x = g x) l -> Zsum (map f l) = Zsum (map g l).
Proof. induction 1 as [|x l Hx _ IH]; cbn; [reflexivity|]. now rewrite Hx, IH. Qed.

Lemma Zsum_map_add {A} (f g : A -> Z) l :
  Zsum (map (fun x => f x + g x) l) = Zsum (map f l) + Zsum (map g l).
Proof. induction l as [|x l IH]; cbn; [reflexivity|]. rewrite IH. lia. Qed.

Lemma Zsum_map_zero {A} (l : list A) : Zsum (map (fun _ => 0) l) = 0.
Proof. induction l as [|x l IH]; cbn; [reflexivity|exact IH]. Qed.

Lemma Zsum_app l1 l2 : Zsum (l1 ++ l2) = Zsum l1 + Zsum l2.
Proof. induction l1 as [|x l1 IH]; cbn; [reflexivity|]. rewrite IH. lia. Qed.

(** Among categories with distinct names exactly one bears a given name. *)
Lemma Zsum_pick nm z cs :
  NoDup (map name cs) -> nm ∈ map name cs ->
  Zsum (map (fun c => if String.eqb nm (name c) then z else 0) cs) = z.
Proof.
  induction cs as [|c cs IH]; cbn [map Zsum]; intros Hnd Hin.
  - inversion Hin.
  - apply NoDup_cons in Hnd as [Hnotin Hnd].
    destruct (String.eqb_spec nm (name c)) as [->|Hne].
    + rewrite (Zsum_map_ext _ (fun _ => 0)), Zsum_map_zero; [lia|].
      apply Forall_forall. intros c2 Hc2.
      destruct (String.eqb_spec (name c) (name c2)) as [Heq|]; [|reflexivity].
      exfalso. apply Hnotin. rewrite Heq.
      apply list_elem_of_fmap. now exists c2.
    + apply elem_of_cons in Hin as [?|Hin]; [contradiction|].
      rewrite IH by assumption. lia.
Qed.

(** Every expense counts towards exactly one category. *)
Lemma expenses_by_category txs cs :
  NoDup (map name cs) ->
  Forall (fun t => income t = false -> category t ∈ map name cs) txs ->
  Zsum (map (fun c =>
               Zsum (map number (amounts_where (expense_of (name c)) txs)))
            cs)
  = Zsum (map number (amounts_where (fun t => negb (income t)) txs)).
Proof.
  intros Hnd. induction 1 as [|tx txs Hknown _ IH].
  - cbn. apply Zsum_map_zero.
  - unfold amounts_where in *. cbn [List.filter].
    rewrite (Zsum_map_ext _
               (fun c => (if expense_of (name c) tx then number (amount tx)
                          else 0)
                         + Zsum (map number
                                   (map amount
                                      (List.filter (expense_of (name c))
                                                   txs))))).
    2:{ apply Forall_forall. intros c _.
        destruct (expense_of (name c) tx); cbn; lia. }
    rewrite Zsum_map_add, IH. unfold expense_of.
    destruct (income tx) eqn:Hincome; cbn [negb andb map Zsum].
    + rewrite Zsum_map_zero. lia.
    + rewrite Zsum_pick by auto. lia.
Qed.

End Exact.

(** ** Reachable trackers are sound *)

Section Soundness.

Context {scanner : Scanf}.

Lemma described_slot t d :
  storage_ok t -> 0 <= transaction_count t < Z.of_nat (length (transactions t)) ->
  described t d ->
  length d = 100%nat /\ is_Some (c_string d).
Proof.
  intros Hok Hcount [Hheld Hlen]. split; [|exact Hheld].
  destruct (lookup_lt_is_Some_2 (transactions t)
              (Z.to_nat (transaction_count t))) as [old Hold]; [lia|].
  rewrite (Hlen old Hold).
  exact (Forall_lookup_1 _ _ _ _ (description_size t Hok) Hold).
Qed.

Lemma perform_sound op t k t' k' :
  perform op t k = Some (t', k') ->
  storage_ok t /\ counts_ok t -> storage_ok t' /\ counts_ok t'.
Proof.
  intros H [Hok [Htc Hcc Hnc]]. pose proof Hok as [Htx Hcat Hns Hmsg Hsz].
  destruct op as [| | |msg]; cbn [perform] in H.
  - apply add_income_outcome in H
      as [_ -> _|v d now Hcount Hlen _ -> Hd]; [now split|].
    destruct (described_slot t d Hok) as [Hd1 Hd2]; [lia|exact Hd|].
    split; split; fields; rewrite ?length_insert; try assumption;
      try lia; (apply Forall_insert; [assumption|]); assumption.
  - apply add_expense_outcome in H
      as [_ -> _
         |v n old Hcount Hlen _ _ Hold -> _ _
         |v n c d now Hcount Hlen _ _ _ _ -> _ Hd];
      [now split| |].
    + split; split; fields; rewrite ?length_insert; try assumption;
        (apply Forall_insert; [assumption|]); fields.
      exact (Forall_lookup_1 _ _ _ _ Hsz Hold).
    + destruct (described_slot t d Hok) as [Hd1 Hd2]; [lia|exact Hd|].
      split; split; fields; rewrite ?length_insert; try assumption;
        try lia; (apply Forall_insert; [assumption|]); assumption.
  - apply set_budget_Some in H
      as [(Ht & Hn & Htc' & Hcc' & Hnc' & _) Hcats].
    split; split; rewrite ?Ht, ?Hn, ?Htc', ?Hcc', ?Hnc'; try assumption.
    now rewrite <- (Forall2_length _ _ _ Hcats).
  - destruct (add_notification_pushes t msg k) as (slot & t1 & H1 & Hok1 & Hc & _);
      [exact Hok|exact Hnc|].
    rewrite H in H1. injection H1 as <-.
    apply add_notification_frame in H as (_ & _ & Htc' & Hcc' & _).
    split; [exact Hok1|].
    split; rewrite ?Htc', ?Hcc', ?Hc; try assumption.
    unfold MAX_NOTIFICATIONS in *. lia.
Qed.

Lemma perform_all_sound ops : forall t k t' k',
  perform_all ops t k = Some (t', k') ->
  storage_ok t /\ counts_ok t -> storage_ok t' /\ counts_ok t'.
Proof.
  induction ops as [|op ops IH]; intros t k t' k' H Hok.
  - now injection H as <- <-.
  - cbn [perform_all] in H. apply bind_Some in H as (t1 & k1 & H1 & H).
    eapply IH; [exact H|]. eapply perform_sound; eassumption.
Qed.

End Soundness.

(** ** The concrete setting *)

Lemma storage_ok_stale_memory : storage_ok stale_memory.
Proof.
  split; [reflexivity..| |]; cbn [notifications transactions stale_memory];
    apply Forall_forall; intros n Hn; apply elem_of_replicate in Hn as [-> _];
    reflexivity.
Qed.

Lemma init_stale_memory : init_tracker stale_memory = Some fresh_tracker.
Proof.
  destruct (init_tracker_eq _ storage_ok_stale_memory) as (? & ? & _ & H).
  unfold fresh_tracker. now rewrite H.
Qed.

Lemma storage_ok_fresh_tracker : storage_ok fresh_tracker.
Proof.
  apply (init_tracker_ledger _ _ storage_ok_stale_memory init_stale_memory).
Qed.

Lemma counts_ok_fresh_tracker : counts_ok fresh_tracker.
Proof.
  apply (init_tracker_ledger _ _ storage_ok_stale_memory init_stale_memory).
Qed.

Lemma after_sound {scanner : Scanf} ops lines :
  storage_ok (after ops lines) /\ counts_ok (after ops lines).
Proof.
  unfold after.
  destruct (perform_all ops fresh_tracker (console lines))
    as [[t k]|] eqn:Hrun.
  - eapply perform_all_sound; [exact Hrun|].
    split; [exact storage_ok_fresh_tracker|exact counts_ok_fresh_tracker].
  - split; [exact storage_ok_fresh_tracker|exact counts_ok_fresh_tracker].
Qed.

(** * The claims *)

(** ** Initialization *)

(** C7. Whatever the memory held, [init_tracker] leaves exactly the eight
    default categories, in their order, each with limit 0 and spending 0;
    no transaction; one notification, whose text is "Tracker initialized
    with default categories."; and both totals at 0. *)
Theorem init_tracker_state (memory : BudgetTracker) :
  storage_ok memory ->
  exists t,
    init_tracker memory = Some t /\
    category_count t = 8 /\
    stored_categories t
    = [fresh_category "Salary"; fresh_category "Freelance";
       fresh_category "Investments"; fresh_category "Food";
       fresh_category "Transport"; fresh_category "Utilities";
       fresh_category "Rent"; fresh_category "Entertainment"] /\
    Forall (fun c => budget_limit c = F32.zero /\ current_spent c = F32.zero)
           (stored_categories t) /\
    transaction_count t = 0 /\
    stored_transactions t = [] /\
    notification_count t = 1 /\
    map message_text (stored_notifications t)
    = [Some "Tracker initialized with default categories."%string] /\
    total_income t = F32.zero /\
    total_expenses t = F32.zero.
Proof.
  intros Hok.
  destruct (init_tracker_fields memory Hok)
    as (t & slot & rest & Heq & Hslots & Htxs & Hcats & Hnots
        & Htc & Hcc & Hnc & Hti & Hte).
  exists t. split; [exact Heq|].
  assert (Hstored : stored_categories t
                    = map fresh_category default_categories).
  { unfold stored_categories. rewrite Hcats, Hcc. reflexivity. }
  repeat split; try assumption.
  - rewrite Hstored. repeat constructor.
  - unfold stored_transactions. now rewrite Htc.
  - unfold stored_notifications. rewrite Hnots, Hnc. reflexivity.
Qed.

Lemma init_tracker_state_witness :
  storage_ok stale_memory /\
  exists t,
    init_tracker stale_memory = Some t /\
    category_count t = 8 /\
    stored_categories t
    = [fresh_category "Salary"; fresh_category "Freelance";
       fresh_category "Investments"; fresh_category "Food";
       fresh_category "Transport"; fresh_category "Utilities";
       fresh_category "Rent"; fresh_category "Entertainment"] /\
    Forall (fun c => budget_limit c = F32.zero /\ current_spent c = F32.zero)
           (stored_categories t) /\
    transaction_count t = 0 /\
    stored_transactions t = [] /\
    notification_count t = 1 /\
    map message_text (stored_notifications t)
    = [Some "Tracker initialized with default categories."%string] /\
    total_income t = F32.zero /\
    total_expenses t = F32.zero.
Proof.
  split; [exact storage_ok_stale_memory|].
  apply (init_tracker_state stale_memory). exact storage_ok_stale_memory.
Defined.

(** ** Recording *)

Section Claims.

Context {scanner : Scanf}.

Lemma asks_expense_functional k v n v' n' :
  asks_expense k v n -> asks_expense k v' n' -> v' = v /\ n' = n.
Proof.
  intros (k1 & Hv & Hn) (k1' & Hv' & Hn').
  rewrite Hv in Hv'. injection Hv' as <- <-.
  rewrite Hn in Hn'. now injection Hn' as <-.
Qed.

(** C6. With 1000 transactions stored, [add_income] and [add_expense] both
    only print "Transaction limit reached!": the tracker is returned as it
    was, no line of input is consumed and the clock is not read. *)
Theorem transaction_limit_reached (t : BudgetTracker) (k : Console) :
  transaction_count t = MAX_TRANSACTIONS ->
  exists k',
    add_income t k = Some (t, k') /\
    add_expense t k = Some (t, k') /\
    stdout k' = stdout k ++ [capacity_exceeded] /\
    stdin k' = stdin k /\
    clock_reads k' = clock_reads k.
Proof.
  intros Hfull. exists (says [capacity_exceeded] k).
  unfold add_income, add_expense. rewrite Hfull.
  repeat split.
Qed.

(** C10. Below the transaction limit [add_income] returns, having appended
    one transaction (category "Income", [is_income] 1, the amount read)
    and added that amount to [total_income]; [total_expenses], the
    categories and the notification log are exactly as before.  The input
    holds the amount and, behind it, a line for the description (or, at end
    of input, the buffer of the free transaction already holds a line or a
    string): no call that records does without, [add_income_described]. *)
Theorem add_income_effect (t : BudgetTracker) (k : Console) (v : float32) :
  storage_ok t -> counts_ok t ->
  transaction_count t < MAX_TRANSACTIONS ->
  asks_income k v ->
  income_described t k ->
  exists t' k' tx,
    add_income t k = Some (t', k') /\
    stored_transactions t' = stored_transactions t ++ [tx] /\
    transaction_count t' = transaction_count t + 1 /\
    amount tx = v /\ category tx = "Income"%string /\ is_income tx = 1 /\
    total_income t' = F32.add (total_income t) v /\
    total_expenses t' = total_expenses t /\
    categories t' = categories t /\
    category_count t' = category_count t /\
    notifications t' = notifications t /\
    notification_count t' = notification_count t.
Proof.
  intros Hok Hcounts Hroom Hask Hends.
  destruct (add_income_returns t k Hok Hcounts) as [[t' k'] Hrun];
    [now exists v|exact Hends|].
  pose proof (add_income_outcome _ _ _ _ Hrun)
    as [Hcap _ _|v' d now Hcount Hlen (k1' & Hv') ->]; [lia|].
  destruct Hask as (k1 & Hv). rewrite Hv in Hv'. injection Hv' as <- <-.
  eexists _, k', (recorded_income v d now). split; [exact Hrun|].
  repeat split.
  unfold stored_transactions. fields. apply take_push. lia.
Qed.

(** C2. Below the transaction limit, with a category number in range,
    [add_expense] returns having appended one transaction that bears the
    selected category's name and [is_income] 0, added the amount to
    [total_expenses], and added the same amount to the selected category's
    [current_spent], every other category untouched.  The input holds the
    amount, the category number and, behind them, a line for the
    description (or, at end of input, the buffer of the free transaction
    already holds a line or a string): no call that records does without,
    [add_expense_described]. *)
Theorem add_expense_effect (t : BudgetTracker) (k : Console) (v : float32)
    (n : Z) (c : Category) :
  storage_ok t -> counts_ok t ->
  transaction_count t < MAX_TRANSACTIONS ->
  asks_expense k v n ->
  expense_described t k ->
  1 <= n <= category_count t ->
  categories t !! Z.to_nat (n - 1) = Some c ->
  exists t' k' tx,
    add_expense t k = Some (t', k') /\
    stored_transactions t' = stored_transactions t ++ [tx] /\
    transaction_count t' = transaction_count t + 1 /\
    amount tx = v /\ category tx = name c /\ is_income tx = 0 /\
    total_expenses t' = F32.add (total_expenses t) v /\
    categories t'
    = <[Z.to_nat (n - 1) :=
          {| name := name c; budget_limit := budget_limit c;
             current_spent := F32.add (current_spent c) v |}]>
        (categories t).
Proof.
  intros Hok Hcounts Hroom Hask Hends Hn Hc.
  destruct (add_expense_returns t k Hok Hcounts) as [[t' k'] Hrun];
    [now exists v, n|intros; exact Hends|].
  pose proof (add_expense_outcome _ _ _ _ Hrun)
    as [Hcap _ _
       |v' n' old _ _ Hask' Hn' _ _ _ _
       |v' n' c' d now Hcount Hlen Hask' _ _ Hc' -> _]; [lia| |];
    destruct (asks_expense_functional _ _ _ _ _ Hask Hask') as [-> ->];
    [lia|].
  rewrite Hc in Hc'. injection Hc' as <-.
  eexists _, k', (recorded_expense v c d now). split; [exact Hrun|].
  repeat split.
  unfold stored_transactions. fields. apply take_push. lia.
Qed.

(** C3. Below the transaction limit, a category number smaller than 1 or
    larger than the category count makes [add_expense] print "Invalid
    category. Expense not recorded." and return with the stored
    transactions and their count, both totals, every category and the
    notification log exactly as before. *)
Theorem add_expense_invalid_category (t : BudgetTracker) (k : Console)
    (v : float32) (n : Z) :
  storage_ok t -> counts_ok t ->
  transaction_count t < MAX_TRANSACTIONS ->
  asks_expense k v n ->
  n < 1 \/ category_count t < n ->
  exists t' k',
    add_expense t k = Some (t', k') /\
    last (stdout k') = Some invalid_category /\
    transaction_count t' = transaction_count t /\
    stored_transactions t' = stored_transactions t /\
    total_expenses t' = total_expenses t /\
    total_income t' = total_income t /\
    categories t' = categories t /\
    category_count t' = category_count t /\
    notifications t' = notifications t /\
    notification_count t' = notification_count t.
Proof.
  intros Hok Hcounts Hroom Hask Hn.
  destruct (add_expense_returns t k Hok Hcounts) as [[t' k'] Hrun];
    [now exists v, n
    |intros v' n' Hask' Hn';
     destruct (asks_expense_functional _ _ _ _ _ Hask Hask') as [-> ->]; lia|].
  pose proof (add_expense_outcome _ _ _ _ Hrun)
    as [Hcap _ _
       |v' n' old Hcount Hlen Hask' _ _ -> Hlast _
       |v' n' c' d now _ _ Hask' Hn' _ _ _ _]; [lia| |];
    destruct (asks_expense_functional _ _ _ _ _ Hask Hask') as [-> ->];
    [|lia].
  eexists _, k'. split; [exact Hrun|]. split; [exact Hlast|].
  repeat split.
  unfold stored_transactions. fields. now rewrite take_insert_ge.
Qed.

(** C9. However [add_expense] returns, warning printed or not, the
    notification array and its count are what they were before the call. *)
Theorem add_expense_keeps_notifications (t t' : BudgetTracker)
    (k k' : Console) :
  add_expense t k = Some (t', k') ->
  notifications t' = notifications t /\
  notification_count t' = notification_count t /\
  stored_notifications t' = stored_notifications t.
Proof.
  intros Hrun.
  assert (H : notifications t' = notifications t /\
              notification_count t' = notification_count t).
  { destruct (add_expense_outcome _ _ _ _ Hrun)
      as [_ -> _|v n old _ _ _ _ _ -> _ _|v n c d now _ _ _ _ _ _ -> _];
      now split. }
  destruct H as [Hns Hcount]. unfold stored_notifications.
  now rewrite Hns, Hcount.
Qed.

End Claims.

Lemma transaction_limit_reached_witness :
  transaction_count full_tracker = MAX_TRANSACTIONS /\
  exists k',
    add_income (scanner := glibc_scanner) full_tracker
               (console ["7"; "one more"]%string)
    = Some (full_tracker, k') /\
    add_expense (scanner := glibc_scanner) full_tracker
                (console ["7"; "one more"]%string)
    = Some (full_tracker, k') /\
    stdout k' = [capacity_exceeded] /\
    stdin k' = ["7"; "one more"]%string /\
    clock_reads k' = 0%nat.
Proof.
  assert (Hfull : transaction_count full_tracker = MAX_TRANSACTIONS)
    by (vm_compute; reflexivity).
  split; [exact Hfull|].
  exact (transaction_limit_reached (scanner := glibc_scanner) full_tracker
           (console ["7"; "one more"]%string) Hfull).
Defined.

Lemma add_income_effect_witness :
  exists t' k' tx,
    add_income (scanner := glibc_scanner) fresh_tracker
               (console ["50"; "bonus"]%string) = Some (t', k') /\
    stored_transactions t' = [tx] /\
    amount tx = F32.of_Z 50 /\
    category tx = "Income"%string /\ is_income tx = 1 /\
    total_income t' = F32.of_Z 50 /\
    total_expenses t' = F32.zero /\
    categories t' = categories fresh_tracker /\
    notifications t' = notifications fresh_tracker /\
    notification_count t' = 1.
Proof.
  destruct (add_income_effect (scanner := glibc_scanner) fresh_tracker
              (console ["50"; "bonus"]%string) (F32.of_Z 50)
              storage_ok_fresh_tracker counts_ok_fresh_tracker)
    as (t' & k' & tx & Hrun & Htxs & _ & Hv & Hc & Hi & Hti & Hte & Hcs
        & _ & Hns & Hnc).
  - vm_compute. reflexivity.
  - eexists. vm_compute. reflexivity.
  - line_left.
  - exists t', k', tx. rewrite Hti, Hte, Hnc. now repeat split.
Defined.

Lemma add_expense_effect_witness :
  exists t' k' tx,
    add_expense (scanner := glibc_scanner) fresh_tracker
                (console ["30"; "1"; "test"]%string) = Some (t', k') /\
    stored_transactions t' = [tx] /\
    amount tx = F32.of_Z 30 /\
    category tx = "Salary"%string /\ is_income tx = 0 /\
    total_expenses t' = F32.of_Z 30 /\
    stored_categories t'
    = [{| name := "Salary"; budget_limit := F32.zero;
          current_spent := F32.of_Z 30 |};
       fresh_category "Freelance"; fresh_category "Investments";
       fresh_category "Food"; fresh_category "Transport";
       fresh_category "Utilities"; fresh_category "Rent";
       fresh_category "Entertainment"].
Proof.
  destruct (add_expense_effect (scanner := glibc_scanner) fresh_tracker
              (console ["30"; "1"; "test"]%string) (F32.of_Z 30) 1
              (fresh_category "Salary")
              storage_ok_fresh_tracker counts_ok_fresh_tracker)
    as (t' & k' & tx & Hrun & Htxs & Hcount & Hv & Hc & Hi & Hte & Hcs).
  - vm_compute. reflexivity.
  - eexists. split; [vm_compute; reflexivity|]. vm_compute. reflexivity.
  - line_left.
  - vm_compute. split; discriminate.
  - vm_compute. reflexivity.
  - exists t', k', tx. rewrite Hte. repeat split; try assumption.
    pose proof (add_expense_outcome _ _ _ _ Hrun) as Hout.
    unfold stored_categories. rewrite Hcs.
    replace (category_count t') with 8; [vm_compute; reflexivity|].
    destruct Hout as [_ -> _|? ? ? _ _ _ _ _ -> _ _|? ? ? ? ? _ _ _ _ _ _ -> _];
      reflexivity.
Defined.

Lemma add_expense_invalid_category_witness :
  exists t' k',
    add_expense (scanner := glibc_scanner) fresh_tracker
                (console ["30"; "9"; "test"]%string) = Some (t', k') /\
    last (stdout k') = Some invalid_category /\
    transaction_count t' = 0 /\
    stored_transactions t' = [] /\
    total_expenses t' = F32.zero /\
    total_income t' = F32.zero /\
    categories t' = categories fresh_tracker /\
    notifications t' = notifications fresh_tracker.
Proof.
  destruct (add_expense_invalid_category (scanner := glibc_scanner)
              fresh_tracker (console ["30"; "9"; "test"]%string)
              (F32.of_Z 30) 9
              storage_ok_fresh_tracker counts_ok_fresh_tracker)
    as (t' & k' & Hrun & Hlast & Hcount & Htxs & Hte & Hti & Hcs & _
        & Hns & _).
  - vm_compute. reflexivity.
  - eexists. split; [vm_compute; reflexivity|]. vm_compute. reflexivity.
  - right. vm_compute. reflexivity.
  - exists t', k'. rewrite Hcount, Htxs, Hte, Hti. now repeat split.
Defined.

Lemma add_expense_keeps_notifications_witness :
  exists t' k',
    add_expense (scanner := glibc_scanner) food_at_ninety
                (console ["20"; "4"; "snack"]%string) = Some (t', k') /\
    budgetExceeded (console ["20"; "4"; "snack"]%string) k' = true /\
    notifications t' = notifications food_at_ninety /\
    notification_count t' = 1 /\
    map message_text (stored_notifications t')
    = [Some "Tracker initialized with default categories."%string].
Proof.
  assert (Hwarned :
            match add_expense (scanner := glibc_scanner) food_at_ninety
                    (console ["20"; "4"; "snack"]%string) with
            | Some (_, k') =>
                budgetExceeded (console ["20"; "4"; "snack"]%string) k'
            | None => false
            end = true) by (vm_compute; reflexivity).
  destruct (add_expense (scanner := glibc_scanner) food_at_ninety
              (console ["20"; "4"; "snack"]%string))
    as [[t' k']|] eqn:Hrun; [|discriminate].
  destruct (add_expense_keeps_notifications
              (scanner := glibc_scanner) _ _ _ _ Hrun)
    as (Hns & Hcount & Hstored).
  exists t', k'. rewrite Hns, Hcount, Hstored.
  repeat split; [exact Hwarned|..]; vm_compute; reflexivity.
Defined.

(** ** Budget warnings *)

(** C4 (as amended). A recorded expense reports an exceeded budget exactly
    when the selected category's limit is greater than 0 and its spending,
    the new amount included, is greater than the limit; the spending is
    raised by the amount either way.  The input is that of a recorded
    expense: the amount, the category number and a line for the
    description. *)
Theorem budget_exceeded_report {scanner : Scanf} (t : BudgetTracker)
    (k : Console) (v : float32) (n : Z) (c : Category) :
  storage_ok t -> counts_ok t ->
  transaction_count t < MAX_TRANSACTIONS ->
  asks_expense k v n ->
  expense_described t k ->
  1 <= n <= category_count t ->
  categories t !! Z.to_nat (n - 1) = Some c ->
  exists t' k' c',
    add_expense t k = Some (t', k') /\
    categories t' !! Z.to_nat (n - 1) = Some c' /\
    budget_limit c' = budget_limit c /\
    current_spent c' = F32.add (current_spent c) v /\
    (budgetExceeded k k' = true <->
     F32.ltb F32.zero (budget_limit c') = true /\
     F32.ltb (budget_limit c') (current_spent c') = true).
Proof.
  intros Hok Hcounts Hroom Hask Hends Hn Hc.
  destruct (add_expense_returns t k Hok Hcounts) as [[t' k'] Hrun];
    [now exists v, n|intros; exact Hends|].
  pose proof (add_expense_outcome _ _ _ _ Hrun)
    as [Hcap _ _
       |v' n' old _ _ Hask' Hn' _ _ _ _
       |v' n' c' d now Hcount Hlen Hask' _ Hclen Hc' -> Hwarn]; [lia| |];
    destruct (asks_expense_functional _ _ _ _ _ Hask Hask') as [-> ->];
    [lia|].
  rewrite Hc in Hc'. injection Hc' as <-.
  eexists _, k', _. split; [exact Hrun|]. fields.
  split; [apply list_lookup_insert_eq; lia|]. fields.
  split; [reflexivity|]. split; [reflexivity|].
  rewrite Hwarn. apply andb_true_iff.
Qed.

Lemma budget_exceeded_report_witness :
  exists t' k' c',
    add_expense (scanner := glibc_scanner) food_at_ninety
                (console ["20"; "4"; "snack"]%string) = Some (t', k') /\
    categories t' !! 3%nat = Some c' /\
    name c' = "Food"%string /\
    budget_limit c' = F32.of_Z 100 /\
    current_spent c' = F32.of_Z 110 /\
    budgetExceeded (console ["20"; "4"; "snack"]%string) k' = true.
Proof.
  destruct (budget_exceeded_report (scanner := glibc_scanner)
              food_at_ninety (console ["20"; "4"; "snack"]%string)
              (F32.of_Z 20) 4
              {| name := "Food"; budget_limit := F32.of_Z 100;
                 current_spent := F32.of_Z 90 |})
    as (t' & k' & c' & Hrun & Hc' & Hlimit & Hspent & Hwarn).
  - apply after_sound.
  - apply after_sound.
  - vm_compute. reflexivity.
  - eexists. split; [vm_compute; reflexivity|]. vm_compute. reflexivity.
  - line_left.
  - vm_compute. split; discriminate.
  - vm_compute. reflexivity.
  - assert (Hname :
              match add_expense (scanner := glibc_scanner) food_at_ninety
                      (console ["20"; "4"; "snack"]%string) with
              | Some (t', _) =>
                  match categories t' !! 3%nat with
                  | Some c' => name c' = "Food"%string
                  | None => False
                  end
              | None => False
              end) by (vm_compute; reflexivity).
    rewrite Hrun in Hname. change (Z.to_nat (4 - 1)) with 3%nat in Hc'.
    rewrite Hc' in Hname.
    exists t', k', c'. split; [exact Hrun|]. split; [exact Hc'|].
    split; [exact Hname|].
    split; [rewrite Hlimit; reflexivity|].
    split; [rewrite Hspent; vm_compute; reflexivity|].
    apply Hwarn. rewrite Hlimit, Hspent. split; vm_compute; reflexivity.
Defined.

(** C4 as stated fails for a negative limit, which [set_budget] accepts:
    the limit -1 is non-zero and the spending 5 is greater, yet no warning
    is printed. *)
Lemma budget_exceeded_nonzero_limit_counterexample :
  exists t' k' c',
    add_expense (scanner := glibc_scanner) negative_limits
                (console ["5"; "1"; "lunch"]%string) = Some (t', k') /\
    categories t' !! 0%nat = Some c' /\
    ~ (budgetExceeded (console ["5"; "1"; "lunch"]%string) k' = true <->
       F32.nonzero (budget_limit c') = true /\
       F32.ltb (budget_limit c') (current_spent c') = true).
Proof.
  assert (Hfacts :
            match add_expense (scanner := glibc_scanner) negative_limits
                    (console ["5"; "1"; "lunch"]%string) with
            | Some (t', k') =>
                match categories t' !! 0%nat with
                | Some c' =>
                    budgetExceeded (console ["5"; "1"; "lunch"]%string) k'
                    = false /\
                    F32.nonzero (budget_limit c') = true /\
                    F32.ltb (budget_limit c') (current_spent c') = true
                | None => False
                end
            | None => False
            end) by (vm_compute; auto).
  destruct (add_expense (scanner := glibc_scanner) negative_limits
              (console ["5"; "1"; "lunch"]%string))
    as [[t' k']|]; [|contradiction].
  destruct (categories t' !! 0%nat) as [c'|] eqn:Hc'; [|contradiction].
  destruct Hfacts as (Hquiet & Hnonzero & Hover).
  exists t', k', c'. split; [reflexivity|]. split; [exact Hc'|].
  intros [_ Hwarn]. rewrite Hwarn in Hquiet by auto. discriminate.
Qed.

(** ** Signs *)




(** ** Totals *)

(** C1 (as amended). In every state that a sequence of operations reaches
    from [init_tracker], [total_income] is the binary32 sum, accumulated in
    recording order, of the amounts of the stored incomes;
    [total_expenses] is that sum over the stored expenses; each category's
    [current_spent] is that sum over the expenses recorded against it; and
    when none of these accumulations of expenses rounds, the number
    [total_expenses] denotes is the sum of the numbers the categories'
    [current_spent] denote. *)
Theorem totals_are_sums {scanner : Scanf} (memory t0 t : BudgetTracker)
    (ops : list operation) (k k' : Console) :
  storage_ok memory ->
  init_tracker memory = Some t0 ->
  perform_all ops t0 k = Some (t, k') ->
  total_income t = float_sum (income_amounts t) /\
  total_expenses t = float_sum (expense_amounts t) /\
  Forall (fun c => current_spent c
                   = float_sum (expense_amounts_of (name c) t))
         (stored_categories t) /\
  (no_rounding F32.zero (expense_amounts t) = true ->
   Forall (fun c => no_rounding F32.zero (expense_amounts_of (name c) t)
                    = true)
          (stored_categories t) ->
   F32.value (total_expenses t)
   = Some (Zsum (map (fun c => number (current_spent c))
                     (stored_categories t)))).
Proof.
  intros Hok Hinit Hrun.
  destruct (init_tracker_ledger _ _ Hok Hinit) as (L0 & _).
  destruct (perform_all_ledger ops t0 k t k' Hrun L0)
    as [Lc Ln Li Le Ls Lk].
  split; [exact Li|]. split; [exact Le|]. split; [exact Ls|].
  intros Hall Heach.
  rewrite Le. unfold float_sum. rewrite (no_rounding_value _ _ Hall).
  f_equal. cbn [number F32.value F32.zero default]. rewrite Z.add_0_l.
  unfold expense_amounts.
  rewrite <- (expenses_by_category _ _ Ln Lk).
  apply Zsum_map_ext.
  apply Forall_forall. intros c Hc.
  pose proof (proj1 (Forall_forall _ _) Ls c Hc) as Hspent.
  pose proof (proj1 (Forall_forall _ _) Heach c Hc) as Hexact.
  cbn beta in Hspent, Hexact.
  rewrite Hspent. symmetry. apply number_value. unfold float_sum.
  rewrite (no_rounding_value _ _ Hexact). reflexivity.
Qed.

Lemma totals_are_sums_witness :
  exists t k',
    perform_all (scanner := glibc_scanner)
      [Income; Expense; Expense; Budget; Expense] fresh_tracker
      (console ["50"; "bonus"; "30"; "1"; "test"; "20"; "4"; "food";
                "100"; "100"; "100"; "100"; "100"; "100"; "100"; "100";
                "7"; "4"; "snack"]%string)
    = Some (t, k') /\
    total_income t = float_sum (income_amounts t) /\
    total_expenses t = float_sum (expense_amounts t) /\
    Forall (fun c => current_spent c
                     = float_sum (expense_amounts_of (name c) t))
           (stored_categories t) /\
    F32.value (total_expenses t)
    = Some (Zsum (map (fun c => number (current_spent c))
                      (stored_categories t))) /\
    total_income t = F32.of_Z 50 /\
    total_expenses t = F32.of_Z 57.
Proof.
  assert (Hfacts :
            match perform_all (scanner := glibc_scanner)
                    [Income; Expense; Expense; Budget; Expense] fresh_tracker
                    (console ["50"; "bonus"; "30"; "1"; "test"; "20"; "4";
                              "food"; "100"; "100"; "100"; "100"; "100";
                              "100"; "100"; "100"; "7"; "4"; "snack"]%string)
            with
            | Some (t, _) =>
                (total_income t = F32.of_Z 50 /\
                 total_expenses t = F32.of_Z 57) /\
                no_rounding F32.zero (expense_amounts t) = true /\
                forallb (fun c => no_rounding F32.zero
                                    (expense_amounts_of (name c) t))
                        (stored_categories t) = true
            | None => False
            end) by (vm_compute; auto).
  destruct (perform_all (scanner := glibc_scanner) _ _ _)
    as [[t k']|] eqn:Hrun; [|contradiction].
  destruct Hfacts as ((Hti & Hte) & Hall & Heach).
  assert (Heach' : Forall (fun c => no_rounding F32.zero
                                      (expense_amounts_of (name c) t) = true)
                          (stored_categories t)).
  { apply Forall_forall. intros c Hc.
    apply (proj1 (forallb_forall _ _) Heach). now apply list_elem_of_In. }
  destruct (totals_are_sums (scanner := glibc_scanner)
              stale_memory fresh_tracker t _ _ k'
              storage_ok_stale_memory init_stale_memory Hrun)
    as (Hi & He & Hs & Hexact).
  exists t, k'. split; [reflexivity|].
  repeat split; try assumption. exact (Hexact Hall Heach').
Defined.

(** C1 as stated fails in binary32: after the expenses 16777216 (Salary),
    1 and 1 (Freelance), [total_expenses] is still 16777216, both additions
    of 1 having been rounded away, while the categories hold 16777216 and 2. *)
Lemma totals_are_sums_counterexample :
  init_tracker stale_memory = Some fresh_tracker /\
  exists t k',
    perform_all (scanner := glibc_scanner)
      [Expense; Expense; Expense] fresh_tracker
      (console ["16777216"; "1"; "rent"; "1"; "2"; "stamp";
                "1"; "2"; "stamp"]%string)
    = Some (t, k') /\
    map amount (stored_transactions t)
    = [F32.of_Z 16777216; F32.of_Z 1; F32.of_Z 1] /\
    total_expenses t = F32.of_Z 16777216 /\
    float_sum (map current_spent (stored_categories t))
    = F32.of_Z 16777218 /\
    total_expenses t <> float_sum (map current_spent (stored_categories t)) /\
    F32.value (total_expenses t)
    <> Some (Zsum (map (fun c => number (current_spent c))
                       (stored_categories t))).
Proof.
  split; [exact init_stale_memory|].
  assert (Hfacts :
            match perform_all (scanner := glibc_scanner)
                    [Expense; Expense; Expense] fresh_tracker
                    (console ["16777216"; "1"; "rent"; "1"; "2"; "stamp";
                              "1"; "2"; "stamp"]%string) with
            | Some (t, _) =>
                map amount (stored_transactions t)
                = [F32.of_Z 16777216; F32.of_Z 1; F32.of_Z 1] /\
                total_expenses t = F32.of_Z 16777216 /\
                float_sum (map current_spent (stored_categories t))
                = F32.of_Z 16777218 /\
                total_expenses t
                <> float_sum (map current_spent (stored_categories t)) /\
                F32.value (total_expenses t)
                <> Some (Zsum (map (fun c => number (current_spent c))
                                   (stored_categories t)))
            | None => False
            end).
  { vm_compute. repeat split; discriminate. }
  destruct (perform_all (scanner := glibc_scanner) _ _ _)
    as [[t k']|]; [|contradiction].
  exists t, k'. split; [reflexivity|exact Hfacts].
Qed.

(** ** The notification ring *)

Section Ring.

Context {scanner : Scanf}.

Lemma keep_last_short {A} (l : list A) n :
  (length l <= n)%nat -> keep_last n l = l.
Proof.
  intros H. unfold keep_last.
  now replace (length l - n)%nat with 0%nat by lia.
Qed.

Lemma keep_last_drop {A} (l : list A) j n :
  (n + j <= length l)%nat -> keep_last n (drop j l) = keep_last n l.
Proof.
  intros H. unfold keep_last. rewrite drop_drop, length_drop. f_equal. lia.
Qed.

Lemma c_string_chars s rest :
  c_string (list_ascii_of_string (c_str s) ++ NUL :: rest) = Some (c_str s).
Proof.
  induction s as [|c s IH]; cbn [c_str].
  - reflexivity.
  - destruct (Ascii.eqb c NUL) eqn:Hc; [reflexivity|].
    cbn [list_ascii_of_string app c_string]. now rewrite Hc, IH.
Qed.

(** A message shorter than the 99 bytes copied is stored whole and
    terminated. *)
Lemma message_text_pushed slot msg now :
  (length (chars msg) < 99)%nat ->
  message_text (pushed slot msg now) = Some (c_str msg).
Proof.
  intros Hshort. unfold message_text, pushed, message_image. fields.
  rewrite take_app_ge by lia.
  destruct (99 - length (chars msg))%nat as [|pad] eqn:Hpad; [lia|].
  cbn [replicate take]. rewrite <- !app_assoc. cbn [app].
  unfold chars. apply c_string_chars.
Qed.

Lemma message_prefix_pushed slot msg now :
  message_prefix (pushed slot msg now) = message_image msg.
Proof.
  unfold message_prefix, pushed. fields.
  apply take_app_length'. now rewrite length_message_image.
Qed.

Lemma length_stored_notifications t :
  storage_ok t -> 0 <= notification_count t <= MAX_NOTIFICATIONS ->
  length (stored_notifications t) = Z.to_nat (notification_count t).
Proof.
  intros [_ _ Hns _] Hcount. unfold stored_notifications.
  rewrite length_take. lia.
Qed.

Lemma push_all msgs : forall t k,
  storage_ok t ->
  0 <= notification_count t <= MAX_NOTIFICATIONS ->
  exists t' k',
    perform_all (map Notify msgs) t k = Some (t', k') /\
    storage_ok t' /\
    notification_count t'
    = Z.min (notification_count t + Z.of_nat (length msgs))
            MAX_NOTIFICATIONS /\
    map message_prefix (stored_notifications t')
    = keep_last 50 (map message_prefix (stored_notifications t)
                    ++ map message_image msgs).
Proof.
  induction msgs as [|m msgs IH]; intros t k Hok Hcount.
  - exists t, k. split; [reflexivity|]. split; [exact Hok|].
    split; [cbn [length]; lia|].
    cbn [map]. rewrite app_nil_r. symmetry. apply keep_last_short.
    rewrite length_map, (length_stored_notifications t Hok Hcount).
    unfold MAX_NOTIFICATIONS in Hcount. lia.
  - destruct (add_notification_pushes t m k Hok Hcount)
      as (slot & t1 & H1 & Hok1 & Hc1 & Hst1).
    assert (Hcount1 : 0 <= notification_count t1 <= MAX_NOTIFICATIONS)
      by lia.
    destruct (IH t1 (tick k) Hok1 Hcount1)
      as (t' & k' & Hrun & Hok' & Hc' & Hst').
    exists t', k'. cbn [map perform_all perform].
    rewrite (bind_eq _ _ _ _ _ H1).
    split; [exact Hrun|]. split; [exact Hok'|].
    split; [cbn [length]; lia|].
    rewrite Hst', Hst1, map_app. cbn [map].
    rewrite message_prefix_pushed, <- app_assoc. cbn [app].
    pose proof (length_stored_notifications t Hok Hcount) as Hlen.
    unfold MAX_NOTIFICATIONS in *.
    destruct (Z.leb_spec 50 (notification_count t)) as [Hfull|Hroom];
      [|reflexivity].
    rewrite <- skipn_map.
    rewrite <- (drop_app_le _ _ 1) by (rewrite length_map; lia).
    apply keep_last_drop.
    rewrite length_app, length_map. cbn [length]. lia.
Qed.

(** C5. With 50 notifications stored, [add_notification] drops the oldest,
    keeps the other 49 in their order and appends the new one, unread, so
    that 50 remain.  Pushed onto a freshly initialized tracker, messages
    fill the log behind the initial notification; from the 50th push on the
    log holds exactly the last 50 messages pushed, the initial notification
    being the first entry dropped; after 51 pushes these are the 2nd to
    the 51st message. *)
Theorem add_notification_ring :
  (forall t msg k,
      storage_ok t ->
      notification_count t = MAX_NOTIFICATIONS ->
      exists t' n,
        add_notification t msg k = Some (t', tick k) /\
        notification_count t' = MAX_NOTIFICATIONS /\
        stored_notifications t' = drop 1 (stored_notifications t) ++ [n] /\
        is_read n = 0 /\
        notification_timestamp n = clock k (clock_reads k) /\
        message_prefix n = message_image msg /\
        ((length (chars msg) < 99)%nat ->
         message_text n = Some (c_str msg))) /\
  (forall memory t0 msgs k,
      storage_ok memory ->
      init_tracker memory = Some t0 ->
      exists n0 t k',
        stored_notifications t0 = [n0] /\
        message_text n0
        = Some "Tracker initialized with default categories."%string /\
        perform_all (map Notify msgs) t0 k = Some (t, k') /\
        notification_count t
        = Z.min (1 + Z.of_nat (length msgs)) MAX_NOTIFICATIONS /\
        map message_prefix (stored_notifications t)
        = keep_last 50 (message_prefix n0 :: map message_image msgs) /\
        ((50 <= length msgs)%nat ->
         map message_prefix (stored_notifications t)
         = keep_last 50 (map message_image msgs)) /\
        (length msgs = 51%nat ->
         notification_count t = 50 /\
         length (stored_notifications t) = 50%nat /\
         map message_prefix (stored_notifications t)
         = map message_image (drop 1 msgs))).
Proof.
  split.
  - intros t msg k Hok Hfull.
    destruct (add_notification_pushes t msg k Hok)
      as (slot & t' & Hrun & _ & Hcount & Hstored); [rewrite Hfull; easy|].
    exists t', (pushed slot msg (clock k (clock_reads k))).
    rewrite Hfull in Hcount, Hstored.
    split; [exact Hrun|]. split; [exact Hcount|]. split; [exact Hstored|].
    split; [reflexivity|]. split; [reflexivity|].
    split; [apply message_prefix_pushed|apply message_text_pushed].
  - intros memory t0 msgs k Hok Hinit.
    destruct (init_tracker_fields memory Hok)
      as (t1 & slot & rest & Heq & Hslots & _ & _ & Hnots
          & _ & _ & Hnc & _).
    rewrite Heq in Hinit. injection Hinit as <-.
    destruct (init_tracker_ledger _ _ Hok Heq) as (_ & Hok1 & [_ _ Hc1] & _).
    destruct (push_all msgs t1 k Hok1 Hc1)
      as (t & k' & Hrun & Hokt & Hcount & Hstored).
    assert (Hfirst : stored_notifications t1
                     = [set_message
                          (chars "Tracker initialized with default categories."
                           ++ NUL :: drop 45 (message slot)) slot]).
    { unfold stored_notifications. rewrite Hnots, Hnc. reflexivity. }
    rewrite Hfirst in Hstored. cbn [map app] in Hstored.
    rewrite Hnc in Hcount.
    eexists _, t, k'. split; [exact Hfirst|].
    split; [reflexivity|]. split; [exact Hrun|]. split; [exact Hcount|].
    split; [exact Hstored|].
    assert (Hgone : (50 <= length msgs)%nat ->
                    map message_prefix (stored_notifications t)
                    = keep_last 50 (map message_image msgs)).
    { intros Hmany. rewrite Hstored. symmetry.
      apply (keep_last_drop (_ :: map message_image msgs) 1 50).
      cbn [length]. rewrite length_map. lia. }
    split; [exact Hgone|].
    intros Hlen. unfold MAX_NOTIFICATIONS in *.
    split; [lia|]. split.
    + rewrite (length_stored_notifications t Hokt);
        unfold MAX_NOTIFICATIONS; lia.
    + rewrite Hgone by lia. unfold keep_last. rewrite length_map, Hlen.
      change (51 - 50)%nat with 1%nat. apply skipn_map.
Qed.

End Ring.

Lemma add_notification_ring_witness :
  (exists t' n,
      add_notification full_log "late" (console [])
      = Some (t', tick (console [])) /\
      notification_count t' = 50 /\
      stored_notifications t' = drop 1 (stored_notifications full_log) ++ [n] /\
      is_read n = 0 /\
      message_text n = Some "late"%string) /\
  (exists t k',
      perform_all (scanner := glibc_scanner) (map Notify notes)
                  fresh_tracker (console []) = Some (t, k') /\
      notification_count t = 50 /\
      map message_prefix (stored_notifications t)
      = map message_image (drop 1 notes) /\
      map message_text (stored_notifications t) = map Some (drop 1 notes)).
Proof.
  destruct (add_notification_ring (scanner := glibc_scanner))
    as [Hone Hmany].
  split.
  - destruct (Hone full_log "late"%string (console []))
      as (t' & n & Hrun & Hcount & Hstored & Hread & _ & _ & Htext).
    + apply after_sound.
    + vm_compute. reflexivity.
    + exists t', n. rewrite Htext by (vm_compute; lia).
      now repeat split.
  - destruct (Hmany stale_memory fresh_tracker notes (console [])
                storage_ok_stale_memory init_stale_memory)
      as (n0 & t & k' & _ & _ & Hrun & _ & _ & _ & Hlast).
    destruct (Hlast eq_refl) as (Hcount & _ & Hprefix).
    assert (Htexts :
              match perform_all (scanner := glibc_scanner)
                      (map Notify notes) fresh_tracker (console []) with
              | Some (t, _) =>
                  map message_text (stored_notifications t) = map Some (drop 1 notes)
              | None => False
              end) by (vm_compute; reflexivity).
    rewrite Hrun in Htexts.
    exists t, k'. now repeat split.
Defined.

(** * Beyond the claims *)

(** ** Reading numbers and text *)

Section Input.

Context {scanner : Scanf}.



(** When no line left on stdin is a number, [get_float_input] never
    returns: at end of input its loop keeps failing. *)
Theorem get_float_input_never_returns (prompt : string) (k : Console) :
  Forall (fun l => scan_float l = None) (stdin k) ->
  get_float_input prompt k = None.
Proof.
  intros Hnone. rewrite get_float_input_eq.
  now rewrite (proj2 (next_number_None _) Hnone).
Qed.

Lemma substring_whole s : substring 0 (String.length s) s = s.
Proof. induction s as [|c s IH]; cbn; [reflexivity|now rewrite IH]. Qed.

Lemma substring_all s : forall n,
  (String.length s <= n)%nat -> substring 0 n s = s.
Proof.
  induction s as [|c s IH]; intros [|n] Hn; cbn in *;
    try reflexivity; try lia.
  now rewrite IH by lia.
Qed.

Lemma append_cons c (x y : string) :
  (String c x ++ y)%string = String c (x ++ y)%string.
Proof. reflexivity. Qed.

Lemma append_empty (y : string) : (EmptyString ++ y)%string = y.
Proof. reflexivity. Qed.

Lemma append_empty_r (x : string) : (x ++ EmptyString)%string = x.
Proof.
  induction x as [|c x IH]; [reflexivity|]. now rewrite append_cons, IH.
Qed.

Lemma substring_split s : forall n,
  (n <= String.length s)%nat ->
  (substring 0 n s ++ substring n (String.length s - n) s)%string = s.
Proof.
  induction s as [|c s IH]; intros [|n] Hn; cbn [String.length] in Hn;
    cbn [substring String.length Nat.sub]; try reflexivity; try lia.
  - now rewrite append_empty, substring_whole.
  - now rewrite append_cons, IH by lia.
Qed.

Lemma plain_substring s : forall n,
  plain s = true -> plain (substring 0 n s) = true.
Proof.
  induction s as [|c s IH]; intros [|n]; cbn; try reflexivity.
  intros H. apply andb_true_iff in H as [Hc H]. now rewrite Hc, IH.
Qed.

(** Lines without NUL and newline are stored as they are. *)
Lemma c_string_plain s rest :
  plain s = true ->
  c_string (list_ascii_of_string s ++ NUL :: rest) = Some s.
Proof.
  induction s as [|c s IH]; cbn [plain list_ascii_of_string app c_string].
  - reflexivity.
  - intros H. apply andb_true_iff in H as [Hc H].
    apply andb_true_iff in Hc as [Hnul _].
    apply negb_true_iff in Hnul. now rewrite Hnul, IH.
Qed.

Lemma cut_at_newline_plain s c rest :
  plain s = true -> c = NUL \/ c = newline ->
  cut_at_newline (list_ascii_of_string s ++ c :: rest)
  = Some (list_ascii_of_string s ++ NUL :: rest).
Proof.
  intros Hs Hc.
  induction s as [|x s IH]; cbn [plain list_ascii_of_string app cut_at_newline]
    in *.
  - now destruct Hc as [-> | ->].
  - apply andb_true_iff in Hs as [Hx Hs].
    apply andb_true_iff in Hx as [Hnul Hnl].
    apply negb_true_iff in Hnul, Hnl. now rewrite Hnul, Hnl, IH.
Qed.

(** Of a line waiting, [get_string_input] stores the first
    [max_length - 1] characters as a string, the whole line when it is
    shorter, and never writes beyond the first [max_length] bytes of the
    buffer; what it did not store of a longer line stays on stdin as the
    next thing to be read. *)
Theorem get_string_input_cuts (buffer : list ascii) (max_length : Z)
    (prompt : string) (k : Console) (l : string) (rest : list string) :
  1 <= max_length <= Z.of_nat (length buffer) ->
  stdin k = l :: rest ->
  plain l = true ->
  exists d,
    get_string_input buffer max_length prompt k
    = Some (d, {| stdin :=
                    if (String.length l <? Z.to_nat (max_length - 1))%nat
                    then rest
                    else substring (Z.to_nat (max_length - 1))
                           (String.length l - Z.to_nat (max_length - 1)) l
                         :: rest;
                  stdout := stdout k ++ [Printf "%s" [AStr prompt]];
                  clock := clock k;
                  clock_reads := clock_reads k |}) /\
    c_string d = Some (substring 0 (Z.to_nat (max_length - 1)) l) /\
    String.length (substring 0 (Z.to_nat (max_length - 1)) l)
    = Nat.min (String.length l) (Z.to_nat (max_length - 1)) /\
    ((String.length l <= Z.to_nat (max_length - 1))%nat ->
     substring 0 (Z.to_nat (max_length - 1)) l = l) /\
    length d = length buffer /\
    drop (Z.to_nat max_length) d = drop (Z.to_nat max_length) buffer.
Proof.
  intros Hmax Hin Hline. unfold get_string_input. rewrite bind_printf.
  unfold bind, fgets. fields. rewrite Hin.
  destruct (Z.ltb_spec max_length 1); [lia|].
  set (room := Z.to_nat (max_length - 1)) in *.
  assert (Hcut : forall s c,
            plain s = true -> c = NUL \/ c = newline ->
            forall tail,
            (length (list_ascii_of_string s ++ c :: tail) <= length buffer)%nat ->
            exists d,
              defined (cut_at_newline
                         ((list_ascii_of_string s ++ c :: tail)
                          ++ drop (length (list_ascii_of_string s ++ c :: tail))
                               buffer))
              = (ret d : IO (list ascii)) /\
              c_string d = Some s /\ length d = length buffer /\
              d = list_ascii_of_string s ++ NUL :: tail
                  ++ drop (length (list_ascii_of_string s ++ c :: tail)) buffer).
  { intros s c Hs Hc tail Hfit. rewrite <- app_assoc. cbn [app].
    rewrite (cut_at_newline_plain s c _ Hs Hc). eexists. split; [reflexivity|].
    split; [now apply c_string_plain|]. split; [|reflexivity].
    rewrite !length_app in *. cbn [length] in *.
    rewrite length_app, length_drop. lia. }
  destruct (Nat.ltb_spec (String.length l) room) as [Hshort|Hlong].
  - rewrite write_fits
      by (rewrite length_app, length_bytes; cbn [length]; lia).
    cbn [mbind option_bind].
    destruct (Hcut l newline Hline (or_intror eq_refl) [NUL])
      as (d & Hd & Htext & Hlen & Hbytes);
      [rewrite length_app, length_bytes; cbn [length]; lia|].
    exists d. rewrite Hd. split; [reflexivity|].
    rewrite (substring_all l room) by lia.
    split; [exact Htext|]. split; [lia|]. split; [reflexivity|].
    split; [exact Hlen|].
    rewrite Hbytes, length_app, length_bytes. cbn [length].
    rewrite drop_app_ge by (rewrite length_bytes; lia).
    rewrite length_bytes.
    destruct (Z.to_nat max_length - String.length l)%nat
      as [|[|extra]] eqn:Hextra; [lia|lia|].
    cbn [drop app]. rewrite drop_drop. f_equal. lia.
  - rewrite write_fits
      by (rewrite length_app, length_bytes, length_substring_0 by lia;
          cbn [length]; lia).
    cbn [mbind option_bind].
    destruct (Hcut (substring 0 room l) NUL
                (plain_substring l room Hline) (or_introl eq_refl) [])
      as (d & Hd & Htext & Hlen & Hbytes);
      [rewrite length_app, length_bytes, length_substring_0 by lia;
       cbn [length]; lia|].
    exists d. rewrite Hd. split; [reflexivity|].
    split; [exact Htext|].
    split; [rewrite length_substring_0 by lia; lia|].
    split; [intros ?; apply substring_all; lia|].
    split; [exact Hlen|].
    rewrite Hbytes, length_app, length_bytes, length_substring_0 by lia.
    cbn [length app].
    rewrite drop_app_ge by (rewrite length_bytes, length_substring_0; lia).
    rewrite length_bytes, length_substring_0 by lia.
    destruct (Z.to_nat max_length - room)%nat as [|extra] eqn:Hextra;
      [lia|].
    cbn [drop]. rewrite drop_drop. f_equal. lia.
Qed.

End Input.

(** ** The listings *)

Section Listings.

Lemma at_index_drop {A} (l : list A) (i : nat) x rest :
  drop i l = x :: rest -> at_index l (Z.of_nat i) = Some x.
Proof.
  intros H. apply at_index_Some. split; [lia|]. rewrite Nat2Z.id.
  rewrite <- (Nat.add_0_r i), <- lookup_drop, H. reflexivity.
Qed.

Lemma drop_next {A} (l : list A) (i : nat) :
  (i < length l)%nat -> exists x, drop i l = x :: drop (S i) l.
Proof.
  intros Hi. destruct (lookup_lt_is_Some_2 l i Hi) as [x Hx].
  exists x. now apply drop_S.
Qed.

Lemma print_categories_eq n : forall (i : nat) t k,
  (i + n <= length (categories t))%nat ->
  print_categories n (Z.of_nat i) t k
  = Some (tt, says (imap (fun j c => category_line (i + j) c)
                         (take n (drop i (categories t)))) k).
Proof.
  induction n as [|n IH]; intros i t k Hlen.
  - cbn. now rewrite says_nil.
  - cbn [print_categories].
    destruct (drop_next (categories t) i) as [c Hc]; [lia|].
    rewrite (at_index_drop _ _ _ _ Hc). cbn [defined].
    rewrite bind_ret, bind_printf.
    replace (print_categories n (Z.of_nat i + 1) t)
      with (print_categories n (Z.of_nat (S i)) t) by (f_equal; lia).
    rewrite IH by lia. rewrite says_says, Hc. cbn [take imap app].
    rewrite Nat.add_0_r. f_equal. f_equal. f_equal.
    change (Printf ("%d. %s" ++ LF) [AInt (Z.of_nat i + 1); AStr (name c)])
      with (category_line i c).
    f_equal. apply imap_ext. intros j c' _. cbn. f_equal. lia.
Qed.

Lemma print_transactions_eq n : forall (i : nat) t k,
  (i + n <= length (transactions t))%nat ->
  print_transactions n (Z.of_nat i) t k
  = (rows ← mapM transaction_row (take n (drop i (transactions t)));
     Some (tt, says rows k)).
Proof.
  induction n as [|n IH]; intros i t k Hlen.
  - rewrite take_0. change (ret tt k = Some (tt, says [] k)).
    now rewrite says_nil.
  - cbn [print_transactions].
    destruct (drop_next (transactions t) i) as [x Hx]; [lia|].
    rewrite (at_index_drop _ _ _ _ Hx). cbn [defined].
    rewrite bind_ret, Hx. cbn [take mapM].
    destruct (c_string (description x)) as [d|] eqn:Hd.
    2:{ replace (transaction_row x) with (@None printf_call)
          by (unfold transaction_row; now rewrite Hd).
        reflexivity. }
    assert (Hrow : transaction_row x
                   = Some (Printf ("%-20s $%-9.2f %-12s %-30s" ++ LF)
                             [AStr (category x); AFloat (amount x);
                              AStr (if is_income x =? 0 then "Expense"
                                    else "Income");
                              AStr d]))
      by (unfold transaction_row; now rewrite Hd).
    rewrite Hrow.
    cbn [defined mbind option_bind]. rewrite bind_ret, bind_printf.
    replace (Z.of_nat i + 1) with (Z.of_nat (S i)) by lia.
    rewrite IH by lia.
    destruct (mapM transaction_row (take n (drop (S i) (transactions t))))
      as [rows|]; [|reflexivity].
    cbn [mbind option_bind mret option_ret]. now rewrite says_says.
Qed.

Lemma print_notifications_eq n : forall (i : nat) t k,
  (i + n <= length (notifications t))%nat ->
  print_notifications n (Z.of_nat i) t k
  = (lines ← mapM notification_line (take n (drop i (notifications t)));
     Some (tt, says lines k)).
Proof.
  induction n as [|n IH]; intros i t k Hlen.
  - rewrite take_0. change (ret tt k = Some (tt, says [] k)).
    now rewrite says_nil.
  - cbn [print_notifications].
    destruct (drop_next (notifications t) i) as [x Hx]; [lia|].
    rewrite (at_index_drop _ _ _ _ Hx). cbn [defined].
    rewrite bind_ret, Hx. cbn [take mapM].
    destruct (c_string (message x)) as [m|] eqn:Hm.
    2:{ replace (notification_line x) with (@None printf_call)
          by (unfold notification_line, message_text; now rewrite Hm).
        reflexivity. }
    assert (Hline : notification_line x
                    = Some (Printf ("%s" ++ LF) [AStr m]))
      by (unfold notification_line, message_text; now rewrite Hm).
    rewrite Hline.
    cbn [defined mbind option_bind]. rewrite bind_ret, bind_printf.
    replace (Z.of_nat i + 1) with (Z.of_nat (S i)) by lia.
    rewrite IH by lia.
    destruct (mapM notification_line (take n (drop (S i) (notifications t))))
      as [lines|]; [|reflexivity].
    cbn [mbind option_bind mret option_ret]. now rewrite says_says.
Qed.

(** The list [add_expense] prints before it asks for a category names the
    stored categories in their order, numbered from 1: line [n] shows the
    category that the choice [n] selects. *)
Theorem print_categories_lists (t : BudgetTracker) (k : Console) :
  0 <= category_count t <= Z.of_nat (length (categories t)) ->
  print_categories (Z.to_nat (category_count t)) 0 t k
  = Some (tt, says (imap category_line (stored_categories t)) k) /\
  forall n c,
    1 <= n <= category_count t ->
    at_index (categories t) (n - 1) = Some c ->
    imap category_line (stored_categories t) !! Z.to_nat (n - 1)
    = Some (Printf ("%d. %s" ++ LF) [AInt n; AStr (name c)]).
Proof.
  intros Hcount. split.
  - change 0 with (Z.of_nat 0).
    rewrite print_categories_eq by (cbn [Nat.add]; lia). reflexivity.
  - intros n c Hn Hc. apply at_index_Some in Hc as [_ Hc].
    rewrite list_lookup_imap.
    rewrite (stored_categories_lookup t _ c) by (lia || exact Hc).
    cbn. unfold category_line.
    replace (Z.of_nat (Z.to_nat (n - 1)) + 1) with n by lia. reflexivity.
Qed.

Lemma view_transactions_eq (t : BudgetTracker) (k : Console) :
  0 <= transaction_count t <= Z.of_nat (length (transactions t)) ->
  view_transactions t k
  = (rows ← mapM transaction_row (stored_transactions t);
     Some (tt, says (if transaction_count t =? 0
                     then [Printf ("No transactions recorded." ++ LF) []]
                     else transactions_header ++ rows) k)).
Proof.
  intros Hcount. unfold view_transactions, stored_transactions.
  destruct (Z.eqb_spec (transaction_count t) 0) as [->|Hne]; [reflexivity|].
  rewrite !bind_printf. change 0 with (Z.of_nat 0).
  rewrite print_transactions_eq by (cbn [Nat.add]; lia). rewrite drop_0.
  destruct (mapM transaction_row _) as [rows|]; [|reflexivity].
  cbn [mbind option_bind]. rewrite !says_says. reflexivity.
Qed.

Lemma view_notifications_eq (t : BudgetTracker) (k : Console) :
  0 <= notification_count t <= Z.of_nat (length (notifications t)) ->
  view_notifications t k
  = (lines ← mapM notification_line (stored_notifications t);
     Some (tt, says (if notification_count t =? 0
                     then [Printf ("No notifications available." ++ LF) []]
                     else Printf ("Notifications:" ++ LF) [] :: lines) k)).
Proof.
  intros Hcount. unfold view_notifications, stored_notifications.
  destruct (Z.eqb_spec (notification_count t) 0) as [->|Hne]; [reflexivity|].
  rewrite !bind_printf. change 0 with (Z.of_nat 0).
  rewrite print_notifications_eq by (cbn [Nat.add]; lia). rewrite drop_0.
  destruct (mapM notification_line _) as [lines|]; [|reflexivity].
  cbn [mbind option_bind]. rewrite !says_says. reflexivity.
Qed.

(** [view_transactions] prints "No transactions recorded." when none is
    stored, and otherwise three header lines followed by one row for each
    stored transaction, oldest first; it reads no input and no clock.  A
    stored transaction whose description buffer holds no string has no
    row: printing it reads past the buffer. *)
Theorem view_transactions_lists (t : BudgetTracker) (k : Console) :
  0 <= transaction_count t <= Z.of_nat (length (transactions t)) ->
  (forall rows,
     mapM transaction_row (stored_transactions t) = Some rows ->
     exists k',
       view_transactions t k = Some (tt, k') /\
       printed k k'
       = (if transaction_count t =? 0
          then [Printf ("No transactions recorded." ++ LF) []]
          else transactions_header ++ rows) /\
       stdin k' = stdin k /\
       clock_reads k' = clock_reads k) /\
  (mapM transaction_row (stored_transactions t) = None ->
   view_transactions t k = None).
Proof.
  intros Hcount. rewrite view_transactions_eq by exact Hcount. split.
  - intros rows ->. eexists. split; [reflexivity|].
    split; [apply printed_says|]. split; reflexivity.
  - now intros ->.
Qed.

(** [view_notifications] prints "No notifications available." when the
    log is empty, and otherwise "Notifications:" followed by the text of
    each stored notification, oldest first; it reads no input and no
    clock.  This is so when every stored message holds a string; when one
    does not, a message of 99 characters or more having been copied into
    it without a terminator, printing it reads past the buffer. *)
Theorem view_notifications_lists (t : BudgetTracker) (k : Console) :
  0 <= notification_count t <= Z.of_nat (length (notifications t)) ->
  (forall texts,
     mapM message_text (stored_notifications t) = Some texts ->
     exists k',
       view_notifications t k = Some (tt, k') /\
       printed k k'
       = (if notification_count t =? 0
          then [Printf ("No notifications available." ++ LF) []]
          else Printf ("Notifications:" ++ LF) []
               :: map (fun m => Printf ("%s" ++ LF) [AStr m]) texts) /\
       stdin k' = stdin k /\
       clock_reads k' = clock_reads k) /\
  (mapM message_text (stored_notifications t) = None ->
   view_notifications t k = None).
Proof.
  intros Hcount. rewrite view_notifications_eq by exact Hcount.
  assert (Hlines : mapM notification_line (stored_notifications t)
                   = map (fun m => Printf ("%s" ++ LF) [AStr m])
                     <$> mapM message_text (stored_notifications t)).
  { induction (stored_notifications t) as [|n ns IH]; [reflexivity|].
    cbn [mapM]. rewrite IH.
    destruct (message_text n) as [m|] eqn:Hm.
    - replace (notification_line n)
        with (Some (Printf ("%s" ++ LF) [AStr m]))
        by (unfold notification_line; now rewrite Hm).
      cbn [mbind option_bind].
      now destruct (mapM message_text ns).
    - replace (notification_line n) with (@None printf_call)
        by (unfold notification_line; now rewrite Hm).
      reflexivity. }
  rewrite Hlines. split.
  - intros texts ->. eexists. split; [reflexivity|].
    split; [apply printed_says|]. split; reflexivity.
  - now intros ->.
Qed.

End Listings.

(** ** Setting the limits *)

Section Limits.

Context {scanner : Scanf}.

Lemma get_float_input_first prompt k l rest v :
  stdin k = l :: rest -> scan_float l = Some v ->
  get_float_input prompt k
  = Some (v, with_stdin rest (says [Printf "%s" [AStr prompt]] k)).
Proof.
  intros Hin Hl. rewrite get_float_input_eq, Hin.
  cbn [next_number rejected]. now rewrite Hl.
Qed.

Lemma set_budget_from_eq n : forall (i : nat) t k lines vs rest,
  stdin k = lines ++ rest ->
  Forall2 (fun l v => scan_float l = Some v) lines vs ->
  length vs = n ->
  (i + n <= length (categories t))%nat ->
  exists k',
    set_budget_from n (Z.of_nat i) t k
    = Some (set_categories
              (take i (categories t)
               ++ zip_with (fun c v => set_budget_limit v c)
                           (take n (drop i (categories t))) vs
               ++ drop (i + n) (categories t)) t, k') /\
    stdin k' = rest /\ clock_reads k' = clock_reads k.
Proof.
  induction n as [|n IH]; intros i t k lines vs rest Hin Hscan Hvs Hlen.
  - destruct vs; [|discriminate]. inversion Hscan; subst.
    exists k. cbn [set_budget_from]. rewrite take_0. cbn [zip_with app].
    rewrite Nat.add_0_r, take_drop. split; [|now split].
    unfold ret. do 2 f_equal. now destruct t.
  - destruct vs as [|v vs]; [discriminate|].
    inversion Hscan as [|l ? lines' ? Hl Hscan']; subst.
    injection Hvs as Hvs.
    cbn [set_budget_from].
    destruct (drop_next (categories t) i) as [c Hc]; [lia|].
    rewrite (at_index_drop _ _ _ _ Hc). cbn [defined].
    rewrite bind_ret, bind_printf.
    erewrite bind_eq; [|apply (get_float_input_first _ _ l (lines' ++ rest) v);
                        [exact Hin|exact Hl]].
    rewrite store_in_range by lia. cbn [defined]. rewrite bind_ret.
    replace (Z.of_nat i + 1) with (Z.of_nat (S i)) by lia.
    match goal with
    | |- context [set_budget_from n _ ?t1 ?k1] =>
        destruct (IH (S i) t1 k1 lines' vs rest)
          as (k' & Hrun & Hrest & Hclock);
        [reflexivity|exact Hscan'|exact Hvs
        |fields; rewrite length_insert; lia|]
    end.
    exists k'. rewrite Hrun. rewrite Nat2Z.id.
    split; [|split; [exact Hrest|exact Hclock]].
    unfold set_categories. fields. do 3 f_equal.
    rewrite take_succ_insert by lia.
    rewrite !drop_insert_lt by lia.
    rewrite Hc. cbn [take zip_with]. rewrite <- app_assoc. cbn [app].
    now replace (S i + n)%nat with (i + S n)%nat by lia.
Qed.

(** When the lines waiting are one number for each stored category,
    [set_budget] returns having read exactly these lines and given the
    n-th category the n-th number as its limit, whatever it has spent;
    nothing else in the tracker is touched. *)
Theorem set_budget_sets_limits (t : BudgetTracker) (k : Console)
    (lines : list string) (vs : list float32) (rest : list string) :
  0 <= category_count t <= Z.of_nat (length (categories t)) ->
  stdin k = lines ++ rest ->
  Forall2 (fun l v => scan_float l = Some v) lines vs ->
  length vs = Z.to_nat (category_count t) ->
  exists t' k',
    set_budget t k = Some (t', k') /\
    stdin k' = rest /\
    stored_categories t'
    = zip_with (fun c v => {| name := name c; budget_limit := v;
                              current_spent := current_spent c |})
               (stored_categories t) vs /\
    drop (Z.to_nat (category_count t)) (categories t')
    = drop (Z.to_nat (category_count t)) (categories t) /\
    same_but_categories t t'.
Proof.
  intros Hcount Hin Hscan Hvs. unfold set_budget. rewrite bind_printf.
  destruct (set_budget_from_eq (Z.to_nat (category_count t)) 0 t
              (says [Printf ("Set budget limits for categories:" ++ LF) []] k)
              lines vs rest Hin Hscan Hvs)
    as (k' & Hrun & Hrest & _); [cbn [Nat.add]; lia|].
  change (Z.of_nat 0) with 0 in Hrun.
  rewrite take_0, drop_0 in Hrun. cbn [app Nat.add] in Hrun.
  rewrite (bind_eq _ _ _ _ _ Hrun), bind_printf.
  eexists _, _. split; [reflexivity|]. split; [exact Hrest|].
  assert (Hlen : length (zip_with (fun c v => set_budget_limit v c)
                          (take (Z.to_nat (category_count t)) (categories t))
                          vs)
                 = Z.to_nat (category_count t)).
  { rewrite length_zip_with, length_take. lia. }
  split; [|split; [|now repeat split]].
  - unfold stored_categories. fields.
    now rewrite take_app_length' by (symmetry; exact Hlen).
  - fields. now rewrite drop_app_length' by (symmetry; exact Hlen).
Qed.

(** Whatever is typed, [set_budget] changes nothing but limits: a
    category keeps its place, its name and its spending, and transactions,
    totals, counters and notifications are as before. *)
Theorem set_budget_changes_limits_only (t t' : BudgetTracker)
    (k k' : Console) :
  set_budget t k = Some (t', k') ->
  transactions t' = transactions t /\
  transaction_count t' = transaction_count t /\
  total_income t' = total_income t /\
  total_expenses t' = total_expenses t /\
  notifications t' = notifications t /\
  notification_count t' = notification_count t /\
  category_count t' = category_count t /\
  map name (categories t') = map name (categories t) /\
  map current_spent (categories t') = map current_spent (categories t).
Proof.
  intros Hrun.
  apply set_budget_Some in Hrun
    as [(Htx & Hns & Htc & Hcc & Hnc & Hti & Hte) Hcats].
  repeat split; try assumption.
  - now apply Forall2_relimited_names.
  - clear -Hcats. induction Hcats as [|c c' cs cs' (_ & Hs & _) _ IH];
      [reflexivity|]. cbn. now rewrite Hs, IH.
Qed.

End Limits.

(** ** Reachable states *)

Section Reachable.

Context {scanner : Scanf}.

Lemma perform_keeps_names op t k t' k' :
  perform op t k = Some (t', k') ->
  category_count t' = category_count t /\
  map name (categories t') = map name (categories t).
Proof.
  intros H. destruct op as [| | |msg]; cbn [perform] in H.
  - apply add_income_outcome in H as [_ -> _|v d now _ _ _ ->]; now split.
  - apply add_expense_outcome in H
      as [_ -> _|v n old _ _ _ _ _ -> _ _|v n c d now _ _ _ _ _ Hc -> _];
      try (now split).
    fields. split; [reflexivity|]. now apply (names_insert _ _ c).
  - apply set_budget_Some in H as [(_ & _ & _ & Hcc & _) Hcats].
    split; [exact Hcc|]. now apply Forall2_relimited_names.
  - apply add_notification_frame in H as (_ & Hcats & _ & Hcc & _).
    now rewrite Hcats, Hcc.
Qed.

Lemma stored_names t :
  map name (stored_categories t)
  = take (Z.to_nat (category_count t)) (map name (categories t)).
Proof. unfold stored_categories. symmetry. apply firstn_map. Qed.

Lemma perform_keeps_log op t k t' k' :
  perform op t k = Some (t', k') ->
  storage_ok t -> counts_ok t ->
  1 <= notification_count t -> 1 <= notification_count t'.
Proof.
  intros H Hok [_ _ Hnc] Hlog. destruct op as [| | |msg]; cbn [perform] in H.
  - apply add_income_outcome in H as [_ -> _|v d now _ _ _ ->]; exact Hlog.
  - apply add_expense_outcome in H
      as [_ -> _|v n old _ _ _ _ _ -> _ _|v n c d now _ _ _ _ _ _ -> _];
      exact Hlog.
  - apply set_budget_Some in H as [(_ & _ & _ & _ & Hn & _) _].
    now rewrite Hn.
  - destruct (add_notification_pushes t msg k Hok Hnc)
      as (slot & t1 & H1 & _ & Hc & _).
    rewrite H in H1. injection H1 as <-. rewrite Hc.
    unfold MAX_NOTIFICATIONS. lia.
Qed.

Lemma perform_settled op t k t' k' :
  perform op t k = Some (t', k') -> settled t -> settled t'.
Proof.
  intros H [Hok Hcounts Hcc Hnames Hlog].
  destruct (perform_sound _ _ _ _ _ H (conj Hok Hcounts)) as [Hok' Hcounts'].
  destruct (perform_keeps_names _ _ _ _ _ H) as [Hcc' Hnames'].
  split; try assumption.
  - now rewrite Hcc'.
  - rewrite stored_names, Hcc', Hnames', <- stored_names. exact Hnames.
  - eapply perform_keeps_log; eassumption.
Qed.

Lemma perform_all_settled ops : forall t k t' k',
  perform_all ops t k = Some (t', k') -> settled t -> settled t'.
Proof.
  induction ops as [|op ops IH]; intros t k t' k' H Hs.
  - now injection H as <- <-.
  - cbn [perform_all] in H. apply bind_Some in H as (t1 & k1 & H1 & H).
    eapply IH; [exact H|]. eapply perform_settled; eassumption.
Qed.

Lemma init_tracker_settled memory t :
  storage_ok memory -> init_tracker memory = Some t -> settled t.
Proof.
  intros Hok Hinit.
  destruct (init_tracker_ledger _ _ Hok Hinit) as (_ & Hok' & Hc & Hcats & _).
  destruct (init_tracker_fields memory Hok)
    as (t1 & _ & _ & Heq & _ & _ & _ & _ & _ & Hcc & Hnc & _).
  rewrite Heq in Hinit. injection Hinit as <-.
  split; try assumption.
  - now rewrite Hcats.
  - lia.
Qed.

(** In every state that a sequence of operations reaches from
    [init_tracker] the three arrays have their declared sizes, the counters
    are within them, at most 1000 transactions and between 1 and 50
    notifications are stored, and the categories are still exactly the
    eight defaults, in their order: no operation adds, removes or renames
    one. *)
Theorem reachable_states_are_settled (memory t0 t : BudgetTracker)
    (ops : list operation) (k k' : Console) :
  storage_ok memory ->
  init_tracker memory = Some t0 ->
  perform_all ops t0 k = Some (t, k') ->
  length (transactions t) = 1000%nat /\
  length (categories t) = 50%nat /\
  length (notifications t) = 50%nat /\
  0 <= transaction_count t <= 1000 /\
  1 <= notification_count t <= 50 /\
  category_count t = 8 /\
  map name (stored_categories t)
  = ["Salary"; "Freelance"; "Investments"; "Food"; "Transport";
     "Utilities"; "Rent"; "Entertainment"]%string.
Proof.
  intros Hok Hinit Hrun.
  destruct (perform_all_settled ops t0 k t k' Hrun
              (init_tracker_settled _ _ Hok Hinit))
    as [[Htx Hcat Hns _] [Htc _ Hnc] Hcc Hnames Hlog].
  unfold MAX_TRANSACTIONS, MAX_CATEGORIES, MAX_NOTIFICATIONS in *.
  repeat split; try lia. exact Hnames.
Qed.

Lemma perform_keeps_notifications op t k t' k' :
  op = Income \/ op = Expense \/ op = Budget ->
  perform op t k = Some (t', k') ->
  notifications t' = notifications t /\
  notification_count t' = notification_count t.
Proof.
  intros [->|[->| ->]] H; cbn [perform] in H.
  - apply add_income_outcome in H as [_ -> _|v d now _ _ _ ->]; now split.
  - apply add_expense_outcome in H
      as [_ -> _|v n old _ _ _ _ _ -> _ _|v n c d now _ _ _ _ _ _ -> _];
      now split.
  - apply set_budget_Some in H as [(_ & Hn & _ & _ & Hnc & _) _].
    now split.
Qed.

Lemma perform_log_held op t k t' k' :
  perform op t k = Some (t', k') ->
  storage_ok t -> counts_ok t ->
  match op with
  | Notify msg => (length (chars msg) < 99)%nat
  | _ => True
  end ->
  log_held t -> log_held t'.
Proof.
  intros H Hok [_ _ Hnc] Hshort Hheld. unfold log_held in *.
  assert (Hkeeps : forall op',
            op' = Income \/ op' = Expense \/ op' = Budget ->
            perform op' t k = Some (t', k') ->
            Forall (fun n => is_Some (message_text n))
                   (stored_notifications t')).
  { intros op' Hop' H'.
    destruct (perform_keeps_notifications _ _ _ _ _ Hop' H') as [Hn Hc].
    unfold stored_notifications in *. now rewrite Hn, Hc. }
  destruct op as [| | |msg];
    [eapply Hkeeps; [|exact H]; auto..|].
  cbn [perform] in H.
  destruct (add_notification_pushes t msg k Hok Hnc)
    as (slot & t1 & H1 & _ & _ & Hstored).
  rewrite H in H1. injection H1 as <-. rewrite Hstored.
  apply Forall_app. split.
  - destruct (MAX_NOTIFICATIONS <=? notification_count t);
      [now apply Forall_drop|exact Hheld].
  - constructor; [|constructor].
    rewrite message_text_pushed by exact Hshort. now eexists.
Qed.

Lemma perform_all_log_held ops : forall t k t' k',
  perform_all ops t k = Some (t', k') ->
  storage_ok t -> counts_ok t -> short_messages ops ->
  log_held t -> log_held t'.
Proof.
  induction ops as [|op ops IH]; intros t k t' k' H Hok Hc Hshort Hheld.
  - now injection H as <- <-.
  - cbn [perform_all] in H. apply bind_Some in H as (t1 & k1 & H1 & H).
    inversion Hshort as [|? ? Hop Hrest]; subst.
    destruct (perform_sound _ _ _ _ _ H1 (conj Hok Hc)) as [Hok1 Hc1].
    eapply IH; [exact H|exact Hok1|exact Hc1|exact Hrest|].
    eapply perform_log_held; eassumption.
Qed.

Lemma init_tracker_log_held memory t :
  storage_ok memory -> init_tracker memory = Some t -> log_held t.
Proof.
  intros Hok Hinit.
  destruct (init_tracker_fields memory Hok)
    as (t1 & slot & rest & Heq & _ & _ & _ & Hnots & _ & _ & Hnc & _).
  rewrite Heq in Hinit. injection Hinit as <-.
  unfold log_held, stored_notifications. rewrite Hnots, Hnc.
  constructor; [|constructor]. now eexists.
Qed.

Lemma perform_rows_held op t k t' k' :
  perform op t k = Some (t', k') -> rows_held t -> rows_held t'.
Proof.
  intros H Hheld. unfold rows_held in *.
  destruct op as [| | |msg]; cbn [perform] in H.
  - apply add_income_outcome in H
      as [_ -> _|v d now Hcount Hlen _ -> [Hd _]]; [exact Hheld|].
    unfold stored_transactions in *. fields.
    rewrite take_push by lia. apply Forall_app. split; [exact Hheld|].
    constructor; [exact Hd|constructor].
  - apply add_expense_outcome in H
      as [_ -> _
         |v n old _ _ _ _ _ -> _ _
         |v n c d now Hcount Hlen _ _ _ _ -> _ [Hd _]]; [exact Hheld| |].
    + unfold stored_transactions in *. fields.
      now rewrite take_insert_ge.
    + unfold stored_transactions in *. fields.
      rewrite take_push by lia. apply Forall_app. split; [exact Hheld|].
      constructor; [exact Hd|constructor].
  - apply set_budget_Some in H as [(Htx & _ & Htc & _) _].
    unfold stored_transactions in *. now rewrite Htx, Htc.
  - apply add_notification_frame in H as (Htx & _ & Htc & _).
    unfold stored_transactions in *. now rewrite Htx, Htc.
Qed.

Lemma perform_all_rows_held ops : forall t k t' k',
  perform_all ops t k = Some (t', k') -> rows_held t -> rows_held t'.
Proof.
  induction ops as [|op ops IH]; intros t k t' k' H Hheld.
  - now injection H as <- <-.
  - cbn [perform_all] in H. apply bind_Some in H as (t1 & k1 & H1 & H).
    eapply IH; [exact H|]. eapply perform_rows_held; eassumption.
Qed.

Lemma mapM_held {A B} (f : A -> option B) l :
  Forall (fun x => is_Some (f x)) l -> is_Some (mapM f l).
Proof.
  induction 1 as [|x l [y Hy] _ [ys IH]]; [now eexists|].
  cbn [mapM]. rewrite Hy, IH. now eexists.
Qed.

(** No array is indexed out of bounds in a reachable state, whatever the
    memory held at the start.  The two recording operations return there
    as soon as the input holds the numbers they ask for and a line for the
    description; [set_budget] returns on eight numbers; [add_notification]
    and the listing of transactions return always, every stored
    description being a string by then.  The listing of notifications
    returns when every message pushed so far was shorter than the 99
    characters that are copied: a longer one is stored without its
    terminator. *)
Theorem operations_return_when_reachable (memory t0 t : BudgetTracker)
    (ops : list operation) (k k' : Console) :
  storage_ok memory ->
  init_tracker memory = Some t0 ->
  perform_all ops t0 k = Some (t, k') ->
  forall k1,
    ((exists v, asks_income k1 v) -> income_described t k1 ->
     is_Some (add_income t k1)) /\
    ((exists v n, asks_expense k1 v n) -> expense_described t k1 ->
     is_Some (add_expense t k1)) /\
    (Forall (fun l => is_Some (scan_float l)) (take 8 (stdin k1)) ->
     (8 <= length (stdin k1))%nat -> is_Some (set_budget t k1)) /\
    (forall msg, is_Some (add_notification t msg k1)) /\
    is_Some (view_transactions t k1) /\
    (short_messages ops -> is_Some (view_notifications t k1)).
Proof.
  intros Hok Hinit Hrun k1.
  destruct (perform_all_settled ops t0 k t k' Hrun
              (init_tracker_settled _ _ Hok Hinit))
    as [Hs Hc Hcc Hnames Hlog].
  pose proof Hs as [Htx Hcat Hns _ _]. pose proof Hc as [Htc _ Hnc].
  unfold MAX_TRANSACTIONS, MAX_CATEGORIES, MAX_NOTIFICATIONS in *.
  split; [|split; [|split; [|split; [|split]]]].
  - intros Hask Hends. apply add_income_returns; auto.
  - intros Hask Hends. apply add_expense_returns; auto.
  - intros Hnums Hmany.
    assert (Hscan : exists vs,
               Forall2 (fun l v => scan_float l = Some v)
                       (take 8 (stdin k1)) vs).
    { clear -Hnums. induction Hnums as [|l ls [v Hv] _ [vs IH]].
      - exists []. constructor.
      - exists (v :: vs). now constructor. }
    destruct Hscan as [vs Hscan].
    unfold set_budget. rewrite bind_printf.
    destruct (set_budget_from_eq (Z.to_nat (category_count t)) 0 t
                (says [Printf ("Set budget limits for categories:" ++ LF) []]
                      k1)
                (take 8 (stdin k1)) vs (drop 8 (stdin k1)))
      as (k2 & Hset & _); try assumption.
    + fields. now rewrite take_drop.
    + rewrite <- (Forall2_length _ _ _ Hscan), length_take, Hcc. lia.
    + cbn [Nat.add]. lia.
    + change (Z.of_nat 0) with 0 in Hset.
      rewrite (bind_eq _ _ _ _ _ Hset), bind_printf. now eexists.
  - intros msg.
    destruct (add_notification_pushes t msg k1 Hs Hnc) as (? & t1 & H1 & _).
    now exists (t1, tick k1).
  - rewrite view_transactions_eq by lia.
    destruct (mapM_held transaction_row (stored_transactions t)) as [rows ->];
      [|now eexists].
    destruct (init_tracker_ledger _ _ Hok Hinit) as (_ & _ & _ & _ & Hnone).
    assert (Hheld : rows_held t).
    { apply (perform_all_rows_held ops t0 k t k' Hrun).
      unfold rows_held. rewrite Hnone. constructor. }
    eapply Forall_impl; [exact Hheld|].
    intros x [d Hd]. unfold transaction_row. rewrite Hd. now eexists.
  - intros Hshort. rewrite view_notifications_eq by lia.
    destruct (init_tracker_ledger _ _ Hok Hinit) as (_ & Hok0 & Hc0 & _).
    pose proof (perform_all_log_held ops t0 k t k' Hrun Hok0 Hc0 Hshort
                  (init_tracker_log_held _ _ Hok Hinit)) as Hlogheld.
    destruct (mapM_held notification_line (stored_notifications t))
      as [lines ->]; [|now eexists].
    eapply Forall_impl; [exact Hlogheld|].
    intros x [m Hm]. unfold notification_line. rewrite Hm. now eexists.
Qed.

(** What is stored is never edited or removed: after any sequence of
    operations the transactions stored before are still there, unchanged
    and in the same places, the new ones behind them. *)
Theorem transactions_are_append_only (ops : list operation)
    (t t' : BudgetTracker) (k k' : Console) :
  perform_all ops t k = Some (t', k') ->
  exists more,
    stored_transactions t' = stored_transactions t ++ more.
Proof.
  revert t k. induction ops as [|op ops IH]; intros t k H.
  - injection H as <- <-. exists []. now rewrite app_nil_r.
  - cbn [perform_all] in H. apply bind_Some in H as (t1 & k1 & H1 & H).
    destruct (IH _ _ H) as [more Hmore].
    assert (Hstep : exists one,
               stored_transactions t1 = stored_transactions t ++ one).
    { destruct op as [| | |msg]; cbn [perform] in H1.
      - apply add_income_outcome in H1
          as [_ -> _|v d now Hcount Hlen _ ->].
        + exists []. now rewrite app_nil_r.
        + eexists [_]. unfold stored_transactions. fields.
          apply take_push. lia.
      - apply add_expense_outcome in H1
          as [_ -> _
             |v n old _ _ _ _ _ -> _ _
             |v n c d now Hcount Hlen _ _ _ _ -> _].
        + exists []. now rewrite app_nil_r.
        + exists []. rewrite app_nil_r. unfold stored_transactions. fields.
          now rewrite take_insert_ge.
        + eexists [_]. unfold stored_transactions. fields.
          apply take_push. lia.
      - apply set_budget_Some in H1 as [(Htx & _ & Htc & _) _].
        exists []. rewrite app_nil_r. unfold stored_transactions.
        now rewrite Htx, Htc.
      - apply add_notification_frame in H1 as (Htx & _ & Htc & _).
        exists []. rewrite app_nil_r. unfold stored_transactions.
        now rewrite Htx, Htc. }
    destruct Hstep as [one Hone].
    exists (one ++ more). now rewrite Hmore, Hone, app_assoc.
Qed.

End Reachable.

(** ** Refused expenses and fresh notifications *)

Section Leftovers.

Context {scanner : Scanf}.

(** The one trace a refused expense leaves: the amount typed is already in
    the [amount] field of the first free transaction slot when the
    category number is found out of range; the tracker is otherwise
    bit for bit what it was. *)
Theorem add_expense_invalid_category_slot (t : BudgetTracker) (k : Console)
    (v : float32) (n : Z) :
  storage_ok t -> counts_ok t ->
  transaction_count t < MAX_TRANSACTIONS ->
  asks_expense k v n ->
  n < 1 \/ category_count t < n ->
  exists old k',
    transactions t !! Z.to_nat (transaction_count t) = Some old /\
    add_expense t k
    = Some ({| transactions :=
                 <[Z.to_nat (transaction_count t) :=
                     {| amount := v; description := description old;
                        category := category old;
                        timestamp := timestamp old;
                        is_income := is_income old |}]> (transactions t);
               categories := categories t;
               notifications := notifications t;
               transaction_count := transaction_count t;
               category_count := category_count t;
               notification_count := notification_count t;
               total_income := total_income t;
               total_expenses := total_expenses t |}, k').
Proof.
  intros Hok Hcounts Hroom Hask Hn.
  destruct (add_expense_returns t k Hok Hcounts) as [[t' k'] Hrun];
    [now exists v, n
    |intros v' n' Hask' Hn';
     destruct (asks_expense_functional _ _ _ _ _ Hask Hask') as [-> ->]; lia|].
  pose proof (add_expense_outcome _ _ _ _ Hrun)
    as [Hcap _ _
       |v' n' old Hcount Hlen Hask' _ Hold -> _ _
       |v' n' c' d now _ _ Hask' Hn' _ _ _ _]; [lia| |].
  - destruct (asks_expense_functional _ _ _ _ _ Hask Hask') as [-> ->].
    exists old, k'. split; [exact Hold|exact Hrun].
  - destruct (asks_expense_functional _ _ _ _ _ Hask Hask') as [-> ->]. lia.
Qed.

(** [init_tracker] writes only the text of the initial notification: its
    [timestamp] and [is_read] are whatever the memory held before. *)
Theorem init_tracker_sets_message_only (memory : BudgetTracker)
    (slot : Notification) (rest : list Notification) :
  storage_ok memory ->
  notifications memory = slot :: rest ->
  exists t n0,
    init_tracker memory = Some t /\
    stored_notifications t = [n0] /\
    message_text n0
    = Some "Tracker initialized with default categories."%string /\
    notification_timestamp n0 = notification_timestamp slot /\
    is_read n0 = is_read slot /\
    drop 45 (message n0) = drop 45 (message slot).
Proof.
  intros Hok Hslots.
  destruct (init_tracker_fields memory Hok)
    as (t & slot' & rest' & Heq & Hslots' & _ & _ & Hnots & _ & _ & Hnc & _).
  rewrite Hslots in Hslots'. injection Hslots' as <- <-.
  eexists t, _. split; [exact Heq|].
  split; [unfold stored_notifications; rewrite Hnots, Hnc; reflexivity|].
  repeat split.
Qed.

End Leftovers.

(** ** The menu *)

Section Menu.

Context {scanner : Scanf}.

Lemma append_assoc (a b c : string) :
  ((a ++ b) ++ c)%string = (a ++ (b ++ c))%string.
Proof.
  induction a as [|x a IH]; [now rewrite !append_empty|].
  now rewrite !append_cons, IH.
Qed.

Lemma is_tail_refl l : is_tail l l.
Proof. exists EmptyString. now rewrite append_empty. Qed.

Lemma is_tail_trans a b c : is_tail a b -> is_tail b c -> is_tail a c.
Proof.
  intros [p ->] [q ->]. exists (q ++ p)%string. symmetry. apply append_assoc.
Qed.

Lemma leftover_refl l : leftover l l.
Proof.
  split; [lia|]. apply Forall_forall. intros x Hx.
  exists x. split; [exact Hx|apply is_tail_refl].
Qed.

Lemma leftover_trans a b c : leftover a b -> leftover b c -> leftover a c.
Proof.
  intros [Hab Tab] [Hbc Tbc]. split; [lia|].
  rewrite Forall_forall in *. intros x Hx.
  destruct (Tbc x Hx) as (y & Hy & Hxy).
  destruct (Tab y Hy) as (z & Hz & Hyz).
  exists z. split; [exact Hz|]. eapply is_tail_trans; eassumption.
Qed.

Lemma leftover_drop n l : leftover l (drop n l).
Proof.
  split; [rewrite length_drop; lia|]. apply Forall_forall. intros x Hx.
  exists x. split; [|apply is_tail_refl].
  rewrite <- (take_drop n l). apply elem_of_app. now right.
Qed.

Lemma leftover_tail l : leftover l (tail l).
Proof. destruct l as [|x l]; [apply leftover_refl|apply (leftover_drop 1)]. Qed.

Lemma leftover_cut l sfx rest :
  is_tail sfx l -> leftover (l :: rest) (sfx :: rest).
Proof.
  intros Hcut. split; [reflexivity|]. constructor.
  - exists l. split; [left|exact Hcut].
  - apply Forall_forall. intros x Hx.
    exists x. split; [now right|apply is_tail_refl].
Qed.

Lemma leftover_nil l : leftover [] l -> l = [].
Proof. intros [Hlen _]. destruct l; [reflexivity|cbn in Hlen; lia]. Qed.

Lemma consuming_ret {A} (a : A) : consuming (ret a).
Proof. intros k a' k' [= _ <-]. apply leftover_refl. Qed.

Lemma consuming_stuck {A} : consuming (@stuck A).
Proof. intros k a k' [=]. Qed.

Lemma consuming_defined {A} (o : option A) : consuming (defined o).
Proof. intros k a k' H. apply defined_Some in H as [_ ->]. apply leftover_refl. Qed.

Lemma consuming_printf fmt args : consuming (printf fmt args).
Proof. intros k a k' [= _ <-]. apply leftover_refl. Qed.

Lemma consuming_time : consuming time.
Proof. intros k a k' [= _ <-]. apply leftover_refl. Qed.

Lemma leftover_skip_blank l : leftover l (skip_blank l).
Proof. destruct (skip_blank_drop l) as (j & -> & _). apply leftover_drop. Qed.

Lemma consuming_scanf_f : consuming scanf_f.
Proof. intros k a k' [= _ <-]. apply leftover_skip_blank. Qed.

Lemma consuming_scanf_d : consuming scanf_d.
Proof. intros k a k' [= _ <-]. apply leftover_skip_blank. Qed.

Lemma consuming_clear_input_buffer : consuming clear_input_buffer.
Proof. intros k a k' [= _ <-]. apply leftover_tail. Qed.

Lemma consuming_bind {A B} (m : IO A) (f : A -> IO B) :
  consuming m -> (forall a, consuming (f a)) -> consuming (bind m f).
Proof.
  intros Hm Hf k b k' H. apply bind_Some in H as (a & k1 & H1 & H2).
  eapply leftover_trans; [eapply Hm, H1|eapply Hf, H2].
Qed.

Lemma consuming_fgets buffer max_length : consuming (fgets buffer max_length).
Proof.
  intros k a k' H. unfold fgets in H.
  destruct (max_length <? 1); [discriminate|].
  destruct (stdin k) as [|l rest] eqn:Hin.
  - destruct (max_length =? 1); [destruct (write _ _); [|discriminate]|];
      injection H as _ <-; rewrite Hin; apply leftover_refl.
  - destruct (Nat.ltb_spec (String.length l) (Z.to_nat (max_length - 1)));
      match type of H with
      | context [write ?b ?bytes] => destruct (write b bytes); [|discriminate]
      end;
      injection H as _ <-; cbn [stdin with_stdin].
    + apply (leftover_drop 1 (l :: rest)).
    + apply leftover_cut. exists (substring 0 (Z.to_nat (max_length - 1)) l).
      symmetry. now apply substring_split.
Qed.

Ltac consume_step :=
  first
    [ apply consuming_ret | apply consuming_stuck | apply consuming_defined
    | apply consuming_printf | apply consuming_time | apply consuming_scanf_f
    | apply consuming_scanf_d | apply consuming_clear_input_buffer
    | apply consuming_fgets
    | match goal with IH : context [consuming] |- _ => apply IH end
    | apply consuming_bind; [|intros ?]
    | match goal with
      | |- consuming (if ?b then _ else _) => destruct b
      | |- consuming (match ?x with _ => _ end) => destruct x
      end
    | progress cbv zeta ].

Ltac consume := repeat consume_step.

Lemma consuming_while_scanf_fails fuel : consuming (while_scanf_fails fuel).
Proof. induction fuel as [|fuel IH]; cbn [while_scanf_fails]; consume. Qed.

Lemma consuming_get_float_input prompt : consuming (get_float_input prompt).
Proof.
  unfold get_float_input. apply consuming_bind; [consume|].
  intros _ k a k' H. eapply consuming_while_scanf_fails, H.
Qed.

Lemma consuming_get_string_input buffer max_length prompt :
  consuming (get_string_input buffer max_length prompt).
Proof. unfold get_string_input. consume. Qed.

Lemma consuming_print_categories n : forall i t,
  consuming (print_categories n i t).
Proof. induction n as [|n IH]; intros i t; cbn [print_categories]; consume. Qed.

Lemma consuming_print_transactions n : forall i t,
  consuming (print_transactions n i t).
Proof.
  induction n as [|n IH]; intros i t; cbn [print_transactions]; consume.
Qed.

Lemma consuming_print_notifications n : forall i t,
  consuming (print_notifications n i t).
Proof.
  induction n as [|n IH]; intros i t; cbn [print_notifications]; consume.
Qed.

Lemma consuming_set_budget_from n : forall i t,
  consuming (set_budget_from n i t).
Proof.
  induction n as [|n IH]; intros i t; cbn [set_budget_from];
    repeat first [apply consuming_get_float_input | consume_step].
Qed.

Lemma consuming_add_income t : consuming (add_income t).
Proof.
  unfold add_income.
  repeat first [apply consuming_get_float_input
               |apply consuming_get_string_input | consume_step].
Qed.

Lemma consuming_add_expense t : consuming (add_expense t).
Proof.
  unfold add_expense.
  repeat first [apply consuming_get_float_input
               |apply consuming_get_string_input
               |apply consuming_print_categories | consume_step].
Qed.

Lemma consuming_set_budget t : consuming (set_budget t).
Proof.
  unfold set_budget.
  repeat first [apply consuming_set_budget_from | consume_step].
Qed.

Lemma consuming_view_transactions t : consuming (view_transactions t).
Proof.
  unfold view_transactions.
  repeat first [apply consuming_print_transactions | consume_step].
Qed.

Lemma consuming_view_notifications t : consuming (view_notifications t).
Proof.
  unfold view_notifications.
  repeat first [apply consuming_print_notifications | consume_step].
Qed.

Lemma consuming_dispatch c t : consuming (dispatch c t).
Proof.
  unfold dispatch.
  repeat first [apply consuming_add_income | apply consuming_add_expense
               |apply consuming_set_budget | apply consuming_view_transactions
               |apply consuming_view_notifications | consume_step].
Qed.

(** *** One round of the loop *)

Lemma bind_print_menu {A} (f : unit -> IO A) k :
  bind print_menu f k = f tt (says menu_lines k).
Proof.
  unfold print_menu. repeat (rewrite ?bind_assoc, bind_printf).
  now rewrite !says_says.
Qed.

Lemma main_menu_loop_round fuel prior t k :
  main_menu_loop (S fuel) prior t k
  = match (match choice_read k with Some c => Some c | None => prior end) with
    | None => None
    | Some c =>
        bind (dispatch c t)
             (fun t1 => if c =? 6 then ret t1
                        else main_menu_loop fuel (Some c) t1)
             (with_stdin (tail (skip_blank (stdin k))) (says menu_lines k))
    end.
Proof.
  cbn [main_menu_loop]. rewrite bind_print_menu, bind_scanf_d.
  rewrite bind_clear_input_buffer.
  change (choice_read (says menu_lines k)) with (choice_read k).
  change (stdin (says menu_lines k)) with (stdin k).
  destruct (match choice_read k with Some c => Some c | None => prior end);
    reflexivity.
Qed.

Lemma dispatch_cases c t k t' k' :
  dispatch c t k = Some (t', k') ->
  t' = t \/
  exists op, (op = Income \/ op = Expense \/ op = Budget) /\
             perform op t k = Some (t', k').
Proof.
  assert (Hskip : forall (m : IO unit),
            bind m (fun _ => ret t) k = Some (t', k') -> t' = t).
  { intros m H. apply bind_Some in H as (u & k1 & _ & [= -> _]). reflexivity. }
  unfold dispatch. intros H.
  destruct c as [|[[[]|[]|]|[[]|[]|]|]|];
    try (left; eapply Hskip, H);
    right; [exists Budget|exists Expense|exists Income]; cbn [perform]; auto.
Qed.

(** *** Fuel

    A round leaves fewer lines than it found, so that more fuel than
    there are lines waiting is as good as any amount of it. *)

Lemma leftover_round l : leftover l (tail (skip_blank l)).
Proof.
  eapply leftover_trans; [apply leftover_skip_blank|apply leftover_tail].
Qed.

Lemma length_round l : l <> [] -> (length (tail (skip_blank l)) < length l)%nat.
Proof.
  intros Hl. pose proof (length_skip_blank l) as Hlen.
  destruct (skip_blank l) as [|x rest]; cbn [tail length] in *;
    [destruct l; [congruence|cbn; lia]|lia].
Qed.

Lemma main_menu_loop_eof fuel : forall c t k,
  stdin k = [] -> c <> Some 6 -> main_menu_loop fuel c t k = None.
Proof.
  induction fuel as [|fuel IH]; intros c t k Hin Hc; [reflexivity|].
  rewrite main_menu_loop_round. unfold choice_read. rewrite Hin.
  cbn [skip_blank head mbind option_bind].
  destruct c as [c|]; [|reflexivity].
  unfold bind.
  destruct (dispatch c t _) as [[t1 k2]|] eqn:E; [|reflexivity].
  destruct (Z.eqb_spec c 6) as [->|_]; [congruence|].
  apply IH; [|congruence].
  apply consuming_dispatch in E. cbn [stdin with_stdin tail] in E.
  now apply leftover_nil.
Qed.

Lemma main_menu_loop_fuel n : forall fuel1 fuel2 c t k,
  (length (stdin k) <= n)%nat -> (n < fuel1)%nat -> (n < fuel2)%nat ->
  main_menu_loop fuel1 c t k = main_menu_loop fuel2 c t k.
Proof.
  induction n as [|n IH]; intros [|fuel1] [|fuel2] c t k Hlen H1 H2;
    try lia; rewrite !main_menu_loop_round;
    (destruct (match choice_read k with Some x => Some x | None => c end)
       as [x|]; [|reflexivity]);
    unfold bind;
    (destruct (dispatch x t _) as [[t1 k2]|] eqn:E; [|reflexivity]);
    (destruct (Z.eqb_spec x 6) as [->|Hx]; [reflexivity|]);
    apply consuming_dispatch in E as [E _]; cbn [stdin with_stdin] in E.
  - destruct (stdin k); [|cbn in Hlen; lia]. cbn [skip_blank tail] in E.
    rewrite !main_menu_loop_eof; try congruence;
      destruct (stdin k2); try reflexivity; cbn in E; lia.
  - destruct (stdin k) as [|l rest] eqn:Hin.
    + cbn [skip_blank tail] in E.
      rewrite !main_menu_loop_eof; try congruence;
        destruct (stdin k2); try reflexivity; cbn in E; lia.
    + pose proof (length_round (l :: rest) ltac:(discriminate)) as Hround.
      apply IH; cbn [length] in *; lia.
Qed.

(** *** How the loop ends *)

Lemma main_menu_loop_exit fuel : forall c t k t' k',
  main_menu_loop fuel c t k = Some (t', k') ->
  last (stdout k') = Some goodbye /\
  (c = Some 6 \/
   exists l sfx, l ∈ stdin k /\ is_tail sfx l /\ scan_int sfx = Some 6).
Proof.
  induction fuel as [|fuel IH]; intros c t k t' k' H; [discriminate|].
  rewrite main_menu_loop_round in H.
  destruct (match choice_read k with Some x => Some x | None => c end)
    as [x|] eqn:Hx; [|discriminate].
  assert (Hread : x = 6 ->
            c = Some 6 \/
            exists l sfx, l ∈ stdin k /\ is_tail sfx l /\ scan_int sfx = Some 6).
  { intros ->. unfold choice_read in Hx.
    destruct (skip_blank_drop (stdin k)) as (j & Hj & _).
    destruct (skip_blank (stdin k)) as [|l rest];
      cbn [head mbind option_bind] in Hx; [now left|].
    destruct (scan_int l) as [y|] eqn:Hl; [|now left].
    right. exists l, l. injection Hx as ->.
    split; [|split; [apply is_tail_refl|exact Hl]].
    rewrite <- (take_drop j (stdin k)), <- Hj.
    apply elem_of_app. right. left. }
  apply bind_Some in H as (t1 & k2 & Hd & H).
  destruct (Z.eqb_spec x 6) as [->|Hne].
  - split; [|now apply Hread].
    injection H as _ <-. cbn [dispatch] in Hd.
    rewrite bind_printf in Hd. injection Hd as _ <-.
    cbn [says stdout with_stdin]. apply last_snoc.
  - apply IH in H as [Hlast [Hsix|(l2 & sfx & Hl2 & Hcut & Hsfx)]];
      [congruence|].
    split; [exact Hlast|]. right.
    apply consuming_dispatch in Hd. cbn [stdin with_stdin says] in Hd.
    pose proof (leftover_trans _ _ _ (leftover_round (stdin k)) Hd)
      as [_ Hall].
    rewrite Forall_forall in Hall.
    destruct (Hall l2 Hl2) as (l & Hl & Hcut').
    exists l, sfx. split; [exact Hl|].
    split; [eapply is_tail_trans; eassumption|exact Hsfx].
Qed.

Lemma main_menu_loop_keeps (I : BudgetTracker -> Prop) :
  (forall op t k t' k',
     op = Income \/ op = Expense \/ op = Budget ->
     perform op t k = Some (t', k') -> I t -> I t') ->
  forall fuel c t k t' k',
    main_menu_loop fuel c t k = Some (t', k') -> I t -> I t'.
Proof.
  intros Hstep. induction fuel as [|fuel IH]; intros c t k t' k' H Ht;
    [discriminate|].
  rewrite main_menu_loop_round in H.
  destruct (match choice_read k with Some x => Some x | None => c end)
    as [x|]; [|discriminate].
  apply bind_Some in H as (t1 & k2 & Hd & H).
  assert (Ht1 : I t1).
  { apply dispatch_cases in Hd as [->|(op & Hop & Hd)]; [exact Ht|].
    eapply Hstep; eassumption. }
  destruct (x =? 6); [now injection H as <- _|].
  eapply IH; eassumption.
Qed.

Lemma skip_blank_app blanks l rest :
  Forall (fun b => blank b = true) blanks -> blank l = false ->
  skip_blank (blanks ++ l :: rest) = l :: rest.
Proof.
  intros Hblanks Hl. induction Hblanks as [|b blanks Hb _ IH];
    cbn [app skip_blank]; [now rewrite Hl|now rewrite Hb].
Qed.

Lemma scan_int_Some_blank l c : scan_int l = Some c -> blank l = false.
Proof.
  intros H. destruct (blank l) eqn:Hb; [|reflexivity].
  destruct (scan_blank l Hb) as [_ Hnone]. congruence.
Qed.

Lemma dispatch_default c t :
  c < 1 \/ 6 < c ->
  dispatch c t = (printf ("Invalid choice. Try again." ++ LF) [] ;; ret t).
Proof.
  intros Hc. destruct c as [|[[[]|[]|]|[[]|[]|]|]|]; try reflexivity; lia.
Qed.

(** A choice outside 1..6 changes nothing: the menu answers "Invalid
    choice. Try again." and asks again, and a 6 then ends the program with
    the tracker as it was.  Blank lines before either answer are passed
    over in silence; what follows the line of the 6 is left unread. *)
Theorem main_menu_invalid_choice (t : BudgetTracker) (k : Console)
    (blanks1 blanks2 rest : list string) (l1 l2 : string) (c : Z) :
  stdin k = blanks1 ++ l1 :: blanks2 ++ l2 :: rest ->
  Forall (fun b => blank b = true) blanks1 ->
  Forall (fun b => blank b = true) blanks2 ->
  scan_int l1 = Some c -> c < 1 \/ 6 < c ->
  scan_int l2 = Some 6 ->
  main_menu t k
  = Some (t, {| stdin := rest;
                stdout := stdout k ++ menu_lines ++ [invalid_choice]
                          ++ menu_lines ++ [goodbye];
                clock := clock k;
                clock_reads := clock_reads k |}).
Proof.
  intros Hin Hb1 Hb2 Hl1 Hc Hl2. unfold main_menu.
  assert (Hfuel : exists fuel, length (stdin k) = S fuel).
  { rewrite Hin, length_app. cbn [length]. rewrite Nat.add_succ_r.
    now eexists. }
  destruct Hfuel as [fuel ->].
  rewrite main_menu_loop_round. unfold choice_read at 1.
  rewrite Hin, (skip_blank_app _ _ _ Hb1 (scan_int_Some_blank _ _ Hl1)).
  cbn [head mbind option_bind tail]. rewrite Hl1.
  rewrite (dispatch_default c t Hc), bind_assoc, bind_printf, bind_ret.
  destruct (Z.eqb_spec c 6) as [->|_]; [lia|].
  rewrite main_menu_loop_round. unfold choice_read at 1.
  cbn [stdin says with_stdin].
  rewrite (skip_blank_app _ _ _ Hb2 (scan_int_Some_blank _ _ Hl2)).
  cbn [head mbind option_bind tail]. rewrite Hl2.
  cbn [dispatch]. rewrite bind_assoc, bind_printf, bind_ret.
  cbn [Z.eqb Pos.eqb]. unfold ret, says, with_stdin. cbn.
  rewrite <- !app_assoc. reflexivity.
Qed.

(** [main_menu] returns only through option 6.  Whenever it returns, the
    first line that is not blank was read as a choice, the last thing
    printed is the goodbye line, and the input held a line that reads as
    6, whole or from where an over-long description left off.  On an input
    without such a line the model has no result: the loop goes on for ever
    at the end of input, or the first [switch] reads the choice that no
    [scanf] has assigned. *)
Theorem main_menu_returns_on_six (t t' : BudgetTracker) (k k' : Console) :
  main_menu t k = Some (t', k') ->
  is_Some (choice_read k) /\
  last (stdout k') = Some goodbye /\
  exists l sfx, l ∈ stdin k /\ is_tail sfx l /\ scan_int sfx = Some 6.
Proof.
  intros H. split.
  - unfold main_menu in H. rewrite main_menu_loop_round in H.
    destruct (choice_read k); [now eexists|discriminate].
  - apply main_menu_loop_exit in H as [Hlast [Hc|Hsix]];
      [discriminate|]. now split.
Qed.

(** A whole run of the program: when [main] returns, it returns 0 after
    the goodbye line, the two totals and each category's spending are the
    [float] sums, in order, of the amounts of the transactions stored, and
    the notification log holds the start-up message and nothing else:
    nothing the menu offers ever adds a notification. *)
Theorem main_leaves_ledger (memory t : BudgetTracker) (status : Z)
    (k k' : Console) :
  storage_ok memory ->
  main memory k = Some ((status, t), k') ->
  status = 0 /\
  last (stdout k') = Some goodbye /\
  total_income t = float_sum (income_amounts t) /\
  total_expenses t = float_sum (expense_amounts t) /\
  Forall (fun c => current_spent c = float_sum (expense_amounts_of (name c) t))
         (stored_categories t) /\
  map name (stored_categories t) = default_categories /\
  map message_text (stored_notifications t)
  = [Some "Tracker initialized with default categories."%string].
Proof.
  intros Hok H. unfold main in H.
  apply bind_Some in H as (t0 & k0 & Hinit & H).
  apply defined_Some in Hinit as [Hinit ->].
  apply bind_Some in H as (t1 & k1 & Hmenu & [= <- <- <-]).
  destruct (init_tracker_ledger _ _ Hok Hinit) as (Hledger & _).
  pose proof (init_tracker_settled _ _ Hok Hinit) as Hsettled.
  destruct (init_tracker_fields memory Hok)
    as (t0' & slot & rest & Heq & _ & _ & _ & Hnots & _ & _ & Hnc & _).
  rewrite Heq in Hinit. injection Hinit as ->.
  assert (Hkeeps : (settled t1 /\ ledger t1) /\
                   notifications t1 = notifications t0 /\
                   notification_count t1 = notification_count t0).
  { unfold main_menu in Hmenu.
    refine (main_menu_loop_keeps
              (fun b => (settled b /\ ledger b) /\
                        notifications b = notifications t0 /\
                        notification_count b = notification_count t0)
              _ _ _ _ _ _ _ Hmenu _);
      [|split; [split; assumption|split; reflexivity]].
    intros op b kb b' kb' Hop Hrun [[Hs Hl] [Hn Hc]].
    destruct (perform_keeps_notifications _ _ _ _ _ Hop Hrun) as [Hn' Hc'].
    split; [split|split].
    - eapply perform_settled; eassumption.
    - eapply perform_ledger; eassumption.
    - congruence.
    - congruence. }
  destruct Hkeeps as [[Hs [_ _ Hinc Hexp Hspent _]] [Hn Hc]].
  split; [reflexivity|].
  split; [eapply main_menu_loop_exit, Hmenu|].
  repeat split; try assumption.
  - apply Hs.
  - unfold stored_notifications. rewrite Hn, Hc, Hnots, Hnc. reflexivity.
Qed.

End Menu.

(** ** Sample runs *)


Lemma get_float_input_never_returns_witness :
  get_float_input (scanner := glibc_scanner) "Amount: "
                  (console ["abc"; ""; "x1"]%string) = None.
Proof.
  apply (get_float_input_never_returns (scanner := glibc_scanner)).
  repeat constructor.
Defined.

Lemma get_string_input_cuts_witness :
  exists d k',
    get_string_input (replicate 100 "?"%char) 5 "Description: "
                     (console ["groceries"; "6"]%string)
    = Some (d, k') /\
    c_string d = Some "groc"%string /\
    stdin k' = ["eries"; "6"]%string /\
    drop 5 d = replicate 95 "?"%char.
Proof.
  destruct (get_string_input_cuts (replicate 100 "?"%char) 5 "Description: "
              (console ["groceries"; "6"]%string) "groceries" ["6"%string])
    as (d & Hrun & Htext & _ & _ & _ & Hrest);
    [cbn; lia|reflexivity|reflexivity|].
  exists d. eexists. split; [exact Hrun|].
  split; [exact Htext|]. split; [reflexivity|exact Hrest].
Defined.

Lemma print_categories_lists_witness :
  print_categories (Z.to_nat (category_count fresh_tracker)) 0 fresh_tracker
                   (console [])
  = Some (tt, says (imap category_line (stored_categories fresh_tracker))
                   (console [])) /\
  imap category_line (stored_categories fresh_tracker) !! 3%nat
  = Some (Printf ("%d. %s" ++ LF) [AInt 4; AStr "Food"]).
Proof.
  destruct (print_categories_lists fresh_tracker (console []))
    as [Hrun Hline]; [vm_compute; split; discriminate|].
  split; [exact Hrun|].
  apply (Hline 4 (fresh_category "Food")); [vm_compute; split; discriminate|].
  vm_compute. reflexivity.
Defined.

Lemma view_transactions_lists_witness :
  exists k',
    view_transactions
      (after (scanner := glibc_scanner) [Income; Expense]
             ["50"; "bonus"; "30"; "4"; "lunch"]%string) (console [])
    = Some (tt, k') /\
    stdout k'
    = transactions_header
      ++ [Printf ("%-20s $%-9.2f %-12s %-30s" ++ LF)
                 [AStr "Income"; AFloat (F32.of_Z 50); AStr "Income";
                  AStr "bonus"];
          Printf ("%-20s $%-9.2f %-12s %-30s" ++ LF)
                 [AStr "Food"; AFloat (F32.of_Z 30); AStr "Expense";
                  AStr "lunch"]].
Proof.
  destruct (view_transactions_lists
              (after (scanner := glibc_scanner) [Income; Expense]
                     ["50"; "bonus"; "30"; "4"; "lunch"]%string) (console []))
    as [Hrows _]; [vm_compute; split; discriminate|].
  destruct (Hrows
              [Printf ("%-20s $%-9.2f %-12s %-30s" ++ LF)
                      [AStr "Income"; AFloat (F32.of_Z 50); AStr "Income";
                       AStr "bonus"];
               Printf ("%-20s $%-9.2f %-12s %-30s" ++ LF)
                      [AStr "Food"; AFloat (F32.of_Z 30); AStr "Expense";
                       AStr "lunch"]])
    as (k' & Hrun & Hprinted & _); [vm_compute; reflexivity|].
  exists k'. split; [exact Hrun|].
  change (printed (console []) k') with (stdout k') in Hprinted.
  rewrite Hprinted.
  replace (transaction_count _ =? 0) with false by (vm_compute; reflexivity).
  reflexivity.
Defined.

Lemma view_notifications_lists_witness :
  exists k',
    view_notifications
      (after (scanner := glibc_scanner) [Notify "rent is due"] [])
      (console [])
    = Some (tt, k') /\
    stdout k'
    = [Printf ("Notifications:" ++ LF) [];
       Printf ("%s" ++ LF)
              [AStr "Tracker initialized with default categories."];
       Printf ("%s" ++ LF) [AStr "rent is due"]].
Proof.
  destruct (view_notifications_lists
              (after (scanner := glibc_scanner) [Notify "rent is due"] [])
              (console []))
    as [Htexts _]; [vm_compute; split; discriminate|].
  destruct (Htexts ["Tracker initialized with default categories.";
                    "rent is due"]%string)
    as (k' & Hrun & Hprinted & _); [vm_compute; reflexivity|].
  exists k'. split; [exact Hrun|].
  change (printed (console []) k') with (stdout k') in Hprinted.
  rewrite Hprinted.
  replace (notification_count _ =? 0) with false by (vm_compute; reflexivity).
  reflexivity.
Defined.

Lemma set_budget_sets_limits_witness :
  exists t' k',
    set_budget (scanner := glibc_scanner) fresh_tracker
               (console ["10"; "20"; "30"; "40"; "50"; "60"; "70"; "80";
                         "1"]%string)
    = Some (t', k') /\
    stdin k' = ["1"%string] /\
    map budget_limit (stored_categories t')
    = map F32.of_Z [10; 20; 30; 40; 50; 60; 70; 80].
Proof.
  destruct (set_budget_sets_limits (scanner := glibc_scanner) fresh_tracker
              (console ["10"; "20"; "30"; "40"; "50"; "60"; "70"; "80";
                        "1"]%string)
              ["10"; "20"; "30"; "40"; "50"; "60"; "70"; "80"]%string
              (map F32.of_Z [10; 20; 30; 40; 50; 60; 70; 80])
              ["1"%string])
    as (t' & k' & Hrun & Hin & Hcats & _).
  - vm_compute. split; discriminate.
  - reflexivity.
  - repeat (constructor; [vm_compute; reflexivity|]). constructor.
  - vm_compute. reflexivity.
  - exists t', k'. split; [exact Hrun|]. split; [exact Hin|].
    rewrite Hcats. vm_compute. reflexivity.
Defined.

Lemma set_budget_changes_limits_only_witness :
  exists t' k',
    set_budget (scanner := glibc_scanner) food_at_ninety
               (console ["x"; "1"; "2"; "-3"; "4"; ""; "5"; "6"; "7"; "8";
                         "9"]%string)
    = Some (t', k') /\
    transactions t' = transactions food_at_ninety /\
    total_expenses t' = total_expenses food_at_ninety /\
    map current_spent (categories t')
    = map current_spent (categories food_at_ninety).
Proof.
  assert (Hreturns :
            match set_budget (scanner := glibc_scanner) food_at_ninety
                    (console ["x"; "1"; "2"; "-3"; "4"; ""; "5"; "6"; "7";
                              "8"; "9"]%string) with
            | Some _ => True
            | None => False
            end) by (vm_compute; exact I).
  destruct (set_budget (scanner := glibc_scanner) food_at_ninety
              (console ["x"; "1"; "2"; "-3"; "4"; ""; "5"; "6"; "7"; "8";
                        "9"]%string))
    as [[t' k']|] eqn:Hrun; [|destruct Hreturns].
  destruct (set_budget_changes_limits_only
              (scanner := glibc_scanner) _ _ _ _ Hrun)
    as (Htx & _ & _ & Hte & _ & _ & _ & _ & Hspent).
  exists t', k'. now repeat split.
Defined.

Lemma reachable_states_are_settled_witness :
  exists t k',
    perform_all (scanner := glibc_scanner)
                [Income; Expense; Notify "rent is due"; Budget; Expense]
                fresh_tracker
                (console ["50"; "bonus"; "30"; "4"; "lunch";
                          "1"; "2"; "3"; "4"; "5"; "6"; "7"; "8";
                          "12"; "77"]%string)
    = Some (t, k') /\
    length (transactions t) = 1000%nat /\
    length (categories t) = 50%nat /\
    length (notifications t) = 50%nat /\
    0 <= transaction_count t <= 1000 /\
    1 <= notification_count t <= 50 /\
    category_count t = 8 /\
    map name (stored_categories t)
    = ["Salary"; "Freelance"; "Investments"; "Food"; "Transport";
       "Utilities"; "Rent"; "Entertainment"]%string.
Proof.
  assert (Hreturns :
            match perform_all (scanner := glibc_scanner)
                    [Income; Expense; Notify "rent is due"; Budget; Expense]
                    fresh_tracker
                    (console ["50"; "bonus"; "30"; "4"; "lunch";
                              "1"; "2"; "3"; "4"; "5"; "6"; "7"; "8";
                              "12"; "77"]%string) with
            | Some _ => True
            | None => False
            end) by (vm_compute; exact I).
  destruct (perform_all (scanner := glibc_scanner)
              [Income; Expense; Notify "rent is due"; Budget; Expense]
              fresh_tracker
              (console ["50"; "bonus"; "30"; "4"; "lunch";
                        "1"; "2"; "3"; "4"; "5"; "6"; "7"; "8";
                        "12"; "77"]%string))
    as [[t k']|] eqn:Hrun; [|destruct Hreturns].
  exists t, k'. split; [reflexivity|].
  exact (reachable_states_are_settled (scanner := glibc_scanner)
           stale_memory fresh_tracker t _ _ k'
           storage_ok_stale_memory init_stale_memory Hrun).
Defined.

Lemma operations_return_when_reachable_witness :
  exists t k',
    perform_all (scanner := glibc_scanner)
                [Income; Notify "rent is due"; Expense]
                fresh_tracker
                (console ["50"; "bonus"; "30"; "4"; "lunch"]%string)
    = Some (t, k') /\
    is_Some (add_income (scanner := glibc_scanner) t
                        (console ["oops"; "5"; "gift"]%string)) /\
    is_Some (add_expense (scanner := glibc_scanner) t
                         (console ["5"; "-2"; "bus"]%string)) /\
    is_Some (add_notification t "another" (console [])) /\
    is_Some (view_transactions t (console [])) /\
    is_Some (view_notifications t (console [])).
Proof.
  assert (Hreturns :
            match perform_all (scanner := glibc_scanner)
                    [Income; Notify "rent is due"; Expense]
                    fresh_tracker
                    (console ["50"; "bonus"; "30"; "4"; "lunch"]%string) with
            | Some _ => True
            | None => False
            end) by (vm_compute; exact I).
  destruct (perform_all (scanner := glibc_scanner)
              [Income; Notify "rent is due"; Expense]
              fresh_tracker
              (console ["50"; "bonus"; "30"; "4"; "lunch"]%string))
    as [[t k']|] eqn:Hrun; [|destruct Hreturns].
  exists t, k'. split; [reflexivity|].
  pose proof (operations_return_when_reachable (scanner := glibc_scanner)
                stale_memory fresh_tracker t _ _ k'
                storage_ok_stale_memory init_stale_memory Hrun) as Hsafe.
  split; [|split; [|split; [|split]]].
  - apply (Hsafe (console ["oops"; "5"; "gift"]%string)); [|line_left].
    eexists. eexists. vm_compute. reflexivity.
  - apply (Hsafe (console ["5"; "-2"; "bus"]%string)); [|line_left].
    eexists. eexists. eexists.
    split; [vm_compute; reflexivity|]. vm_compute. reflexivity.
  - apply (Hsafe (console [])).
  - apply (Hsafe (console [])).
  - apply (Hsafe (console [])).
    repeat constructor.
Defined.

Lemma transactions_are_append_only_witness :
  exists t' k' more,
    perform_all (scanner := glibc_scanner)
                [Expense; Budget; Expense; Income]
                (after (scanner := glibc_scanner) [Income]
                       ["50"; "bonus"]%string)
                (console ["30"; "4"; "lunch";
                          "1"; "2"; "3"; "4"; "5"; "6"; "7"; "8";
                          "12"; "77"; "5"; "tip"]%string)
    = Some (t', k') /\
    stored_transactions t'
    = stored_transactions (after (scanner := glibc_scanner) [Income]
                                 ["50"; "bonus"]%string) ++ more.
Proof.
  assert (Hreturns :
            match perform_all (scanner := glibc_scanner)
                    [Expense; Budget; Expense; Income]
                    (after (scanner := glibc_scanner) [Income]
                           ["50"; "bonus"]%string)
                    (console ["30"; "4"; "lunch";
                              "1"; "2"; "3"; "4"; "5"; "6"; "7"; "8";
                              "12"; "77"; "5"; "tip"]%string) with
            | Some _ => True
            | None => False
            end) by (vm_compute; exact I).
  destruct (perform_all (scanner := glibc_scanner)
              [Expense; Budget; Expense; Income]
              (after (scanner := glibc_scanner) [Income]
                     ["50"; "bonus"]%string)
              (console ["30"; "4"; "lunch";
                        "1"; "2"; "3"; "4"; "5"; "6"; "7"; "8";
                        "12"; "77"; "5"; "tip"]%string))
    as [[t' k']|] eqn:Hrun; [|destruct Hreturns].
  destruct (transactions_are_append_only (scanner := glibc_scanner)
              _ _ _ _ _ Hrun) as [more Hmore].
  exists t', k', more. split; [reflexivity|exact Hmore].
Defined.

Lemma add_expense_invalid_category_slot_witness :
  exists old k',
    transactions fresh_tracker !! Z.to_nat (transaction_count fresh_tracker)
    = Some old /\
    add_expense (scanner := glibc_scanner) fresh_tracker
                (console ["30"; "9"; "test"]%string)
    = Some ({| transactions :=
                 <[Z.to_nat (transaction_count fresh_tracker) :=
                     {| amount := F32.of_Z 30;
                        description := description old;
                        category := category old;
                        timestamp := timestamp old;
                        is_income := is_income old |}]>
                   (transactions fresh_tracker);
               categories := categories fresh_tracker;
               notifications := notifications fresh_tracker;
               transaction_count := transaction_count fresh_tracker;
               category_count := category_count fresh_tracker;
               notification_count := notification_count fresh_tracker;
               total_income := total_income fresh_tracker;
               total_expenses := total_expenses fresh_tracker |}, k').
Proof.
  apply (add_expense_invalid_category_slot (scanner := glibc_scanner)
           fresh_tracker (console ["30"; "9"; "test"]%string)
           (F32.of_Z 30) 9
           storage_ok_fresh_tracker counts_ok_fresh_tracker).
  - vm_compute. reflexivity.
  - eexists. split; [vm_compute; reflexivity|]. vm_compute. reflexivity.
  - right. vm_compute. reflexivity.
Defined.

Lemma init_tracker_sets_message_only_witness :
  exists t n0,
    init_tracker stale_memory = Some t /\
    stored_notifications t = [n0] /\
    message_text n0
    = Some "Tracker initialized with default categories."%string /\
    notification_timestamp n0 = -1 /\
    is_read n0 = 7 /\
    drop 45 (message n0) = replicate 55 "?"%char.
Proof.
  destruct (init_tracker_sets_message_only stale_memory
              {| message := replicate 100 "?"%char;
                 notification_timestamp := -1; is_read := 7 |}
              (replicate 49 {| message := replicate 100 "?"%char;
                               notification_timestamp := -1; is_read := 7 |})
              storage_ok_stale_memory eq_refl)
    as (t & n0 & Hinit & Hlog & Htext & Htime & Hread & Hrest).
  exists t, n0. repeat split; assumption.
Defined.

Lemma main_menu_invalid_choice_witness :
  main_menu (scanner := glibc_scanner) fresh_tracker
            (console [""; "9 lives"; " "; ""; "6"; "1"; "50"]%string)
  = Some (fresh_tracker,
          {| stdin := ["1"; "50"]%string;
             stdout := menu_lines ++ [invalid_choice] ++ menu_lines
                       ++ [goodbye];
             clock := Z.of_nat;
             clock_reads := 0 |}).
Proof.
  apply (main_menu_invalid_choice (scanner := glibc_scanner) fresh_tracker
           (console [""; "9 lives"; " "; ""; "6"; "1"; "50"]%string)
           [""%string] [" "; ""]%string ["1"; "50"]%string
           "9 lives" "6" 9).
  - reflexivity.
  - repeat constructor.
  - repeat constructor.
  - vm_compute. reflexivity.
  - right. lia.
  - vm_compute. reflexivity.
Defined.

Lemma main_menu_returns_on_six_witness :
  exists t' k',
    main_menu (scanner := glibc_scanner) fresh_tracker
              (console ["1"; "50";
                        string_of_list_ascii (replicate 99 "d"%char);
                        "6"]%string) = Some (t', k') /\
    is_Some (choice_read (scanner := glibc_scanner)
               (console ["1"; "50";
                         string_of_list_ascii (replicate 99 "d"%char);
                         "6"]%string)) /\
    last (stdout k') = Some goodbye /\
    exists l sfx,
      l ∈ ["1"; "50"; string_of_list_ascii (replicate 99 "d"%char);
           "6"]%string /\
      is_tail sfx l /\
      scan_int (Scanf := glibc_scanner) sfx = Some 6.
Proof.
  assert (Hreturns :
            match main_menu (scanner := glibc_scanner) fresh_tracker
                    (console ["1"; "50";
                              string_of_list_ascii (replicate 99 "d"%char);
                              "6"]%string) with
            | Some _ => True
            | None => False
            end) by (vm_compute; exact I).
  destruct (main_menu (scanner := glibc_scanner) fresh_tracker
              (console ["1"; "50";
                        string_of_list_ascii (replicate 99 "d"%char);
                        "6"]%string))
    as [[t' k']|] eqn:Hrun; [|destruct Hreturns].
  exists t', k'. split; [reflexivity|].
  exact (main_menu_returns_on_six (scanner := glibc_scanner) _ _ _ _ Hrun).
Defined.

Lemma main_leaves_ledger_witness :
  exists t k',
    main (scanner := glibc_scanner) stale_memory
         (console ["1"; "50"; "bonus"; "2"; "30"; "4"; "lunch"; "4";
                   "1"; "2"; "3"; "20"; "5"; "6"; "7"; "8";
                   "2"; "5"; "4"; "snack"; "3"; "5"; "6"]%string)
    = Some ((0, t), k') /\
    last (stdout k') = Some goodbye /\
    total_income t = float_sum (income_amounts t) /\
    total_expenses t = float_sum (expense_amounts t) /\
    map message_text (stored_notifications t)
    = [Some "Tracker initialized with default categories."%string].
Proof.
  assert (Hreturns :
            match main (scanner := glibc_scanner) stale_memory
                    (console ["1"; "50"; "bonus"; "2"; "30"; "4"; "lunch";
                              "4"; "1"; "2"; "3"; "20"; "5"; "6"; "7"; "8";
                              "2"; "5"; "4"; "snack"; "3"; "5";
                              "6"]%string) with
            | Some _ => True
            | None => False
            end) by (vm_compute; exact I).
  destruct (main (scanner := glibc_scanner) stale_memory
              (console ["1"; "50"; "bonus"; "2"; "30"; "4"; "lunch";
                        "4"; "1"; "2"; "3"; "20"; "5"; "6"; "7"; "8";
                        "2"; "5"; "4"; "snack"; "3"; "5"; "6"]%string))
    as [[[status t] k']|] eqn:Hrun; [|destruct Hreturns].
  destruct (main_leaves_ledger (scanner := glibc_scanner) _ _ _ _ _
              storage_ok_stale_memory Hrun)
    as (-> & Hlast & Hti & Hte & _ & _ & Hlog).
  exists t, k'. now repeat split.
Defined.
